(** * Lane boundary tracking: [Graph.find_lane_pixels] and [Graph.fit_polynomial]

    A shallow embedding of the tracking code of [graph.py] together with the
    NumPy operations it relies on, and the properties of the specification
    that were checked against it.

    Conventions of the embedding.
    - A mask is a two-dimensional array of integer intensities; [np.sum]
      accumulates integer pixels in 64-bit words, which do not overflow for
      image-sized inputs, so sums are taken in [Z].
    - Python exceptions are explicit: a computation returns [OK v] or
      [Raise e].
    - The only floating-point computations of the tracker are quotients of two
      integers ([/] followed by a comparison with [0.1], by [int(...)], or
      returned as the mean width). They are kept as exact rationals, extended
      with the values NumPy produces for a zero divisor; see [npfloat]. *)

From Stdlib Require Import ZArith QArith Qabs List Bool Lia.
From Stdlib Require Import Floats.PrimFloat Numbers.Cyclic.Int63.Uint63.
From Stdlib Require Import Floats.SpecFloat Floats.FloatOps.
Import ListNotations.
Open Scope Z_scope.

(** ** Exceptions *)

Inductive exn : Set :=
| ValueError          (* reduction or argmax of an empty array *)
| TypeError           (* arithmetic on [None] *)
| UnboundLocalError.  (* a local variable read before any assignment *)

Inductive result (A : Type) : Type :=
| OK (a : A)
| Raise (e : exn).
Arguments OK {A} a.
Arguments Raise {A} e.

Definition bind {A B : Type} (m : result A) (k : A -> result B) : result B :=
  match m with
  | OK a => k a
  | Raise e => Raise e
  end.

Notation "x <- m ;; k" := (bind m (fun x => k))
  (at level 61, m at next level, right associativity).
Notation "' p <- m ;; k" := (bind m (fun x => let p := x in k))
  (at level 61, p pattern, m at next level, right associativity).

Definition returns {A : Type} (m : result A) : Prop := exists a, m = OK a.

(** ** NumPy and Python primitives *)

Module Np.

(** A bound [i] of a slice over [n] elements: negative bounds count from the
    end, and every bound is clipped to [0..n]. *)
Definition norm_bound (n i : Z) : Z :=
  if i <? 0 then Z.max 0 (i + n) else Z.min i n.

Definition slice_start (n : Z) (lo : option Z) : Z :=
  match lo with Some i => norm_bound n i | None => 0 end.

Definition slice_stop (n : Z) (hi : option Z) : Z :=
  match hi with Some i => norm_bound n i | None => n end.

(** [l[lo:hi]] *)
Definition slice {A : Type} (lo hi : option Z) (l : list A) : list A :=
  let n := Z.of_nat (length l) in
  let start := slice_start n lo in
  let stop := slice_stop n hi in
  firstn (Z.to_nat (stop - start)) (skipn (Z.to_nat start) l).

(** Two-dimensional integer array of shape [(length rows, ncols)]. *)
Record ndarray : Type := mk_ndarray {
  ncols : nat;
  rows : list (list Z)
}.

Definition shape0 (a : ndarray) : Z := Z.of_nat (length (rows a)).
Definition shape1 (a : ndarray) : Z := Z.of_nat (ncols a).

Definition wf (a : ndarray) : Prop :=
  Forall (fun r => length r = ncols a) (rows a).

(** [a[ylo:yhi, xlo:xhi]] *)
Definition slice2 (ylo yhi xlo xhi : option Z) (a : ndarray) : ndarray :=
  {| ncols := Z.to_nat (slice_stop (shape1 a) xhi - slice_start (shape1 a) xlo);
     rows := map (slice xlo xhi) (slice ylo yhi (rows a)) |}.

Fixpoint zip_add (r acc : list Z) : list Z :=
  match r, acc with
  | x :: r', y :: acc' => (x + y) :: zip_add r' acc'
  | _, _ => []
  end.

(** [np.sum(a, axis=0)]: one sum per column. *)
Definition sum_axis0 (a : ndarray) : list Z :=
  fold_right zip_add (repeat 0 (ncols a)) (rows a).

(** Position and value of the first maximum of the non-empty list [x :: t]. *)
Fixpoint first_max (x : Z) (t : list Z) : nat * Z :=
  match t with
  | [] => (O, x)
  | y :: t' =>
      let (i, v) := first_max y t' in
      if x <? v then (S i, v) else (O, x)
  end.

(** [np.argmax(l)] *)
Definition argmax (l : list Z) : result Z :=
  match l with
  | [] => Raise ValueError
  | x :: t => OK (Z.of_nat (fst (first_max x t)))
  end.

(** [np.max(l)] *)
Definition amax (l : list Z) : result Z :=
  match l with
  | [] => Raise ValueError
  | x :: t => OK (snd (first_max x t))
  end.

(** The value of [a / b] for NumPy integers [a], [b]: the operands are
    converted to double precision; a zero divisor gives an infinity or a NaN
    (with a warning, not an exception). For operands below [2^52] in absolute
    value the rounded quotient compares with the double nearest to [1/10], and
    truncates to an integer, exactly as the rational quotient does, so a
    finite quotient is kept as that rational. *)
Inductive npfloat : Type :=
| Finite (q : Q)
| Inf (negative : bool)
| NaN.

Definition true_divide (a b : Z) : npfloat :=
  if b =? 0 then
    if a =? 0 then NaN else Inf (a <? 0)
  else Finite (Qmake a 1 / Qmake b 1).

(** [np.absolute(x)] *)
Definition absolute (x : npfloat) : npfloat :=
  match x with
  | Finite q => Finite (Qabs q)
  | Inf _ => Inf false
  | NaN => NaN
  end.

Definition Qltb (p q : Q) : bool := negb (Qle_bool q p).

(** [x > q]; every comparison with a NaN is false. *)
Definition gt (x : npfloat) (q : Q) : bool :=
  match x with
  | Finite p => Qltb q p
  | Inf negative => negb negative
  | NaN => false
  end.

(** [int(n / 2)] for a Python or NumPy integer [n]: true division followed by
    truncation towards zero. *)
Definition int_half (n : Z) : Z := Z.quot n 2.

(** The sum of a list of integers. *)
Definition total (l : list Z) : Z := fold_right Z.add 0 l.

(** [np.average(l)] of a non-empty list of integers. *)
Definition average (l : list Z) : Q :=
  Qmake (total l) 1 / Qmake (Z.of_nat (length l)) 1.

(** [l[i]] for an index [i] that is in range. *)
Definition get (l : list Z) (i : Z) : Z := nth (Z.to_nat i) l 0.

(** The sum of entry [j] over a list of rows. *)
Definition column_total (j : nat) (rs : list (list Z)) : Z :=
  fold_right (fun r s => nth j r 0 + s) 0 rs.

End Np.

(** ** The tracker of [graph.py] *)

Module Graph.
Import Np.

(** *** Hyperparameters (lines 398-400 and 420) *)

Definition nwindows : Z := 15.
Definition margin : Z := 100.
Definition min_pixels : Z := 10 * 255.

(** *** Histogram peaks (lines 374-382) *)

(** [np.sum(binary_warped[binary_warped.shape[0] // 2:, :], axis=0)] *)
Definition histogram (binary_warped : ndarray) : list Z :=
  sum_axis0 (slice2 (Some (shape0 binary_warped / 2)) None None None binary_warped).

Definition midpoint_of (histogram : list Z) : Z :=
  Z.of_nat (length histogram) / 2.

(** The pair [(leftx_base, rightx_base)] before validation. *)
Definition peaks (binary_warped : ndarray) : result (Z * Z) :=
  let histogram := histogram binary_warped in
  let midpoint := midpoint_of histogram in
  leftx_base <- argmax (slice None (Some midpoint) histogram) ;;
  right_peak <- argmax (slice (Some midpoint) None histogram) ;;
  OK (leftx_base, right_peak + midpoint).

(** *** Validation against the previous bases (lines 387-394) *)

(** [np.absolute((last - base) / base) > 0.1] *)
Definition drifted (last base : Z) : bool :=
  gt (absolute (true_divide (last - base) base)) (1 # 10).

(** Lines 387-390. *)
Definition validate_left (last_left_base : option Z) (leftx_base : Z) : Z :=
  match last_left_base with
  | Some last => if drifted last leftx_base then last else leftx_base
  | None => leftx_base
  end.

(** Lines 391-394. The difference is taken from [last_left_base], which is
    [None] when only a previous right base was passed. *)
Definition validate_right (last_left_base last_right_base : option Z)
    (rightx_base : Z) : result Z :=
  match last_right_base with
  | Some last_right =>
      match last_left_base with
      | Some last_left =>
          OK (if drifted last_left rightx_base then last_right else rightx_base)
      | None => Raise TypeError
      end
  | None => OK rightx_base
  end.

(** Lines 374-394: the bases that seed the search. *)
Definition locate_bases (binary_warped : ndarray)
    (last_left_base last_right_base : option Z) : result (Z * Z) :=
  ' (leftx_base, rightx_base) <- peaks binary_warped ;;
  let leftx_base := validate_left last_left_base leftx_base in
  rightx_base <- validate_right last_left_base last_right_base rightx_base ;;
  OK (leftx_base, rightx_base).

(** *** One band of the search (lines 423-477) *)

(** The local variables that live across iterations of the loop. *)
Record tracker : Type := mk_tracker {
  leftx_current : Z;
  rightx_current : Z;
  prev_lane_dist : Z;
  lane_dist_hist : list Z;
  left_lane_points : list (Z * Z);
  right_lane_points : list (Z * Z)
}.

Record window_box : Type := mk_window_box {
  win_y_low : Z;
  win_y_high : Z;
  win_xleft_low : Z;
  win_xleft_high : Z;
  win_xright_low : Z;
  win_xright_high : Z
}.

Definition window_height (binary_warped : ndarray) : Z :=
  shape0 binary_warped / nwindows.

(** Lines 425-434: the boundaries of band [window], after the two clamps. *)
Definition window_bounds (binary_warped : ndarray) (window : Z)
    (leftx_current rightx_current : Z) : window_box :=
  let win_y_low :=
    shape0 binary_warped - (window + 1) * window_height binary_warped in
  let win_y_high :=
    shape0 binary_warped - window * window_height binary_warped in
  let win_xleft_low := leftx_current - margin in
  let win_xleft_high := leftx_current + margin in
  let win_xright_low := rightx_current - margin in
  let win_xright_high := rightx_current + margin in
  let win_xleft_low := if win_xleft_low <? 0 then 0 else win_xleft_low in
  let win_y_low := if win_y_low <? 0 then 0 else win_y_low in
  mk_window_box win_y_low win_y_high
    win_xleft_low win_xleft_high win_xright_low win_xright_high.

(** Lines 437-440: the column sums of one side's search region. *)
Definition area_hist (binary_warped : ndarray) (y_low y_high x_low x_high : Z)
    : list Z :=
  sum_axis0
    (slice2 (Some y_low) (Some y_high) (Some x_low) (Some x_high) binary_warped).

(** Lines 442-445 (left) and 446-449 (right). *)
Definition detect (area_hist : list Z) (win_x_low : Z) : result (option Z) :=
  peak <- amax area_hist ;;
  if min_pixels <? peak then
    i <- argmax area_hist ;; OK (Some (i + win_x_low))
  else OK None.

(** Lines 453-454 (left) and 455-456 (right). *)
Definition reject_low (x_index : option Z) (win_x_low : Z) : option Z :=
  match x_index with
  | Some x => if x =? win_x_low then None else Some x
  | None => None
  end.

(** Lines 437-456: what the band finds on each side. *)
Definition candidates (binary_warped : ndarray) (w : window_box)
    : result (option Z * option Z) :=
  let l_area_hist :=
    area_hist binary_warped (win_y_low w) (win_y_high w)
      (win_xleft_low w) (win_xleft_high w) in
  let r_area_hist :=
    area_hist binary_warped (win_y_low w) (win_y_high w)
      (win_xright_low w) (win_xright_high w) in
  l_x_index <- detect l_area_hist (win_xleft_low w) ;;
  r_x_index <- detect r_area_hist (win_xright_low w) ;;
  OK (reject_low l_x_index (win_xleft_low w),
      reject_low r_x_index (win_xright_low w)).

(** Lines 458-477: distance bookkeeping, gap filling, and the two points. *)
Definition recenter (w : window_box) (l_x_index r_x_index : option Z)
    (st : tracker) : tracker :=
  let y_index := int_half (win_y_low w + win_y_high w) in
  let '(l_x_index, r_x_index, prev_lane_dist, lane_dist_hist) :=
    match l_x_index, r_x_index with
    | Some l, Some r =>
        (l, r, r - l, lane_dist_hist st ++ [r - l])
    | None, None =>
        (int_half (win_xleft_low w + win_xleft_high w),
         int_half (win_xright_low w + win_xright_high w),
         prev_lane_dist st, lane_dist_hist st)
    | None, Some r =>
        (r - prev_lane_dist st, r, prev_lane_dist st, lane_dist_hist st)
    | Some l, None =>
        (l, l + prev_lane_dist st, prev_lane_dist st, lane_dist_hist st)
    end in
  {| leftx_current := l_x_index;
     rightx_current := r_x_index;
     prev_lane_dist := prev_lane_dist;
     lane_dist_hist := lane_dist_hist;
     left_lane_points := left_lane_points st ++ [(l_x_index, y_index)];
     right_lane_points := right_lane_points st ++ [(r_x_index, y_index)] |}.

(** The body of the loop. The drawing on [out_img] (lines 482-486) does not
    flow into any returned number and is left out. *)
Definition window_step (binary_warped : ndarray) (window : Z) (st : tracker)
    : result tracker :=
  let w := window_bounds binary_warped window
             (leftx_current st) (rightx_current st) in
  ' (l_x_index, r_x_index) <- candidates binary_warped w ;;
  OK (recenter w l_x_index r_x_index st).

(** [range(n)] *)
Definition range (n : Z) : list Z := map Z.of_nat (seq 0 (Z.to_nat n)).

Fixpoint run_windows (binary_warped : ndarray) (windows : list Z) (st : tracker)
    : result tracker :=
  match windows with
  | [] => OK st
  | window :: rest =>
      st' <- window_step binary_warped window st ;;
      run_windows binary_warped rest st'
  end.

(** Lines 404-418: the state before the first band. *)
Definition init_tracker (leftx_base rightx_base : Z) : tracker :=
  {| leftx_current := leftx_base;
     rightx_current := rightx_base;
     prev_lane_dist := rightx_base - leftx_base;
     lane_dist_hist := [rightx_base - leftx_base];
     left_lane_points := [];
     right_lane_points := [] |}.

(** What [find_lane_pixels] returns, without the overlay image. *)
Record lane_pixels : Type := mk_lane_pixels {
  left_points : list (Z * Z);
  right_points : list (Z * Z);
  avg_lane_dist : Q;
  leftx_base : Z;
  rightx_base : Z
}.

Definition find_lane_pixels (binary_warped : ndarray)
    (last_left_base last_right_base : option Z) : result lane_pixels :=
  ' (leftx_base, rightx_base) <-
      locate_bases binary_warped last_left_base last_right_base ;;
  st <- run_windows binary_warped (range nwindows)
          (init_tracker leftx_base rightx_base) ;;
  OK {| left_points := left_lane_points st;
        right_points := right_lane_points st;
        avg_lane_dist := average (lane_dist_hist st);
        leftx_base := leftx_base;
        rightx_base := rightx_base |}.

(** *** Curve fitting (lines 337-363) *)

Section Fit.

(** [np.polyfit(ys, xs, deg=2)], the least-squares solver of NumPy: the
    coefficients, highest degree first. *)
Variable polyfit : list Z -> list Z -> Q * Q * Q.

(** A local variable of the function: [None] while nothing was assigned. *)
Definition local (A : Type) : Type := option A.

Definition read {A : Type} (v : local A) : result A :=
  match v with
  | Some a => OK a
  | None => Raise UnboundLocalError
  end.

(** [try: body except TypeError: handler] *)
Definition try_except_TypeError {A : Type} (body handler : result A) : result A :=
  match body with
  | Raise TypeError => handler
  | other => other
  end.

(** [c[0] * ploty ** 2 + c[1] * ploty + c[2]] over [ploty = 0, ..., H-1]. *)
Definition sample (c : Q * Q * Q) (ploty : list Z) : list Q :=
  let '(c0, c1, c2) := c in
  map (fun y => c0 * (Qmake y 1 * Qmake y 1) + c1 * Qmake y 1 + c2)%Q ploty.

Record fit : Type := mk_fit {
  left_fit : Q * Q * Q;
  left_fitx : list Q;
  right_fit : Q * Q * Q;
  right_fitx : list Q;
  ploty : list Z;
  fit_avg_lane_dist : Q;
  fit_leftx_base : Z;
  fit_rightx_base : Z
}.

(** Lines 341-363: everything after the call of [find_lane_pixels]. *)
Definition fit_points (height : Z) (px : lane_pixels) : result fit :=
  let left_fit : local (Q * Q * Q) :=
    if (3 <=? length (left_points px))%nat then
      Some (polyfit (map snd (left_points px)) (map fst (left_points px)))
    else None in
  let right_fit : local (Q * Q * Q) :=
    if (3 <=? length (right_points px))%nat then
      Some (polyfit (map snd (right_points px)) (map fst (right_points px)))
    else None in
  let ploty := range height in
  ' (left_fitx, right_fitx) <-
      try_except_TypeError
        (l <- read left_fit ;;
         let left_fitx := sample l ploty in
         r <- read right_fit ;;
         let right_fitx := sample r ploty in
         OK (left_fitx, right_fitx))
        (OK (sample (1, 1, 0)%Q ploty, sample (1, 1, 0)%Q ploty)) ;;
  l <- read left_fit ;;
  r <- read right_fit ;;
  OK {| left_fit := l; left_fitx := left_fitx;
        right_fit := r; right_fitx := right_fitx;
        ploty := ploty;
        fit_avg_lane_dist := avg_lane_dist px;
        fit_leftx_base := leftx_base px;
        fit_rightx_base := rightx_base px |}.

Definition fit_polynomial (binary_warped : ndarray)
    (last_left_base last_righ_base : option Z) : result fit :=
  px <- find_lane_pixels binary_warped last_left_base last_righ_base ;;
  fit_points (shape0 binary_warped) px.

End Fit.

End Graph.

(** ** Notions used to state the properties *)

Module Spec.
Import Np Graph.

(** The pixel in row [i] and column [j]. *)
Definition pixel (bw : ndarray) (i j : nat) : Z :=
  nth j (nth i (rows bw) []) 0.

(** The histogram in the words of the specification: the sum of column [j]
    over the rows of the bottom half, [H/2 .. H-1]. *)
Definition bottom_half_sum (bw : ndarray) (j : nat) : Z :=
  let h := length (rows bw) in
  fold_right (fun i s => pixel bw i j + s) 0 (seq (h / 2) (h - h / 2)).

(** The only bright pixels of the mask form a vertical band at column [c]. *)
Definition vertical_band (bw : ndarray) (c : Z) : Prop :=
  rows bw <> [] /\
  0 <= c < shape1 bw /\
  forall r, In r (rows bw) ->
    0 < get r c /\
    forall j, 0 <= j < shape1 bw -> j <> c -> get r j = 0.

(** The input contract: a rectangular mask with [H >= nwindows] and
    [W >= 2 * margin]. *)
Definition contract (bw : ndarray) : Prop :=
  wf bw /\ nwindows <= shape0 bw /\ 2 * margin <= shape1 bw.

(** The previous bases are carried as one state: both present or both
    absent. *)
Definition paired (last_left_base last_right_base : option Z) : Prop :=
  last_left_base = None <-> last_right_base = None.

(** The drift ratio [|previous - new| / new] of the specification. *)
Definition drift_ratio (previous new : Z) : Q :=
  Qabs (inject_Z (previous - new) / inject_Z new).

(** The integer [z] as a double; exact below [2^53]. *)
Definition float_of_Z (z : Z) : float :=
  if z <? 0 then PrimFloat.opp (PrimFloat.of_uint63 (Uint63.of_Z (- z)))
  else PrimFloat.of_uint63 (Uint63.of_Z z).

(** The test of [drifted] carried out in IEEE double precision, as NumPy
    does; the constant is the double nearest to [0.1]. It serves to compare
    the rational model of the quotient with the machine arithmetic. *)
Definition drifted_binary64 (last base : Z) : bool :=
  PrimFloat.ltb 0x1.999999999999ap-4%float
    (PrimFloat.abs
       (PrimFloat.div (float_of_Z (last - base)) (float_of_Z base))).

(** The right-side check in the words of the specification: the left side's
    check applied to the right side's own previous and new values. *)
Definition validate_right_own (last_right_base : option Z) (rightx_base : Z)
    : Z :=
  validate_left last_right_base rightx_base.

(** What band [window] finds when it is entered in state [st]. *)
Definition finds (bw : ndarray) (window : Z) (st : tracker)
    : result (option Z * option Z) :=
  candidates bw
    (window_bounds bw window (leftx_current st) (rightx_current st)).

(** The bands that a run enters, each with the state it is entered in. *)
Fixpoint visited (bw : ndarray) (windows : list Z) (st : tracker)
    : list (Z * tracker) :=
  match windows with
  | [] => []
  | window :: rest =>
      (window, st) ::
      match window_step bw window st with
      | OK st' => visited bw rest st'
      | Raise _ => []
      end
  end.

(** The outcome of one side of a band, whose region starts at column [low]
    and has the column sums [hist]: a candidate is the first column of maximal
    sum; it is accepted when its sum exceeds [min_pixels] and it is not the
    low boundary. *)
Definition accepted (hist : list Z) (low : Z) (found : option Z) : Prop :=
  exists i,
    argmax hist = OK i /\
    match found with
    | Some x => x = i + low /\ min_pixels < get hist i /\ x <> low
    | None => get hist i <= min_pixels \/ i + low = low
    end.



(** The width history starts with the sample [seed], and the last known
    width is its most recent sample. *)
Definition seeded (seed : Z) (st : tracker) : Prop :=
  exists later,
    lane_dist_hist st = seed :: later /\
    prev_lane_dist st = last (lane_dist_hist st) 0.

(** The middle row of band [window]. *)
Definition band_mid_y (bw : ndarray) (window : Z) : Z :=
  let w := window_bounds bw window 0 0 in
  int_half (win_y_low w + win_y_high w).

(** The width sample of a band entered in state [st]: [right - left] when the
    band finds both sides, nothing otherwise. *)
Definition width_sample (bw : ndarray) (band : Z * tracker) : list Z :=
  match finds bw (fst band) (snd band) with
  | OK (Some lx, Some rx) => [rx - lx]
  | _ => []
  end.

(** The width samples of the bands of a run, in the order of the bands. *)
Definition recorded_widths (bw : ndarray) (bands : list (Z * tracker))
    : list Z :=
  flat_map (width_sample bw) bands.

Definition sum_of (samples : list Z) : Z := fold_left Z.add samples 0.

(** [m] is the arithmetic mean of the samples: there is at least one sample,
    and [m] times their number is their sum. *)
Definition mean_of (samples : list Z) (m : Q) : Prop :=
  samples <> [] /\
  (m * inject_Z (Z.of_nat (length samples)) == inject_Z (sum_of samples))%Q.

End Spec.

(** ** Concrete masks *)

Module Masks.
Import Np Graph.

(** A row of [width] pixels with value [v] in the columns [cols]. *)
Definition band_row (width : nat) (cols : list Z) (v : Z) : list Z :=
  map (fun j => if existsb (Z.eqb j) cols then v else 0)
      (range (Z.of_nat width)).

(** A mask with full-height bright bands in the columns [cols]. *)
Definition band_mask (height width : nat) (cols : list Z) (v : Z) : ndarray :=
  {| ncols := width; rows := repeat (band_row width cols v) height |}.

Definition black (height width : nat) : ndarray :=
  band_mask height width [] 0.

(** The rows of [upper] on top of the rows of [lower]. *)
Definition stacked (upper lower : ndarray) : ndarray :=
  {| ncols := ncols upper; rows := rows upper ++ rows lower |}.

End Masks.

(** ** The image helpers of [graph.py] *)

Module Img.
Import Np.

(** The exceptions of the tracker, and the [IndexError] of an index outside
    an axis. *)
Inductive pyexn : Set :=
| Builtin (e : exn)
| IndexError.

Inductive outcome (A : Type) : Type :=
| Done (a : A)
| Throw (e : pyexn).
Arguments Done {A} a.
Arguments Throw {A} e.

(** Three-dimensional integer array of shape
    [(length rows3, ncols3, nchan)]: rows of pixels, a pixel being the list
    of its channel values. *)
Record ndarray3 : Type := mk_ndarray3 {
  ncols3 : nat;
  nchan : nat;
  rows3 : list (list (list Z))
}.

Definition wf3 (a : ndarray3) : Prop :=
  Forall (fun r => length r = ncols3 a /\
                   Forall (fun p => length p = nchan a) r)
         (rows3 a).

(** An integer index [k] into an axis of length [n]: negative indices count
    from the end; outside [-n .. n-1] the index is an [IndexError]. *)
Definition axis_index (n : nat) (k : Z) : outcome nat :=
  if (k <? - Z.of_nat n) || (Z.of_nat n <=? k) then Throw IndexError
  else Done (Z.to_nat (if k <? 0 then k + Z.of_nat n else k)).

(** [image[:, :, k]] *)
Definition take_channel (image : ndarray3) (k : Z) : outcome ndarray :=
  match axis_index (nchan image) k with
  | Done c =>
      Done {| ncols := ncols3 image;
              rows := map (map (fun p => nth c p 0)) (rows3 image) |}
  | Throw e => Throw e
  end.

(** One pixel of [out = np.zeros_like(x); out[(x >= t[0]) & (x <= t[1])] = 1] *)
Definition mark (thresh : Z * Z) (p : Z) : Z :=
  if (fst thresh <=? p) && (p <=? snd thresh) then 1 else 0.

(** Lines 187-199; the defaults are [color_numb = 0] and
    [thresh = (0, 255)]. *)
Definition to_rgb (image : ndarray3) (color_numb : Z) (thresh : Z * Z)
    : outcome ndarray :=
  match take_channel image color_numb with
  | Done rgb =>
      Done {| ncols := ncols rgb; rows := map (map (mark thresh)) (rows rgb) |}
  | Throw e => Throw e
  end.

Definition to_rgb_default_thresh : Z * Z := (0, 255).

(** The result of [color_treshold]: one plane, or all channels. *)
Inductive mask : Type :=
| Mask2 (a : ndarray)
| Mask3 (a : ndarray3).

(** Lines 151-166; the default is [tresh = (200, 255)]. With a channel below
    [-1] neither branch assigns [rgb_binary]. *)
Definition color_treshold (image : ndarray3) (channel : Z) (tresh : Z * Z)
    : outcome mask :=
  if -1 <? channel then
    match take_channel image channel with
    | Done plane =>
        Done (Mask2 {| ncols := ncols plane;
                       rows := map (map (mark tresh)) (rows plane) |})
    | Throw e => Throw e
    end
  else if channel =? -1 then
    Done (Mask3 {| ncols3 := ncols3 image;
                   nchan := nchan image;
                   rows3 := map (map (map (mark tresh))) (rows3 image) |})
  else Throw (Builtin UnboundLocalError).

(** A value stored in an unsigned 8-bit pixel. *)
Definition uint8 (p : Z) : Z := p mod 256.

(** Lines 44-52: [image.astype(np.uint8)], stacked three times, times 255;
    the product of an 8-bit array and the integer 255 is an 8-bit array. *)
Definition to_3channel_binary (image : ndarray) : ndarray3 :=
  {| ncols3 := ncols image;
     nchan := 3;
     rows3 :=
       map (map (fun p =>
                   let int_pixel := uint8 p in
                   [uint8 (int_pixel * 255); uint8 (int_pixel * 255);
                    uint8 (int_pixel * 255)]))
           (rows image) |}.

(** Lines 332-334, for two-dimensional images: [np.concatenate(images,
    axis=1)] puts the images side by side; it needs at least one image, and
    all of the same height. *)
Definition merge_images (images : list ndarray) : result ndarray :=
  match images with
  | [] => Raise ValueError
  | first :: others =>
      if forallb (fun a => Nat.eqb (length (rows a)) (length (rows first)))
           others
      then
        OK {| ncols := fold_right (fun a n => (ncols a + n)%nat) O images;
              rows := map (fun i => concat (map (fun a => nth i (rows a) [])
                                                images))
                          (seq 0 (length (rows first))) |}
      else Raise ValueError
  end.

(** The total width of a list of images. *)
Definition widths (images : list ndarray) : nat :=
  fold_right (fun a n => (ncols a + n)%nat) O images.

(** Lines 299-310: [Graph.histogram(image)]. *)
Definition histogram (image : ndarray) : list Z :=
  let sizey := shape0 image in
  let bottom_half := slice2 (Some (sizey / 2)) None None None image in
  sum_axis0 bottom_half.

(** The sum of two masks, pixel by pixel. *)
Definition add_masks (a b : ndarray) : ndarray :=
  {| ncols := ncols a;
     rows := map (fun rr => zip_add (fst rr) (snd rr))
                 (combine (rows a) (rows b)) |}.

(** Every channel value is an 8-bit value. *)
Definition eight_bit (image : ndarray3) : Prop :=
  Forall (Forall (Forall (fun c => 0 <= c <= 255))) (rows3 image).

(** The pixel in row [i] and column [j] of a plane, and the value of channel
    [c] there in an image. *)
Definition pixel2 (a : ndarray) (i j : nat) : Z :=
  nth j (nth i (rows a) []) 0.

Definition pixel3 (a : ndarray3) (i j c : nat) : Z :=
  nth c (nth j (nth i (rows3 a) []) []) 0.

End Img.

(** ** The regions of the perspective transform *)

Module Geometry.
Import Spec.

Set Warnings "-inexact-float".

(** The six coefficients of a region, as doubles: left and right at the
    bottom, left and right at the top, top line, bottom line. *)
Record coefficients : Type := mk_coefficients {
  left_coef : float;
  right_coef : float;
  left_top_coef : float;
  right_top_coef : float;
  up_line_coef : float;
  bottom_line_coef : float
}.

(** Lines 18-30. *)
Definition LEFT_X_BOTTOM_COEF : float := 0.1428571429%float.
Definition RIGHT_X_BOTTOM_COEF : float := PrimFloat.sub 1 LEFT_X_BOTTOM_COEF.
Definition LEFT_X_TOP_COEF : float := 0.45%float.
Definition RIGHT_X_TOP_COEF : float := PrimFloat.sub 1 LEFT_X_TOP_COEF.
Definition Y_TOP_COEF : float := 0.642857142857143%float.
Definition Y_BOTTOM_COEF : float := 1%float.

Definition SOURCE_COEFFS : coefficients :=
  mk_coefficients LEFT_X_BOTTOM_COEF RIGHT_X_BOTTOM_COEF
    LEFT_X_TOP_COEF RIGHT_X_TOP_COEF Y_TOP_COEF Y_BOTTOM_COEF.

Definition DESTINATION_COEFFS : coefficients :=
  mk_coefficients 0.166666666666667%float 0.833333333333333%float
    LEFT_X_TOP_COEF RIGHT_X_TOP_COEF Y_TOP_COEF Y_BOTTOM_COEF.

(** [int(x)] for a double [x]: truncation towards zero; [None] stands for
    the exception that [int] raises on an infinity or a NaN. *)
Definition py_int (x : float) : option Z :=
  match Prim2SF x with
  | S754_zero _ => Some 0
  | S754_finite negative m e =>
      let magnitude :=
        if 0 <=? e then Z.pos m * 2 ^ e else Z.pos m / 2 ^ (- e) in
      Some (if negative then - magnitude else magnitude)
  | S754_infinity _ => None
  | S754_nan => None
  end.

(** [int(coef * size)] for an image size. *)
Definition scaled (coef : float) (size : Z) : option Z :=
  py_int (PrimFloat.mul coef (float_of_Z size)).

(** Lines 263-277; [image_shape] is [(ysize, xsize)]. The points are kept as
    integers: the array of single-precision numbers that is returned holds
    them exactly. *)
Definition destination_vertices (image_shape : Z * Z)
    : option (list (Z * Z)) :=
  let coefficients := DESTINATION_COEFFS in
  let '(ysize, xsize) := image_shape in
  match scaled (right_coef coefficients) xsize,
        scaled (bottom_line_coef coefficients) ysize,
        scaled (left_coef coefficients) xsize with
  | Some right_x, Some bottom_y, Some left_x =>
      Some [(right_x, 0); (right_x, bottom_y); (left_x, bottom_y);
            (left_x, 0)]
  | _, _, _ => None
  end.

(** Lines 279-296; without coefficients the source region is used. *)
Definition vertices (image_shape : Z * Z) (coefficients : option coefficients)
    : option (list (Z * Z)) :=
  let coefficients :=
    match coefficients with Some c => c | None => SOURCE_COEFFS end in
  let '(ysize, xsize) := image_shape in
  match scaled (right_top_coef coefficients) xsize,
        scaled (up_line_coef coefficients) ysize,
        scaled (right_coef coefficients) xsize,
        scaled (bottom_line_coef coefficients) ysize,
        scaled (left_coef coefficients) xsize,
        scaled (left_top_coef coefficients) xsize with
  | Some right_top_x, Some up_y, Some right_x, Some bottom_y, Some left_x,
    Some left_top_x =>
      Some [(right_top_x, up_y); (right_x, bottom_y); (left_x, bottom_y);
            (left_top_x, up_y)]
  | _, _, _, _, _, _ => None
  end.

(** [n * num // den], one less when the division is exact and [n] is
    positive. *)
Definition below (num den n : Z) : Z :=
  if (0 <? n) && (n * num mod den =? 0) then n * num / den - 1
  else n * num / den.

(** The points of the two regions for a width or height [n], compared with
    integer divisions. *)
Definition scaled_as_divisions (n : Z) : bool :=
  match scaled (left_coef DESTINATION_COEFFS) n,
        scaled (right_coef DESTINATION_COEFFS) n,
        scaled Y_BOTTOM_COEF n,
        scaled LEFT_X_BOTTOM_COEF n,
        scaled RIGHT_X_BOTTOM_COEF n,
        scaled LEFT_X_TOP_COEF n,
        scaled RIGHT_X_TOP_COEF n,
        scaled Y_TOP_COEF n with
  | Some dl, Some dr, Some b, Some l, Some r, Some lt, Some rt, Some up =>
      (dl =? n / 6) && (dr =? below 5 6 n) && (b =? n) &&
      (l =? n / 7) && (r =? below 6 7 n) &&
      (lt =? n * 9 / 20) && (rt =? n * 11 / 20) && (up =? n * 9 / 14)
  | _, _, _, _, _, _, _, _ => false
  end.

(** The largest image side considered. *)
Definition max_side : Z := 4096.

End Geometry.

(** ** Further conditions on masks *)

Module Conditions.
Import Np Graph.

(** Every pixel of the mask lies in [0 .. v]. *)
Definition bounded_pixels (bw : ndarray) (v : Z) : Prop :=
  Forall (Forall (fun p => 0 <= p <= v)) (rows bw).

(** Every row of the mask holds [v] in the columns [cols] and 0 in the
    other columns. *)
Definition banded (bw : ndarray) (cols : list Z) (v : Z) : Prop :=
  Forall (fun r => forall j, 0 <= j < shape1 bw ->
                     get r j = if existsb (Z.eqb j) cols then v else 0)
         (rows bw).

Definition bounded_pixelsb (bw : ndarray) (v : Z) : bool :=
  forallb (forallb (fun p => (0 <=? p) && (p <=? v))) (rows bw).

End Conditions.

(** * Properties *)

(** ** The exception monad *)

Lemma bind_OK {A B : Type} (m : result A) (k : A -> result B) (b : B) :
  bind m k = OK b -> exists a, m = OK a /\ k a = OK b.
Proof.
  destruct m as [a | e]; simpl; intro H.
  - exists a; split; [reflexivity | exact H].
  - discriminate H.
Qed.

Lemma bind_Raise {A B : Type} (m : result A) (k : A -> result B) (e : exn) :
  m = Raise e -> bind m k = Raise e.
Proof. intros ->; reflexivity. Qed.

(** Splits a successful sequence of binds into its successful steps. *)
Ltac bind_inv H :=
  let a := fresh "v" in
  let Ha := fresh "E" in
  apply bind_OK in H; destruct H as (a & Ha & H).

(** ** Facts about the NumPy primitives *)

Module NpFacts.
Import Np.

Section FirstMax.

Lemma first_max_bound (t : list Z) :
  forall x, (fst (first_max x t) < S (length t))%nat.
Proof.
  induction t as [| y t IH]; intro x; simpl.
  - lia.
  - specialize (IH y). destruct (first_max y t) as [i v]; simpl in IH.
    destruct (x <? v); simpl; lia.
Qed.

Lemma first_max_nth (t : list Z) :
  forall x, nth (fst (first_max x t)) (x :: t) 0 = snd (first_max x t).
Proof.
  induction t as [| y t IH]; intro x.
  - reflexivity.
  - specialize (IH y). cbn [first_max].
    destruct (first_max y t) as [i v]; cbn [fst snd] in IH.
    destruct (x <? v); cbn [fst snd]; [exact IH | reflexivity].
Qed.

Lemma first_max_upper (t : list Z) :
  forall x y, In y (x :: t) -> y <= snd (first_max x t).
Proof.
  induction t as [| z t IH]; intros x y Hin.
  - destruct Hin as [<- | []]. simpl. lia.
  - cbn [first_max]. pose proof (IH z) as IHz.
    destruct (first_max z t) as [i v]; cbn [snd] in IHz.
    destruct (Z.ltb_spec x v); cbn [snd];
      (destruct Hin as [<- | Hin]; [lia | specialize (IHz y Hin); lia]).
Qed.

Lemma first_max_strict (t : list Z) :
  forall x j, (j < fst (first_max x t))%nat ->
              nth j (x :: t) 0 < snd (first_max x t).
Proof.
  induction t as [| z t IH]; intros x j Hj.
  - simpl in Hj. lia.
  - cbn [first_max] in *. pose proof (IH z) as IHz.
    destruct (first_max z t) as [i v]; cbn [fst snd] in IHz.
    destruct (Z.ltb_spec x v); cbn [fst snd] in *.
    + destruct j as [| j]; [exact H |].
      apply IHz. lia.
    + lia.
Qed.

End FirstMax.

(** [argmax] and [amax] fail on the empty array only. *)
Lemma amax_returns (l : list Z) : l <> [] -> exists m, amax l = OK m.
Proof. destruct l; [congruence | intros _; eexists; reflexivity]. Qed.

Lemma argmax_returns (l : list Z) : l <> [] -> exists i, argmax l = OK i.
Proof. destruct l; [congruence | intros _; eexists; reflexivity]. Qed.

Lemma amax_empty : amax [] = Raise ValueError.
Proof. reflexivity. Qed.

(** The index returned by [argmax] is in range, holds the maximum, and is the
    first one to do so. *)
Lemma argmax_spec (l : list Z) (i : Z) :
  argmax l = OK i ->
  0 <= i < Z.of_nat (length l) /\
  amax l = OK (get l i) /\
  (forall j, 0 <= j < Z.of_nat (length l) -> get l j <= get l i) /\
  (forall j, 0 <= j < i -> get l j < get l i).
Proof.
  destruct l as [| x t]; [discriminate |].
  intro H; injection H as <-.
  pose proof (first_max_bound t x) as Hb.
  pose proof (first_max_nth t x) as Hn.
  unfold get. rewrite Nat2Z.id, Hn.
  repeat split.
  - lia.
  - cbn [length]. lia.
  - intros j Hj. apply first_max_upper, nth_In.
    cbn [length] in *. lia.
  - intros j Hj. apply first_max_strict. lia.
Qed.

Lemma amax_argmax (l : list Z) (m : Z) :
  amax l = OK m -> exists i, argmax l = OK i /\ get l i = m.
Proof.
  intro H. destruct (argmax_returns l) as [i Hi].
  - intros ->; discriminate H.
  - exists i; split; [exact Hi |].
    apply argmax_spec in Hi. destruct Hi as (_ & Hm & _). congruence.
Qed.

(** A position that holds a value strictly above all others is the argmax. *)
Lemma argmax_unique_peak (l : list Z) (c : Z) :
  0 <= c < Z.of_nat (length l) ->
  (forall j, 0 <= j < Z.of_nat (length l) -> j <> c -> get l j < get l c) ->
  argmax l = OK c.
Proof.
  intros Hc Hpeak.
  destruct (argmax_returns l) as [i Hi].
  - intros ->; simpl in Hc; lia.
  - rewrite Hi. f_equal.
    apply argmax_spec in Hi. destruct Hi as (Hr & _ & Hmax & _).
    destruct (Z.eq_dec i c) as [-> | Hne]; [reflexivity |].
    specialize (Hpeak i Hr Hne). specialize (Hmax c Hc). lia.
Qed.

(** *** Slices *)

Lemma norm_bound_range (n i : Z) : 0 <= n -> 0 <= norm_bound n i <= n.
Proof. unfold norm_bound. destruct (Z.ltb_spec i 0); lia. Qed.

Lemma norm_bound_inside (n i : Z) : 0 <= i <= n -> norm_bound n i = i.
Proof. unfold norm_bound. destruct (Z.ltb_spec i 0); lia. Qed.

Lemma slice_start_range (n : Z) (lo : option Z) :
  0 <= n -> 0 <= slice_start n lo <= n.
Proof. destruct lo; simpl; [apply norm_bound_range | lia]. Qed.

Lemma slice_stop_range (n : Z) (hi : option Z) :
  0 <= n -> 0 <= slice_stop n hi <= n.
Proof. destruct hi; simpl; [apply norm_bound_range | lia]. Qed.

Lemma slice_length {A : Type} (lo hi : option Z) (l : list A) :
  length (slice lo hi l) =
  Z.to_nat (slice_stop (Z.of_nat (length l)) hi
            - slice_start (Z.of_nat (length l)) lo).
Proof.
  unfold slice. rewrite length_firstn, length_skipn.
  pose proof (slice_start_range (Z.of_nat (length l)) lo).
  pose proof (slice_stop_range (Z.of_nat (length l)) hi).
  lia.
Qed.

Lemma slice_nth {A : Type} (lo hi : option Z) (l : list A) (j : nat) (d : A) :
  (j < length (slice lo hi l))%nat ->
  nth j (slice lo hi l) d =
  nth (Z.to_nat (slice_start (Z.of_nat (length l)) lo) + j) l d.
Proof.
  intro Hj. rewrite slice_length in Hj. unfold slice.
  rewrite nth_firstn, nth_skipn.
  destruct (Nat.ltb_spec j
    (Z.to_nat (slice_stop (Z.of_nat (length l)) hi
               - slice_start (Z.of_nat (length l)) lo))); [reflexivity | lia].
Qed.

Lemma slice_all {A : Type} (l : list A) : slice None None l = l.
Proof.
  unfold slice; simpl. rewrite Z.sub_0_r, Nat2Z.id. apply firstn_all.
Qed.

Lemma In_firstn {A : Type} (n : nat) (l : list A) (x : A) :
  In x (firstn n l) -> In x l.
Proof.
  revert l; induction n as [| n IH]; intros [| y l]; simpl; try tauto.
  intros [-> | H]; [now left | right; auto].
Qed.

Lemma In_skipn {A : Type} (n : nat) (l : list A) (x : A) :
  In x (skipn n l) -> In x l.
Proof.
  revert l; induction n as [| n IH]; intros [| y l]; simpl; try tauto.
  intro H; right; auto.
Qed.

Lemma In_slice {A : Type} (lo hi : option Z) (l : list A) (x : A) :
  In x (slice lo hi l) -> In x l.
Proof. unfold slice. intro H. eapply In_skipn, In_firstn, H. Qed.

(** An empty range of columns or rows, as for [a[5:5]]. *)
Lemma slice_empty {A : Type} (lo hi : option Z) (l : list A) :
  slice_stop (Z.of_nat (length l)) hi <= slice_start (Z.of_nat (length l)) lo ->
  slice lo hi l = [].
Proof.
  intro H. apply length_zero_iff_nil. rewrite slice_length. lia.
Qed.

(** *** Column sums *)

Lemma zip_add_length (r acc : list Z) :
  length r = length acc -> length (zip_add r acc) = length acc.
Proof.
  revert acc; induction r as [| x r IH]; intros [| y acc]; simpl; try lia.
  intro H. rewrite IH; lia.
Qed.

Lemma zip_add_nth (r acc : list Z) (j : nat) :
  length r = length acc ->
  nth j (zip_add r acc) 0 = nth j r 0 + nth j acc 0.
Proof.
  revert acc j; induction r as [| x r IH]; intros [| y acc] j; simpl;
    try discriminate.
  - intros _. destruct j; reflexivity.
  - intro H. destruct j as [| j]; [reflexivity | apply IH; lia].
Qed.

Lemma sum_rows_length (w : nat) (rs : list (list Z)) :
  Forall (fun r => length r = w) rs ->
  length (fold_right zip_add (repeat 0 w) rs) = w.
Proof.
  induction 1 as [| r rs Hr _ IH]; simpl.
  - apply repeat_length.
  - rewrite zip_add_length; lia.
Qed.

Lemma sum_rows_nth (w : nat) (rs : list (list Z)) (j : nat) :
  Forall (fun r => length r = w) rs ->
  nth j (fold_right zip_add (repeat 0 w) rs) 0 = column_total j rs.
Proof.
  induction 1 as [| r rs Hr Hrs IH]; simpl.
  - apply nth_repeat.
  - rewrite zip_add_nth, IH; [reflexivity |].
    rewrite sum_rows_length; assumption.
Qed.

Lemma sum_axis0_length (a : ndarray) :
  wf a -> length (sum_axis0 a) = ncols a.
Proof. apply sum_rows_length. Qed.

Lemma sum_axis0_nth (a : ndarray) (j : nat) :
  wf a -> nth j (sum_axis0 a) 0 = column_total j (rows a).
Proof. apply sum_rows_nth. Qed.

Lemma slice2_wf (ylo yhi xlo xhi : option Z) (a : ndarray) :
  wf a -> wf (slice2 ylo yhi xlo xhi a).
Proof.
  unfold wf, slice2; cbn [ncols rows]. intro H.
  rewrite Forall_map, Forall_forall. intros r Hr.
  apply In_slice in Hr. rewrite Forall_forall in H.
  rewrite slice_length, (H r Hr). reflexivity.
Qed.

(** The column sums of a region without columns form an empty array, whatever
    its number of rows. *)
Lemma sum_axis0_no_columns (a : ndarray) :
  wf a -> ncols a = O -> sum_axis0 a = [].
Proof.
  intros Hwf H0. apply length_zero_iff_nil.
  rewrite sum_axis0_length; assumption.
Qed.

End NpFacts.

(** ** Validation of the bases *)

Module BaseFacts.
Import Np NpFacts Graph Spec Masks.

(** With a zero divisor the test sees an infinity, or a NaN when the previous
    base is zero as well. *)
Lemma drifted_zero (last : Z) : drifted last 0 = negb (last =? 0).
Proof.
  unfold drifted, true_divide. rewrite Z.sub_0_r. simpl.
  destruct (last =? 0); reflexivity.
Qed.

(** Away from zero the test is the comparison of the drift ratio with 1/10. *)
Lemma drifted_ratio (last base : Z) :
  base <> 0 ->
  drifted last base = true <-> (1 # 10 < drift_ratio last base)%Q.
Proof.
  intro Hb. unfold drifted, true_divide, drift_ratio, inject_Z.
  destruct (Z.eqb_spec base 0) as [| _]; [contradiction |].
  cbn [absolute gt]. unfold Qltb.
  rewrite negb_true_iff, <- not_true_iff_false, Qle_bool_iff.
  split; [apply Qnot_le_lt | apply Qlt_not_le].
Qed.

(** The same test on integers, for a positive new base. *)
Lemma drift_ratio_integers (last base : Z) :
  0 < base ->
  (1 # 10 < drift_ratio last base)%Q <-> base < 10 * Z.abs (last - base).
Proof.
  intro Hb. unfold drift_ratio, inject_Z.
  destruct base as [| p | p]; try lia.
  unfold Qdiv, Qinv, Qmult, Qabs, Qlt; simpl Qnum; simpl Qden.
  rewrite Z.mul_1_r. lia.
Qed.

(** The rational model decides as double precision does: on every pair of a
    previous and a new base below 120, zero divisors included, and, for every
    new base of a mask up to 1280 columns wide, on the previous bases around
    the two places where the ratio crosses 1/10. *)
Example drifted_as_in_binary64 :
  forallb
    (fun base =>
       forallb
         (fun last => Bool.eqb (drifted last base) (drifted_binary64 last base))
         (range 120))
    (range 120)
  = true.
Proof. vm_compute. reflexivity. Qed.

Example drifted_as_in_binary64_at_the_threshold :
  forallb
    (fun base =>
       forallb
         (fun d =>
            Bool.eqb (drifted (base - base / 10 + d) base)
                     (drifted_binary64 (base - base / 10 + d) base)
            && Bool.eqb (drifted (base + base / 10 + d) base)
                        (drifted_binary64 (base + base / 10 + d) base))
         [-2; -1; 0; 1; 2])
    (range 1280)
  = true.
Proof. vm_compute. reflexivity. Qed.

Lemma validate_right_paired (ll lr : option Z) (nr : Z) :
  (lr <> None -> ll <> None) -> returns (validate_right ll lr nr).
Proof.
  intro H. unfold validate_right, returns.
  destruct lr as [r |]; [| eexists; reflexivity].
  destruct ll as [l |]; [eexists; reflexivity |].
  exfalso. apply H; congruence.
Qed.

(** The left slice of the histogram is searched first, so a pair of peaks
    exists only for a histogram of two columns or more, and then the right
    base is at least the midpoint. *)
Lemma peaks_right_positive (bw : ndarray) (nl nr : Z) :
  peaks bw = OK (nl, nr) ->
  0 <= nl /\ 1 <= midpoint_of (histogram bw) <= nr.
Proof.
  unfold peaks. intro H. bind_inv H. bind_inv H. injection H as <- <-.
  apply argmax_spec in E. destruct E as (Hl & _).
  apply argmax_spec in E0. destruct E0 as (Hr & _).
  rewrite slice_length in Hl. cbn [slice_start slice_stop] in Hl.
  pose proof (norm_bound_range (Z.of_nat (length (histogram bw)))
                (midpoint_of (histogram bw)) (Nat2Z.is_nonneg _)) as Hn.
  assert (0 <= midpoint_of (histogram bw)) as Hm
    by (unfold midpoint_of; apply Z.div_pos; lia).
  unfold norm_bound in *.
  destruct (Z.ltb_spec (midpoint_of (histogram bw)) 0); lia.
Qed.

Lemma find_lane_pixels_bases (bw : ndarray) (ll lr : option Z)
    (px : lane_pixels) :
  find_lane_pixels bw ll lr = OK px ->
  locate_bases bw ll lr = OK (leftx_base px, rightx_base px).
Proof.
  unfold find_lane_pixels. intro H. bind_inv H.
  destruct v as [lb rb]. bind_inv H. injection H as <-. exact E.
Qed.

Lemma locate_bases_unfold (bw : ndarray) (ll lr : option Z) (nl nr : Z) :
  peaks bw = OK (nl, nr) ->
  locate_bases bw ll lr =
  (rb <- validate_right ll lr nr ;; OK (validate_left ll nl, rb)).
Proof. unfold locate_bases. intros ->. reflexivity. Qed.

(** C4. For every mask whose left histogram peak [newLeft] is not column 0 and
    every positive previous left base, the validated left base is the previous
    one when [|previousLeft - newLeft| / newLeft > 0.10] and the new one
    otherwise; it is what [find_lane_pixels] returns. With [previousLeft = 100]
    a peak at 130 gives 100 and a peak at 105 gives 105. *)
Theorem left_base_drift_guard (bw : ndarray) (previousLeft : Z)
    (last_right_base : option Z) (newLeft newRight : Z) :
  peaks bw = OK (newLeft, newRight) ->
  0 < previousLeft ->
  newLeft <> 0 ->
  exists leftBase rightBase,
    locate_bases bw (Some previousLeft) last_right_base
      = OK (leftBase, rightBase) /\
    ((1 # 10 < drift_ratio previousLeft newLeft)%Q ->
       leftBase = previousLeft) /\
    (~ (1 # 10 < drift_ratio previousLeft newLeft)%Q ->
       leftBase = newLeft) /\
    (previousLeft = 100 -> newLeft = 130 -> leftBase = 100) /\
    (previousLeft = 100 -> newLeft = 105 -> leftBase = 105) /\
    (forall px,
       find_lane_pixels bw (Some previousLeft) last_right_base = OK px ->
       leftx_base px = leftBase).
Proof.
  intros Hpeaks Hprev Hnew.
  destruct (validate_right_paired (Some previousLeft) last_right_base newRight)
    as [rb Hrb]; [discriminate |].
  exists (validate_left (Some previousLeft) newLeft), rb.
  assert (locate_bases bw (Some previousLeft) last_right_base
          = OK (validate_left (Some previousLeft) newLeft, rb)) as Hloc.
  { rewrite (locate_bases_unfold _ _ _ _ _ Hpeaks), Hrb. reflexivity. }
  split; [exact Hloc |].
  cbn [validate_left].
  pose proof (drifted_ratio previousLeft newLeft Hnew) as Hd.
  repeat split.
  - intro Hr. apply Hd in Hr. rewrite Hr. reflexivity.
  - intro Hr. destruct (drifted previousLeft newLeft) eqn:E; [| reflexivity].
    exfalso. apply Hr, Hd. reflexivity.
  - intros -> ->. reflexivity.
  - intros -> ->. reflexivity.
  - intros px Hpx. apply find_lane_pixels_bases in Hpx.
    rewrite Hloc in Hpx. injection Hpx as -> _. reflexivity.
Qed.

Lemma left_base_drift_guard_witness :
  exists leftBase rightBase,
    locate_bases (band_mask 15 300 [130; 200] 255) (Some 100) (Some 200)
      = OK (leftBase, rightBase) /\
    ((1 # 10 < drift_ratio 100 130)%Q -> leftBase = 100) /\
    (~ (1 # 10 < drift_ratio 100 130)%Q -> leftBase = 130) /\
    (100 = 100 -> 130 = 130 -> leftBase = 100) /\
    (100 = 100 -> 130 = 105 -> leftBase = 105) /\
    (forall px,
       find_lane_pixels (band_mask 15 300 [130; 200] 255) (Some 100) (Some 200)
         = OK px ->
       leftx_base px = leftBase).
Proof.
  apply (left_base_drift_guard
           (band_mask 15 300 [130; 200] 255) 100 (Some 200) 130 200).
  - vm_compute. reflexivity.
  - lia.
  - lia.
Defined.

(** The two masks of the drift-clamp scenario, run through the whole
    function. *)
Example drift_clamp_130 :
  locate_bases (band_mask 15 300 [130; 200] 255) (Some 100) (Some 200)
  = OK (100, 200).
Proof. vm_compute. reflexivity. Qed.

Example drift_clamp_105 :
  locate_bases (band_mask 15 300 [105; 200] 255) (Some 100) (Some 200)
  = OK (105, 200).
Proof. vm_compute. reflexivity. Qed.

(** C7. For every mask and every previous state, a left histogram peak at
    column 0 does not stop the validation and leaves nothing to adjust: the
    previous left base is kept when there is one, and 0 is accepted when there
    is none. The new right base is never 0, so its ratio is always defined. *)
Theorem zero_peak_no_adjustment (bw : ndarray)
    (last_left_base last_right_base : option Z) (newLeft newRight : Z) :
  peaks bw = OK (newLeft, newRight) ->
  paired last_left_base last_right_base ->
  newLeft = 0 ->
  newRight <> 0 /\
  exists rightBase,
    locate_bases bw last_left_base last_right_base
    = OK (match last_left_base with Some previous => previous | None => 0 end,
          rightBase).
Proof.
  intros Hpeaks Hpair ->.
  split.
  - apply peaks_right_positive in Hpeaks. lia.
  - destruct (validate_right_paired last_left_base last_right_base newRight)
      as [rb Hrb].
    { intros Hr Hl. apply Hr, Hpair, Hl. }
    exists rb.
    rewrite (locate_bases_unfold _ _ _ _ _ Hpeaks), Hrb. cbn [bind].
    do 2 f_equal.
    destruct last_left_base as [previous |]; cbn [validate_left];
      [| reflexivity].
    rewrite drifted_zero.
    destruct (Z.eqb_spec previous 0) as [-> |]; reflexivity.
Qed.

Lemma zero_peak_no_adjustment_witness :
  200 <> 0 /\
  exists rightBase,
    locate_bases (band_mask 15 400 [200] 255) (Some 120) (Some 210)
    = OK (120, rightBase).
Proof.
  apply (zero_peak_no_adjustment
           (band_mask 15 400 [200] 255) (Some 120) (Some 210) 0 200).
  - vm_compute. reflexivity.
  - split; discriminate.
  - reflexivity.
Defined.

(** A zero previous base meets a zero peak: the ratio is a NaN, the test is
    false, and the base stays 0. *)
Example zero_peak_zero_previous :
  locate_bases (black 15 400) (Some 0) (Some 200) = OK (0, 200).
Proof. vm_compute. reflexivity. Qed.

Example zero_peak_first_frame :
  locate_bases (black 15 400) None None = OK (0, 200).
Proof. vm_compute. reflexivity. Qed.

(** C1, at a failing input. The mask has its peaks at columns 40 and 150 and
    the previous bases are 40 and 145. The right side drifted by 5/150, which
    is below 0.10, so the check of the right side against its own previous
    value keeps the new base 150. The code takes the difference from the
    previous left base, finds 110/150, and returns the previous right base
    145. In the other direction, with previous bases 140 and 199 the right
    side drifted by 49/150 and the code keeps the new base 150 all the
    same. *)
Theorem right_base_checked_against_left :
  let bw := band_mask 15 200 [40; 150] 255 in
  peaks bw = OK (40, 150) /\
  validate_right_own (Some 145) 150 = 150 /\
  locate_bases bw (Some 40) (Some 145) = OK (40, 145) /\
  (exists px, find_lane_pixels bw (Some 40) (Some 145) = OK px /\
              rightx_base px = 145) /\
  validate_right_own (Some 199) 150 = 199 /\
  locate_bases bw (Some 140) (Some 199) = OK (140, 150).
Proof.
  cbv zeta. repeat split; try (vm_compute; reflexivity).
  destruct (find_lane_pixels (band_mask 15 200 [40; 150] 255)
              (Some 40) (Some 145)) as [px | e] eqn:E.
  - exists px. split; [reflexivity |].
    apply find_lane_pixels_bases in E.
    assert (locate_bases (band_mask 15 200 [40; 150] 255) (Some 40) (Some 145)
            = OK (40, 145)) as H by (vm_compute; reflexivity).
    rewrite H in E. injection E as _ <-. reflexivity.
  - exfalso. revert E. vm_compute. discriminate.
Qed.

(** Only a previous right base: the difference [None - rightx_base] is a
    [TypeError]. *)
Example right_check_without_left :
  locate_bases (band_mask 15 200 [40; 150] 255) None (Some 145)
  = Raise TypeError.
Proof. vm_compute. reflexivity. Qed.

End BaseFacts.

(** ** The sliding-window search *)

Module TrackerFacts.
Import Np NpFacts Graph Spec Masks.

(** *** One side of one band *)

Lemma detect_accepted (hist : list Z) (low : Z) (x_index : option Z) :
  detect hist low = OK x_index ->
  accepted hist low (reject_low x_index low).
Proof.
  unfold detect. intro H. bind_inv H.
  destruct (amax_argmax _ _ E) as (i & Hi & Hget).
  exists i. split; [exact Hi |].
  destruct (Z.ltb_spec min_pixels v) as [Hgt | Hle].
  - rewrite Hi in H. injection H as <-. cbn [bind reject_low].
    destruct (Z.eqb_spec (i + low) low) as [Heq | Hne].
    + right. exact Heq.
    + repeat split; [lia | exact Hne].
  - injection H as <-. left. cbn [reject_low]. lia.
Qed.

Lemma detect_raises (hist : list Z) (low : Z) (e : exn) :
  detect hist low = Raise e -> hist = [] /\ e = ValueError.
Proof.
  unfold detect. destruct hist as [| x t].
  - simpl. intro H. injection H as <-. auto.
  - cbn [amax argmax bind]. destruct (min_pixels <? _); discriminate.
Qed.

Lemma detect_empty (low : Z) : detect [] low = Raise ValueError.
Proof. reflexivity. Qed.

(** *** One band *)

Lemma window_step_finds (bw : ndarray) (window : Z) (st st' : tracker) :
  window_step bw window st = OK st' ->
  exists l r,
    finds bw window st = OK (l, r) /\
    st' = recenter
            (window_bounds bw window (leftx_current st) (rightx_current st))
            l r st.
Proof.
  unfold window_step, finds. intro H. bind_inv H.
  destruct v as [l r]. injection H as <-.
  exists l, r. split; [exact E | reflexivity].
Qed.

Lemma finds_window_step (bw : ndarray) (window : Z) (st : tracker)
    (l r : option Z) :
  finds bw window st = OK (l, r) ->
  window_step bw window st
  = OK (recenter
          (window_bounds bw window (leftx_current st) (rightx_current st))
          l r st).
Proof. unfold window_step, finds. intros ->. reflexivity. Qed.


Lemma recenter_points (w : window_box) (l r : option Z) (st : tracker) :
  let st' := recenter w l r st in
  let y := int_half (win_y_low w + win_y_high w) in
  left_lane_points st' = left_lane_points st ++ [(leftx_current st', y)] /\
  right_lane_points st' = right_lane_points st ++ [(rightx_current st', y)].
Proof.
  unfold recenter.
  destruct l as [lx |], r as [rx |]; cbn; auto.
Qed.


(** The band's rows do not depend on the current positions. *)
Lemma window_bounds_rows (bw : ndarray) (window lc rc : Z) :
  let w := window_bounds bw window lc rc in
  int_half (win_y_low w + win_y_high w) = band_mid_y bw window.
Proof. reflexivity. Qed.

(** The two clamps of the code: the left window and the band never start
    below 0. *)
Lemma left_and_row_edges_clamped (bw : ndarray) (window lc rc : Z) :
  let w := window_bounds bw window lc rc in
  0 <= win_xleft_low w /\ 0 <= win_y_low w.
Proof.
  unfold window_bounds; cbn [win_xleft_low win_y_low].
  split.
  - destruct (Z.ltb_spec (lc - margin) 0); lia.
  - destruct (Z.ltb_spec
                (shape0 bw - (window + 1) * window_height bw) 0); lia.
Qed.

(** The right window starts where the code puts it, below 0 or not. *)
Lemma right_low_edge (bw : ndarray) (window lc rc : Z) :
  win_xright_low (window_bounds bw window lc rc) = rc - margin.
Proof. reflexivity. Qed.

(** C5. In every band and for each side on its own, the candidate is the
    first column of maximal sum in the side's region; it is accepted only if
    that sum is strictly above [min_pixels = 2550] and the column is not the
    low boundary of the region, and the side counts as not found otherwise. *)
Theorem candidate_acceptance (bw : ndarray) (window : Z) (st : tracker)
    (l r : option Z) :
  finds bw window st = OK (l, r) ->
  let w := window_bounds bw window (leftx_current st) (rightx_current st) in
  min_pixels = 2550 /\
  accepted
    (area_hist bw (win_y_low w) (win_y_high w)
       (win_xleft_low w) (win_xleft_high w))
    (win_xleft_low w) l /\
  accepted
    (area_hist bw (win_y_low w) (win_y_high w)
       (win_xright_low w) (win_xright_high w))
    (win_xright_low w) r.
Proof.
  intros H w. unfold finds, candidates in H.
  fold w in H. bind_inv H. bind_inv H. injection H as <- <-.
  split; [reflexivity |].
  split; apply detect_accepted; assumption.
Qed.

Lemma candidate_acceptance_witness :
  let bw := band_mask 180 400 [50] 255 in
  let w := window_bounds bw 0 50 200 in
  min_pixels = 2550 /\
  accepted
    (area_hist bw (win_y_low w) (win_y_high w)
       (win_xleft_low w) (win_xleft_high w))
    (win_xleft_low w) (Some 50) /\
  accepted
    (area_hist bw (win_y_low w) (win_y_high w)
       (win_xright_low w) (win_xright_high w))
    (win_xright_low w) None.
Proof.
  apply (candidate_acceptance
           (band_mask 180 400 [50] 255) 0 (init_tracker 50 200)
           (Some 50) None).
  vm_compute. reflexivity.
Defined.

(** A column of ten lit pixels has mass 2550 exactly and is not accepted;
    eleven are. *)
Example ten_pixels_not_enough :
  finds (band_mask 150 400 [50; 300] 255) 0 (init_tracker 50 300)
  = OK (None, None).
Proof. vm_compute. reflexivity. Qed.

Example eleven_pixels_enough :
  finds (band_mask 165 400 [50; 300] 255) 0 (init_tracker 50 300)
  = OK (Some 50, Some 300).
Proof. vm_compute. reflexivity. Qed.

(** A lit column on the low boundary of its window is not accepted. *)
Example low_boundary_rejected :
  finds (band_mask 165 400 [50; 300] 255) 0 (init_tracker 150 400)
  = OK (None, None).
Proof. vm_compute. reflexivity. Qed.

(** *** Runs of bands *)

Lemma visited_steps (bw : ndarray) (windows : list Z) :
  forall st st',
    run_windows bw windows st = OK st' ->
    forall window s, In (window, s) (visited bw windows st) ->
    exists s', window_step bw window s = OK s'.
Proof.
  induction windows as [| w rest IH]; intros st st' Hrun window s Hin.
  - destruct Hin.
  - cbn [run_windows] in Hrun. bind_inv Hrun.
    cbn [visited] in Hin. rewrite E in Hin.
    destruct Hin as [Heq | Hin].
    + injection Heq as <- <-. exists v. exact E.
    + eapply IH; eassumption.
Qed.

(** A property of the state that every band preserves holds whenever a band
    is entered, and at the end of the run. *)
Section Invariant.

Variable bw : ndarray.
Variable P : tracker -> Prop.
Hypothesis P_step : forall w l r st, P st -> P (recenter w l r st).

Lemma visited_invariant (windows : list Z) :
  forall st, P st ->
  forall window s, In (window, s) (visited bw windows st) -> P s.
Proof.
  induction windows as [| w rest IH]; intros st Hst window s Hin.
  - destruct Hin.
  - cbn [visited] in Hin. destruct Hin as [Heq | Hin].
    + injection Heq as <- <-. exact Hst.
    + destruct (window_step bw w st) as [st1 | e] eqn:E; [| destruct Hin].
      apply window_step_finds in E. destruct E as (l & r & _ & ->).
      eapply IH; [| exact Hin]. apply P_step, Hst.
Qed.

Lemma run_windows_invariant (windows : list Z) :
  forall st st', P st -> run_windows bw windows st = OK st' -> P st'.
Proof.
  induction windows as [| w rest IH]; intros st st' Hst Hrun.
  - injection Hrun as <-. exact Hst.
  - cbn [run_windows] in Hrun. bind_inv Hrun.
    apply window_step_finds in E. destruct E as (l & r & _ & ->).
    eapply IH; [| exact Hrun]. apply P_step, Hst.
Qed.

End Invariant.

Lemma recenter_seeded (seed : Z) (w : window_box) (l r : option Z)
    (st : tracker) :
  seeded seed st -> seeded seed (recenter w l r st).
Proof.
  intros (later & Hh & Hp). unfold seeded, recenter.
  destruct l as [lx |], r as [rx |]; cbn;
    try (exists later; split; assumption).
  exists (later ++ [rx - lx]). rewrite Hh. split; [reflexivity |].
  rewrite last_last. reflexivity.
Qed.

Lemma init_tracker_seeded (lb rb : Z) : seeded (rb - lb) (init_tracker lb rb).
Proof. exists []. split; reflexivity. Qed.

(** One point per band and per side, in the order of the bands, each in the
    middle row of its band. *)
Lemma run_windows_points (bw : ndarray) (windows : list Z) :
  forall st st',
    run_windows bw windows st = OK st' ->
    exists newl newr,
      left_lane_points st' = left_lane_points st ++ newl /\
      right_lane_points st' = right_lane_points st ++ newr /\
      map snd newl = map (band_mid_y bw) windows /\
      map snd newr = map (band_mid_y bw) windows.
Proof.
  induction windows as [| w rest IH]; intros st st' Hrun.
  - injection Hrun as <-. exists [], []. rewrite !app_nil_r. auto.
  - cbn [run_windows] in Hrun. bind_inv Hrun.
    apply window_step_finds in E. destruct E as (l & r & _ & ->).
    destruct (IH _ _ Hrun) as (newl & newr & Hl & Hr & Hyl & Hyr).
    pose proof (recenter_points
                  (window_bounds bw w (leftx_current st) (rightx_current st))
                  l r st) as [Hpl Hpr].
    cbv zeta in Hpl, Hpr. rewrite window_bounds_rows in Hpl, Hpr.
    rewrite Hpl in Hl. rewrite Hpr in Hr.
    rewrite <- app_assoc in Hl, Hr.
    eexists; eexists. split; [exact Hl |]. split; [exact Hr |].
    cbn [map app snd]. rewrite Hyl, Hyr. auto.
Qed.


(** A run in which no band finds both sides records no new width. *)
Lemma no_pair_run (bw : ndarray) (windows : list Z) :
  forall st st',
    run_windows bw windows st = OK st' ->
    (forall window s lx rx, In (window, s) (visited bw windows st) ->
       finds bw window s <> OK (Some lx, Some rx)) ->
    lane_dist_hist st' = lane_dist_hist st.
Proof.
  induction windows as [| w rest IH]; intros st st' Hrun Hno.
  - injection Hrun as <-. reflexivity.
  - cbn [run_windows] in Hrun. bind_inv Hrun.
    cbn [visited] in Hno. rewrite E in Hno.
    apply window_step_finds in E. destruct E as (l & r & Hf & ->).
    rewrite (IH _ _ Hrun).
    + destruct l as [lx |], r as [rx |]; try reflexivity.
      exfalso. exact (Hno w st lx rx (or_introl eq_refl) Hf).
    + intros window s lx rx Hin. apply Hno. right. exact Hin.
Qed.

Lemma find_lane_pixels_run (bw : ndarray) (ll lr : option Z)
    (px : lane_pixels) :
  find_lane_pixels bw ll lr = OK px ->
  exists st,
    run_windows bw (range nwindows)
      (init_tracker (leftx_base px) (rightx_base px)) = OK st /\
    left_points px = left_lane_points st /\
    right_points px = right_lane_points st /\
    avg_lane_dist px = average (lane_dist_hist st).
Proof.
  unfold find_lane_pixels. intro H. bind_inv H.
  destruct v as [lb rb]. bind_inv H. injection H as <-.
  exists v. cbn. auto.
Qed.



(** The mask of the gap-filling scenario: a lit column on the left and an
    empty right half. Every band finds the left side only, and the right
    points are 150 columns to the right of the left ones. *)
Example gap_filling_run :
  let bw := band_mask 180 400 [50] 255 in
  map (fun ws => finds bw (fst ws) (snd ws))
    (visited bw (range nwindows) (init_tracker 50 200))
  = repeat (OK (Some 50, None)) 15 /\
  exists px,
    find_lane_pixels bw None None = OK px /\
    map fst (left_points px) = repeat 50 15 /\
    map fst (right_points px) = repeat 200 15.
Proof.
  cbv zeta. split.
  - vm_compute. reflexivity.
  - destruct (find_lane_pixels (band_mask 180 400 [50] 255) None None)
      as [px |] eqn:E.
    + exists px. split; [reflexivity |].
      revert E. vm_compute. intro E. injection E as <-. split; reflexivity.
    + exfalso. revert E. vm_compute. discriminate.
Qed.

(** The mean of a non-empty list, times its length, is its sum. *)
Lemma average_mean (l : list Z) :
  l <> [] ->
  (average l * inject_Z (Z.of_nat (length l)) == inject_Z (total l))%Q.
Proof.
  intro Hne. unfold average, inject_Z.
  rewrite Qmult_comm. apply Qmult_div_r.
  unfold Qeq; cbn [Qnum Qden]. destruct l; [congruence | cbn [length]; lia].
Qed.

Lemma average_single (x : Z) : (average [x] == inject_Z x)%Q.
Proof.
  unfold average, total, inject_Z, Qeq, Qdiv, Qmult, Qinv; simpl. lia.
Qed.

Lemma sum_of_total (l : list Z) : sum_of l = total l.
Proof.
  unfold sum_of, total.
  assert (forall a, fold_left Z.add l a = a + fold_right Z.add 0 l) as H.
  { induction l as [| x l IH]; intro a; cbn [fold_left fold_right]; [lia |].
    rewrite IH. lia. }
  rewrite H. lia.
Qed.

Lemma average_mean_of (l : list Z) : l <> [] -> mean_of l (average l).
Proof.
  intro Hne. split; [exact Hne |].
  rewrite sum_of_total. apply average_mean, Hne.
Qed.

(** What one band does to the width history. *)
Lemma recenter_history (bw : ndarray) (window : Z) (st : tracker)
    (l r : option Z) :
  finds bw window st = OK (l, r) ->
  lane_dist_hist
    (recenter (window_bounds bw window (leftx_current st) (rightx_current st))
       l r st)
  = lane_dist_hist st ++ width_sample bw (window, st).
Proof.
  intro Hf. unfold width_sample; cbn [fst snd]. rewrite Hf.
  unfold recenter. destruct l as [lx |], r as [rx |]; cbn [lane_dist_hist];
    rewrite ?app_nil_r; reflexivity.
Qed.

(** The history at the end of a run is the history at its start followed by
    the samples of the bands, in their order. *)
Lemma run_windows_history (bw : ndarray) (windows : list Z) :
  forall st st',
    run_windows bw windows st = OK st' ->
    lane_dist_hist st'
    = lane_dist_hist st ++ recorded_widths bw (visited bw windows st).
Proof.
  induction windows as [| w rest IH]; intros st st' Hrun.
  - injection Hrun as <-. cbn. rewrite app_nil_r. reflexivity.
  - cbn [run_windows] in Hrun. bind_inv Hrun.
    cbn [visited]. rewrite E.
    apply window_step_finds in E. destruct E as (l & r & Hf & ->).
    rewrite (IH _ _ Hrun), (recenter_history _ _ _ _ _ Hf).
    unfold recorded_widths. cbn [flat_map]. rewrite <- app_assoc.
    reflexivity.
Qed.

(** C10. Throughout a frame the width history holds at least one sample: it
    starts with [rightBase - leftBase], put there before the first band, and
    the last known width is its most recent sample whenever a band is
    entered. When the frame returns, the history of the final state is that
    seed followed by [right - left] of every band that found both sides, in
    the order of the bands, and the returned average is the arithmetic mean
    of this list: the average times the number of samples is their sum. When
    no band finds both sides the history is the seed alone, and the average
    is the seed. *)
Theorem width_history_seeded (bw : ndarray) (ll lr : option Z) (lb rb : Z) :
  locate_bases bw ll lr = OK (lb, rb) ->
  (forall window st,
     In (window, st) (visited bw (range nwindows) (init_tracker lb rb)) ->
     seeded (rb - lb) st) /\
  (forall px,
     find_lane_pixels bw ll lr = OK px ->
     exists st,
       run_windows bw (range nwindows) (init_tracker lb rb) = OK st /\
       lane_dist_hist st
       = (rb - lb)
         :: recorded_widths bw
              (visited bw (range nwindows) (init_tracker lb rb)) /\
       prev_lane_dist st = last (lane_dist_hist st) 0 /\
       mean_of (lane_dist_hist st) (avg_lane_dist px) /\
       ((forall window s lx rx,
           In (window, s) (visited bw (range nwindows) (init_tracker lb rb)) ->
           finds bw window s <> OK (Some lx, Some rx)) ->
        lane_dist_hist st = [rb - lb] /\
        (avg_lane_dist px == inject_Z (rb - lb))%Q)).
Proof.
  intro Hloc. split.
  - intros window st Hin.
    eapply (visited_invariant bw (seeded (rb - lb))); [| | exact Hin].
    + intros w l r s. apply recenter_seeded.
    + apply init_tracker_seeded.
  - intros px Hpx.
    pose proof (BaseFacts.find_lane_pixels_bases _ _ _ _ Hpx) as Hb.
    rewrite Hloc in Hb. injection Hb as Hlb Hrb.
    destruct (find_lane_pixels_run _ _ _ _ Hpx) as (st & Hrun & _ & _ & ->).
    rewrite <- Hlb, <- Hrb in Hrun.
    exists st. split; [exact Hrun |].
    pose proof (run_windows_history _ _ _ _ Hrun) as Hh.
    cbn [init_tracker lane_dist_hist app] in Hh.
    split; [exact Hh |].
    assert (seeded (rb - lb) st) as (later & _ & Hlast).
    { eapply (run_windows_invariant bw (seeded (rb - lb))); [| | exact Hrun].
      - intros w l r s. apply recenter_seeded.
      - apply init_tracker_seeded. }
    split; [exact Hlast |].
    split; [apply average_mean_of; rewrite Hh; discriminate |].
    intro Hno. pose proof (no_pair_run _ _ _ _ Hrun Hno) as Hsame.
    cbn [init_tracker lane_dist_hist] in Hsame.
    split; [exact Hsame |]. rewrite Hsame. apply average_single.
Qed.

Lemma width_history_seeded_witness :
  let bw := stacked (band_mask 96 400 [60; 290] 255)
                    (band_mask 84 400 [50; 300] 255) in
  (forall window st,
     In (window, st) (visited bw (range nwindows) (init_tracker 50 300)) ->
     seeded (300 - 50) st) /\
  (forall px,
     find_lane_pixels bw None None = OK px ->
     exists st,
       run_windows bw (range nwindows) (init_tracker 50 300) = OK st /\
       lane_dist_hist st
       = (300 - 50)
         :: recorded_widths bw
              (visited bw (range nwindows) (init_tracker 50 300)) /\
       prev_lane_dist st = last (lane_dist_hist st) 0 /\
       mean_of (lane_dist_hist st) (avg_lane_dist px) /\
       ((forall window s lx rx,
           In (window, s) (visited bw (range nwindows) (init_tracker 50 300)) ->
           finds bw window s <> OK (Some lx, Some rx)) ->
        lane_dist_hist st = [300 - 50] /\
        (avg_lane_dist px == inject_Z (300 - 50))%Q)).
Proof.
  apply (width_history_seeded
           (stacked (band_mask 96 400 [60; 290] 255)
                    (band_mask 84 400 [50; 300] 255)) None None 50 300).
  vm_compute. reflexivity.
Defined.

(** A mask whose bands lie at columns 50 and 300 in the lower seven bands and
    at columns 60 and 290 above them: every band finds both sides, the
    history is the seed 250, seven samples 250 and eight samples 230, and the
    returned average is 240. *)
Example two_widths_average :
  let bw := stacked (band_mask 96 400 [60; 290] 255)
                    (band_mask 84 400 [50; 300] 255) in
  recorded_widths bw (visited bw (range nwindows) (init_tracker 50 300))
  = repeat 250 7 ++ repeat 230 8 /\
  exists px,
    find_lane_pixels bw None None = OK px /\
    (avg_lane_dist px == 240)%Q.
Proof.
  cbv zeta. split.
  - vm_compute. reflexivity.
  - destruct (find_lane_pixels
                (stacked (band_mask 96 400 [60; 290] 255)
                         (band_mask 84 400 [50; 300] 255)) None None)
      as [px |] eqn:E.
    + exists px. split; [reflexivity |].
      revert E. vm_compute. intro E. injection E as <-. reflexivity.
    + exfalso. revert E. vm_compute. discriminate.
Qed.

(** On a black mask no band finds anything; the frame returns, and the
    average is the width of the bases. *)
Example black_mask_average :
  exists px,
    find_lane_pixels (black 15 400) None None = OK px /\
    avg_lane_dist px = average [200].
Proof.
  destruct (find_lane_pixels (black 15 400) None None) as [px |] eqn:E.
  - exists px. split; [reflexivity |].
    revert E. vm_compute. intro E. injection E as <-. reflexivity.
  - exfalso. revert E. vm_compute. discriminate.
Qed.

(** *** The points of a frame that returns *)

Lemma range_length (n : Z) : length (range n) = Z.to_nat n.
Proof. unfold range. rewrite length_map, length_seq. reflexivity. Qed.

(** A frame that returns has one point per band and per side, in the order
    of the bands, each in the middle row of its band. *)
Lemma find_lane_pixels_points (bw : ndarray) (ll lr : option Z)
    (px : lane_pixels) :
  find_lane_pixels bw ll lr = OK px ->
  length (left_points px) = 15%nat /\
  length (right_points px) = 15%nat /\
  map snd (left_points px) = map (band_mid_y bw) (range nwindows) /\
  map snd (right_points px) = map (band_mid_y bw) (range nwindows).
Proof.
  intro Hpx.
  destruct (find_lane_pixels_run _ _ _ _ Hpx) as (st & Hrun & -> & -> & _).
  destruct (run_windows_points _ _ _ _ Hrun)
    as (newl & newr & -> & -> & Hyl & Hyr).
  cbn [init_tracker left_lane_points right_lane_points app].
  repeat split; try assumption.
  - rewrite <- (length_map snd), Hyl, length_map. reflexivity.
  - rewrite <- (length_map snd), Hyr, length_map. reflexivity.
Qed.

(** With [H >= nwindows] the bands have a positive height and their middle
    rows go up the image, one band height at a time. *)
Lemma band_mid_y_descends (bw : ndarray) (window : Z) :
  nwindows <= shape0 bw ->
  0 <= window -> window + 1 < nwindows ->
  band_mid_y bw (window + 1) = band_mid_y bw window - window_height bw /\
  0 < window_height bw.
Proof.
  unfold band_mid_y, window_bounds, window_height, int_half, nwindows.
  cbn [win_y_low win_y_high]. intros HH H0 H1.
  set (H := shape0 bw) in *. set (h := H / 15).
  assert (1 <= h /\ 15 * h <= H) as [Hh1 Hh2].
  { unfold h. split.
    - apply Z.div_le_lower_bound; lia.
    - apply Z.mul_div_le. lia. }
  destruct (Z.ltb_spec (H - (window + 1 + 1) * h) 0); [nia |].
  destruct (Z.ltb_spec (H - (window + 1) * h) 0); [nia |].
  split; [| lia].
  rewrite !Z.quot_div_nonneg by nia.
  replace (H - (window + 1 + 1) * h + (H - (window + 1) * h))
    with (H - (window + 1) * h + (H - window * h) + - h * 2) by ring.
  rewrite Z.div_add by lia. lia.
Qed.

(** *** Windows that leave the mask *)

Lemma area_hist_no_columns (bw : ndarray) (y_low y_high x_low x_high : Z) :
  wf bw ->
  norm_bound (shape1 bw) x_high <= norm_bound (shape1 bw) x_low ->
  area_hist bw y_low y_high x_low x_high = [].
Proof.
  intros Hwf Hx. unfold area_hist.
  apply sum_axis0_no_columns; [apply slice2_wf, Hwf |].
  unfold slice2; cbn [ncols slice_start slice_stop]. lia.
Qed.

(** On a mask that meets the input contract, a right window whose low edge is
    below 0 selects no column at all: the negative index counts from the right
    border. The maximum of its empty column sums is a [ValueError], which ends
    the frame. *)
Lemma right_window_wraps_to_empty (bw : ndarray) (window : Z) (st : tracker) :
  wf bw ->
  2 * margin <= shape1 bw ->
  - margin <= rightx_current st < margin ->
  window_step bw window st = Raise ValueError.
Proof.
  intros Hwf HW Hrc. unfold window_step, candidates.
  set (w := window_bounds bw window (leftx_current st) (rightx_current st)).
  assert (area_hist bw (win_y_low w) (win_y_high w)
            (win_xright_low w) (win_xright_high w) = []) as ->.
  { apply area_hist_no_columns; [exact Hwf |].
    unfold w, window_bounds; cbn [win_xright_low win_xright_high].
    unfold norm_bound, margin in *.
    destruct (Z.ltb_spec (rightx_current st - 100) 0);
      destruct (Z.ltb_spec (rightx_current st + 100) 0); lia. }
  rewrite detect_empty.
  destruct (detect _ (win_xleft_low w)) as [l | e] eqn:E; cbn [bind].
  - reflexivity.
  - apply detect_raises in E. destruct E as [_ ->]. reflexivity.
Qed.

Lemma band_mask_wf (height width : nat) (cols : list Z) (v : Z) :
  wf (band_mask height width cols v).
Proof.
  unfold wf, band_mask; cbn [rows ncols].
  apply Forall_forall. intros r Hr. apply repeat_spec in Hr. subst r.
  unfold band_row. rewrite length_map, range_length. apply Nat2Z.id.
Qed.

Lemma band_mask_contract (height width : nat) (cols : list Z) (v : Z) :
  (15 <= height)%nat -> (200 <= width)%nat ->
  contract (band_mask height width cols v).
Proof.
  intros Hh Hw. split; [apply band_mask_wf |].
  unfold shape0, shape1, band_mask, nwindows, margin; cbn [rows ncols].
  rewrite repeat_length. lia.
Qed.

(** C6, at a failing input: a mask of 180 rows and 200 columns whose only lit
    column is column 50, on the first frame. The bases are 50 and 100. The
    lowest band finds column 50 on both sides, so the next band is entered
    with the right position 50 and its right window starts at column -50: the
    code clamps the low edge of the left window and of the band, not that of
    the right window. The negative index wraps around, the region is empty,
    and the band raises a [ValueError]. *)
Theorem right_window_low_edge_not_clamped :
  let bw := band_mask 180 200 [50] 255 in
  contract bw /\
  locate_bases bw None None = OK (50, 100) /\
  exists st,
    window_step bw 0 (init_tracker 50 100) = OK st /\
    rightx_current st = 50 /\
    let w := window_bounds bw 1 (leftx_current st) (rightx_current st) in
    win_xright_low w = -50 /\
    win_xleft_low w = 0 /\
    area_hist bw (win_y_low w) (win_y_high w)
      (win_xright_low w) (win_xright_high w) = [] /\
    window_step bw 1 st = Raise ValueError.
Proof.
  cbv zeta. split; [apply band_mask_contract; lia |].
  split; [vm_compute; reflexivity |].
  eexists. split; [vm_compute; reflexivity |].
  repeat split; vm_compute; reflexivity.
Qed.

(** C8, at a failing input: the same mask meets [H >= nwindows] and
    [W >= 2 * margin], and its only bright pixels form a vertical band, yet
    the tracker emits no points for it: the second band raises a
    [ValueError] and the frame ends there. *)
Theorem single_band_frame_raises :
  let bw := band_mask 180 200 [50] 255 in
  contract bw /\
  find_lane_pixels bw None None = Raise ValueError.
Proof.
  cbv zeta. split; [apply band_mask_contract; lia |].
  vm_compute. reflexivity.
Qed.

(** The same happens with previous bases, as soon as the right base in use is
    closer than [margin] to the left border. *)
Example low_right_base_raises :
  find_lane_pixels (black 15 400) (Some 10) (Some 50) = Raise ValueError.
Proof. vm_compute. reflexivity. Qed.

(** The end-to-end scenario of the specification: two full-height bands at
    columns 300 and 980 of a 720 by 1280 mask. *)
Example two_bands_frame :
  exists px,
    find_lane_pixels (band_mask 720 1280 [300; 980] 255) None None = OK px /\
    leftx_base px = 300 /\ rightx_base px = 980 /\
    map fst (left_points px) = repeat 300 15 /\
    map fst (right_points px) = repeat 980 15 /\
    (avg_lane_dist px == 680)%Q.
Proof.
  destruct (find_lane_pixels (band_mask 720 1280 [300; 980] 255) None None)
    as [px |] eqn:E.
  - exists px. split; [reflexivity |].
    revert E. vm_compute. intro E. injection E as <-.
    repeat split; reflexivity.
  - exfalso. revert E. vm_compute. discriminate.
Qed.

End TrackerFacts.

(** ** The histogram and its peaks *)

Module HistogramFacts.
Import Np NpFacts Graph Spec Masks.

Lemma sum_seq_shift (f : nat -> Z) (n : nat) :
  forall k,
    fold_right (fun i s => f (S i) + s) 0 (seq k n)
    = fold_right (fun i s => f i + s) 0 (seq (S k) n).
Proof.
  induction n as [| n IH]; intro k; cbn [seq fold_right].
  - reflexivity.
  - rewrite IH. reflexivity.
Qed.

(** The column total of the rows from row [k] on, as a sum over row
    numbers. *)
Lemma column_total_skipn (j : nat) (rs : list (list Z)) :
  forall k,
    column_total j (skipn k rs)
    = fold_right (fun i s => nth j (nth i rs []) 0 + s) 0
        (seq k (length rs - k)).
Proof.
  induction rs as [| r rs IH]; intro k.
  - rewrite skipn_nil. reflexivity.
  - destruct k as [| k].
    + cbn [skipn length Nat.sub seq fold_right column_total nth].
      f_equal. specialize (IH O). rewrite Nat.sub_0_r in IH.
      cbn [skipn] in IH. fold (column_total j rs). rewrite IH.
      apply (sum_seq_shift (fun i => nth j (nth i (r :: rs) []) 0)).
    + cbn [skipn length Nat.sub]. rewrite IH.
      apply (sum_seq_shift (fun i => nth j (nth i (r :: rs) []) 0)).
Qed.

(** The rows that enter the histogram are the rows [H/2 .. H-1]. *)
Lemma histogram_rows (bw : ndarray) :
  rows (slice2 (Some (shape0 bw / 2)) None None None bw)
  = skipn (length (rows bw) / 2) (rows bw).
Proof.
  unfold slice2, shape0; cbn [rows].
  rewrite (map_ext _ (fun r => r)) by (intro r; apply slice_all).
  rewrite map_id. unfold slice; cbn [slice_start slice_stop].
  set (n := length (rows bw)).
  change 2 with (Z.of_nat 2). rewrite <- Nat2Z.inj_div.
  assert (n / 2 <= n)%nat as Hle by (apply Nat.Div0.div_le_upper_bound; lia).
  rewrite norm_bound_inside by lia.
  rewrite Nat2Z.id. apply firstn_all2. rewrite length_skipn. lia.
Qed.

Lemma histogram_length (bw : ndarray) :
  wf bw -> length (histogram bw) = ncols bw.
Proof.
  intro Hwf. unfold histogram.
  rewrite sum_axis0_length by (apply slice2_wf, Hwf).
  unfold slice2, shape1; cbn [ncols slice_start slice_stop]. lia.
Qed.

(** The histogram of the code is the histogram of the specification. *)
Lemma histogram_bottom_half (bw : ndarray) (j : nat) :
  wf bw -> nth j (histogram bw) 0 = bottom_half_sum bw j.
Proof.
  intro Hwf. unfold histogram.
  rewrite sum_axis0_nth by (apply slice2_wf, Hwf).
  rewrite histogram_rows, column_total_skipn. reflexivity.
Qed.

Lemma column_total_zero (j : nat) (rs : list (list Z)) :
  (forall r, In r rs -> nth j r 0 = 0) -> column_total j rs = 0.
Proof.
  induction rs as [| r rs IH]; intro H; cbn [column_total fold_right].
  - reflexivity.
  - fold (column_total j rs).
    rewrite IH by (intros; apply H; simpl; auto).
    rewrite (H r) by (simpl; auto). reflexivity.
Qed.

Lemma column_total_positive (j : nat) (rs : list (list Z)) :
  rs <> [] -> (forall r, In r rs -> 0 < nth j r 0) -> 0 < column_total j rs.
Proof.
  induction rs as [| r rs IH]; intros Hne H; [congruence |].
  cbn [column_total fold_right]. fold (column_total j rs).
  pose proof (H r (or_introl eq_refl)).
  destruct rs as [| r' rs'].
  - cbn. lia.
  - assert (0 < column_total j (r' :: rs')).
    { apply IH; [discriminate |]. intros. apply H. now right. }
    lia.
Qed.

(** The histogram of a mask with one vertical band. *)
Lemma band_histogram (bw : ndarray) (c : Z) :
  wf bw -> vertical_band bw c ->
  0 < get (histogram bw) c /\
  forall j, 0 <= j < shape1 bw -> j <> c -> get (histogram bw) j = 0.
Proof.
  intros Hwf (Hne & Hc & Hband). unfold get, histogram.
  split.
  - rewrite sum_axis0_nth by (apply slice2_wf, Hwf).
    rewrite histogram_rows. apply column_total_positive.
    + intro Hnil. apply skipn_all_iff in Hnil.
      destruct (rows bw) as [| r rs]; [congruence |].
      pose proof (Nat.div_lt (length (r :: rs)) 2) as Hlt.
      cbn [length] in *. lia.
    + intros r Hr. apply In_skipn in Hr. apply (Hband r Hr).
  - intros j Hj Hjc.
    rewrite sum_axis0_nth by (apply slice2_wf, Hwf).
    rewrite histogram_rows. apply column_total_zero.
    intros r Hr. apply In_skipn in Hr.
    destruct (Hband r Hr) as [_ Hz]. apply (Hz j Hj Hjc).
Qed.

(** Entries of the two halves of a list. *)
Lemma left_half_get (l : list Z) (mid j : Z) :
  0 <= mid <= Z.of_nat (length l) ->
  Z.of_nat (length (slice None (Some mid) l)) = mid /\
  (0 <= j < mid -> get (slice None (Some mid) l) j = get l j).
Proof.
  intro Hmid.
  assert (Z.of_nat (length (slice None (Some mid) l)) = mid) as Hlen.
  { rewrite slice_length. cbn [slice_start slice_stop].
    rewrite norm_bound_inside by lia. lia. }
  split; [exact Hlen |].
  intro Hj. unfold get. rewrite slice_nth by lia.
  cbn [slice_start]. reflexivity.
Qed.

Lemma right_half_get (l : list Z) (mid j : Z) :
  0 <= mid <= Z.of_nat (length l) ->
  Z.of_nat (length (slice (Some mid) None l)) = Z.of_nat (length l) - mid /\
  (0 <= j < Z.of_nat (length l) - mid ->
   get (slice (Some mid) None l) j = get l (j + mid)).
Proof.
  intro Hmid.
  assert (Z.of_nat (length (slice (Some mid) None l))
          = Z.of_nat (length l) - mid) as Hlen.
  { rewrite slice_length. cbn [slice_start slice_stop].
    rewrite norm_bound_inside by lia. lia. }
  split; [exact Hlen |].
  intro Hj. unfold get. rewrite slice_nth by lia.
  cbn [slice_start]. rewrite norm_bound_inside by lia.
  f_equal. lia.
Qed.

(** C9. For every rectangular mask of two columns or more, the histogram has
    one entry per column, the sum of the column over the rows of the bottom
    half; the new left base is the first column of maximal sum among the
    columns [0 .. W/2 - 1] and the new right base the first one among the
    columns [W/2 .. W - 1], counted from column 0. On a first frame these are
    the bases. Hence, when the only bright pixels form a vertical band at
    column [c], the base of the half that contains [c] is [c]. *)
Theorem histogram_base_locator (bw : ndarray) :
  wf bw ->
  2 <= shape1 bw ->
  let hist := histogram bw in
  let mid := shape1 bw / 2 in
  Z.of_nat (length hist) = shape1 bw /\
  (forall j, nth j hist 0 = bottom_half_sum bw j) /\
  exists newLeft newRight,
    peaks bw = OK (newLeft, newRight) /\
    locate_bases bw None None = OK (newLeft, newRight) /\
    0 <= newLeft < mid /\
    (forall j, 0 <= j < mid -> get hist j <= get hist newLeft) /\
    (forall j, 0 <= j < newLeft -> get hist j < get hist newLeft) /\
    mid <= newRight < shape1 bw /\
    (forall j, mid <= j < shape1 bw -> get hist j <= get hist newRight) /\
    (forall j, mid <= j < newRight -> get hist j < get hist newRight) /\
    (forall c, vertical_band bw c ->
       (c < mid -> newLeft = c) /\ (mid <= c -> newRight = c)).
Proof.
  intros Hwf HW hist mid.
  assert (Z.of_nat (length hist) = shape1 bw) as Hlen.
  { unfold hist. rewrite histogram_length by exact Hwf. reflexivity. }
  assert (midpoint_of hist = mid) as Hmid.
  { unfold midpoint_of, mid. rewrite Hlen. reflexivity. }
  assert (1 <= mid /\ mid < shape1 bw) as [Hm1 Hm2].
  { unfold mid. split.
    - apply Z.div_le_lower_bound; lia.
    - apply Z.div_lt_upper_bound; lia. }
  split; [exact Hlen |].
  split; [intro j; apply histogram_bottom_half, Hwf |].
  destruct (left_half_get hist mid 0) as [HlenL _]; [lia |].
  destruct (right_half_get hist mid 0) as [HlenR _]; [lia |].
  destruct (argmax_returns (slice None (Some mid) hist)) as [i Hi].
  { intro Hnil. rewrite Hnil in HlenL. simpl in HlenL. lia. }
  destruct (argmax_returns (slice (Some mid) None hist)) as [k Hk].
  { intro Hnil. rewrite Hnil in HlenR. simpl in HlenR. lia. }
  assert (peaks bw = OK (i, k + mid)) as Hpeaks.
  { unfold peaks. fold hist. rewrite Hmid, Hi, Hk. reflexivity. }
  exists i, (k + mid).
  split; [exact Hpeaks |].
  split.
  { rewrite (BaseFacts.locate_bases_unfold _ _ _ _ _ Hpeaks). reflexivity. }
  apply argmax_spec in Hi. destruct Hi as (Hir & _ & Himax & Hifirst).
  apply argmax_spec in Hk. destruct Hk as (Hkr & _ & Hkmax & Hkfirst).
  rewrite HlenL in Hir, Himax. rewrite HlenR in Hkr, Hkmax.
  assert (forall j, 0 <= j < mid ->
            get (slice None (Some mid) hist) j = get hist j) as HgL.
  { intros j Hj. apply left_half_get; lia. }
  assert (forall j, 0 <= j < Z.of_nat (length hist) - mid ->
            get (slice (Some mid) None hist) j = get hist (j + mid)) as HgR.
  { intros j Hj. apply right_half_get; lia. }
  assert (forall j, 0 <= j < mid -> get hist j <= get hist i) as HmaxL.
  { intros j Hj. rewrite <- (HgL j), <- (HgL i) by lia. apply Himax, Hj. }
  assert (forall j, mid <= j < shape1 bw ->
            get hist j <= get hist (k + mid)) as HmaxR.
  { intros j Hj. replace j with (j - mid + mid) by ring.
    rewrite <- (HgR (j - mid)), <- (HgR k) by lia. apply Hkmax. lia. }
  split; [lia |].
  split; [exact HmaxL |].
  split.
  { intros j Hj. rewrite <- (HgL j), <- (HgL i) by lia. apply Hifirst, Hj. }
  split; [lia |].
  split; [exact HmaxR |].
  split.
  { intros j Hj. replace j with (j - mid + mid) by ring.
    rewrite <- (HgR (j - mid)), <- (HgR k) by lia. apply Hkfirst. lia. }
  intros c Hband.
  pose proof Hband as (_ & Hc & _).
  destruct (band_histogram bw c Hwf Hband) as [Hpos Hzero]. fold hist in Hpos, Hzero.
  split; intro Hside.
  - destruct (Z.eq_dec i c) as [Heq | Hne]; [exact Heq | exfalso].
    specialize (HmaxL c ltac:(lia)).
    rewrite (Hzero i) in HmaxL by lia. lia.
  - destruct (Z.eq_dec (k + mid) c) as [Heq | Hne]; [exact Heq | exfalso].
    specialize (HmaxR c ltac:(lia)).
    rewrite (Hzero (k + mid)) in HmaxR by lia. lia.
Qed.

Lemma histogram_base_locator_witness :
  let bw := band_mask 4 6 [4] 1 in
  let hist := histogram bw in
  let mid := shape1 bw / 2 in
  Z.of_nat (length hist) = shape1 bw /\
  (forall j, nth j hist 0 = bottom_half_sum bw j) /\
  exists newLeft newRight,
    peaks bw = OK (newLeft, newRight) /\
    locate_bases bw None None = OK (newLeft, newRight) /\
    0 <= newLeft < mid /\
    (forall j, 0 <= j < mid -> get hist j <= get hist newLeft) /\
    (forall j, 0 <= j < newLeft -> get hist j < get hist newLeft) /\
    mid <= newRight < shape1 bw /\
    (forall j, mid <= j < shape1 bw -> get hist j <= get hist newRight) /\
    (forall j, mid <= j < newRight -> get hist j < get hist newRight) /\
    (forall c, vertical_band bw c ->
       (c < mid -> newLeft = c) /\ (mid <= c -> newRight = c)).
Proof.
  apply (histogram_base_locator (band_mask 4 6 [4] 1)).
  - unfold wf. vm_compute. repeat constructor.
  - vm_compute. discriminate.
Defined.

(** The band masks are masks with vertical bands. *)
Lemma band_mask_vertical_band (height width : nat) (c v : Z) :
  (0 < height)%nat -> 0 <= c < Z.of_nat width -> 0 < v ->
  vertical_band (band_mask height width [c] v) c.
Proof.
  intros Hh Hc Hv. unfold vertical_band, band_mask, shape1; cbn [rows ncols].
  split; [destruct height; [lia | discriminate] |].
  split; [exact Hc |].
  intros r Hr. apply repeat_spec in Hr. subst r.
  assert (forall j, 0 <= j < Z.of_nat width ->
            get (band_row width [c] v) j = if j =? c then v else 0) as Hget.
  { intros j Hj. unfold get, band_row, range.
    rewrite map_map.
    set (f := fun x : nat =>
                if existsb (Z.eqb (Z.of_nat x)) [c] then v else 0).
    rewrite (nth_indep _ 0 (f O)) by (rewrite length_map, length_seq; lia).
    rewrite (map_nth f), seq_nth by lia.
    unfold f. cbn [existsb Nat.add]. rewrite Z2Nat.id, orb_false_r by lia.
    reflexivity. }
  split.
  - rewrite Hget, Z.eqb_refl by exact Hc. exact Hv.
  - intros j Hj Hjc. rewrite Hget by exact Hj.
    destruct (Z.eqb_spec j c); [contradiction | reflexivity].
Qed.

(** The bases of the first frame on two single-band masks, one band in each
    half. *)
Example single_band_left :
  locate_bases (band_mask 720 1280 [300] 255) None None = OK (300, 640).
Proof. vm_compute. reflexivity. Qed.

Example single_band_right :
  locate_bases (band_mask 720 1280 [980] 255) None None = OK (0, 980).
Proof. vm_compute. reflexivity. Qed.

(** A mask of one column has an empty left half, whose argmax is a
    [ValueError]. *)
Example one_column_mask :
  peaks (band_mask 4 1 [0] 255) = Raise ValueError.
Proof. vm_compute. reflexivity. Qed.

End HistogramFacts.

(** ** Curve fitting *)

Module FitFacts.
Import Np NpFacts Graph Spec Masks.

Section Fitting.

Variable polyfit : list Z -> list Z -> Q * Q * Q.

(** With three points or more on both sides the two fits are made, each from
    the points of its own side, and nothing is raised. *)
Lemma fit_points_enough (height : Z) (px : lane_pixels) :
  (3 <= length (left_points px))%nat ->
  (3 <= length (right_points px))%nat ->
  let l := polyfit (map snd (left_points px)) (map fst (left_points px)) in
  let r := polyfit (map snd (right_points px)) (map fst (right_points px)) in
  fit_points polyfit height px
  = OK {| left_fit := l;
          left_fitx := sample l (range height);
          right_fit := r;
          right_fitx := sample r (range height);
          ploty := range height;
          fit_avg_lane_dist := avg_lane_dist px;
          fit_leftx_base := leftx_base px;
          fit_rightx_base := rightx_base px |}.
Proof.
  intros Hl Hr. unfold fit_points.
  apply Nat.leb_le in Hl, Hr. rewrite Hl, Hr. reflexivity.
Qed.

(** A side with fewer than three points leaves its coefficients unassigned;
    reading them is an [UnboundLocalError], which the handler for
    [TypeError] does not catch. *)
Lemma fit_points_short_left (height : Z) (px : lane_pixels) :
  (length (left_points px) < 3)%nat ->
  fit_points polyfit height px = Raise UnboundLocalError.
Proof.
  intro Hl. unfold fit_points.
  apply Nat.leb_gt in Hl. rewrite Hl. reflexivity.
Qed.

Lemma fit_points_short_right (height : Z) (px : lane_pixels) :
  (length (right_points px) < 3)%nat ->
  fit_points polyfit height px = Raise UnboundLocalError.
Proof.
  intro Hr. unfold fit_points.
  apply Nat.leb_gt in Hr. rewrite Hr.
  destruct (3 <=? length (left_points px))%nat; reflexivity.
Qed.

End Fitting.

(** The exceptions of a frame: the tracker raises a [ValueError] (an empty
    half of the histogram, an empty search region) or a [TypeError] (a
    previous right base without a left one), and nothing else. *)
Lemma bind_raises {A B : Type} (P : exn -> Prop) (m : result A)
    (k : A -> result B) (e : exn) :
  (forall e', m = Raise e' -> P e') ->
  (forall a e', k a = Raise e' -> P e') ->
  bind m k = Raise e -> P e.
Proof.
  intros Hm Hk. destruct m as [a | e']; cbn [bind]; intro H.
  - exact (Hk a e H).
  - injection H as <-. apply Hm. reflexivity.
Qed.

Lemma argmax_raises (l : list Z) (e : exn) :
  argmax l = Raise e -> e = ValueError.
Proof. destruct l; [intro H; injection H as <-; reflexivity | discriminate]. Qed.

Lemma run_windows_raises_ValueError (bw : ndarray) (windows : list Z) :
  forall st e, run_windows bw windows st = Raise e -> e = ValueError.
Proof.
  induction windows as [| w rest IH]; intros st e; cbn [run_windows];
    [discriminate |].
  apply (bind_raises (fun x => x = ValueError)); [| intros st' e'; apply IH].
  intro e'. unfold window_step.
  apply (bind_raises (fun x => x = ValueError));
    [| intros [l r] e''; discriminate].
  intro e''. unfold candidates.
  apply (bind_raises (fun x => x = ValueError));
    [intro e3; apply TrackerFacts.detect_raises |].
  intros l e3.
  apply (bind_raises (fun x => x = ValueError));
    [intro e4; apply TrackerFacts.detect_raises | discriminate].
Qed.

Lemma locate_bases_errors (bw : ndarray) (ll lr : option Z) (e : exn) :
  locate_bases bw ll lr = Raise e -> e = ValueError \/ e = TypeError.
Proof.
  unfold locate_bases.
  apply (bind_raises (fun x => x = ValueError \/ x = TypeError)).
  - intro e'. unfold peaks.
    apply (bind_raises (fun x => x = ValueError \/ x = TypeError));
      [intros e'' H; left; exact (argmax_raises _ _ H) |].
    intros lx e''.
    apply (bind_raises (fun x => x = ValueError \/ x = TypeError));
      [intros e3 H; left; exact (argmax_raises _ _ H) | discriminate].
  - intros [lb rb] e'.
    apply (bind_raises (fun x => x = ValueError \/ x = TypeError));
      [| discriminate].
    intro e''. unfold validate_right.
    destruct lr; [| discriminate]. destruct ll; [discriminate |].
    intro H. injection H as <-. right. reflexivity.
Qed.

Lemma find_lane_pixels_errors (bw : ndarray) (ll lr : option Z) (e : exn) :
  find_lane_pixels bw ll lr = Raise e -> e = ValueError \/ e = TypeError.
Proof.
  unfold find_lane_pixels.
  apply (bind_raises (fun x => x = ValueError \/ x = TypeError));
    [apply locate_bases_errors |].
  intros [lb rb] e'.
  apply (bind_raises (fun x => x = ValueError \/ x = TypeError));
    [| discriminate].
  intros e'' H. left. exact (run_windows_raises_ValueError _ _ _ _ H).
Qed.

(** Within a frame the fit never meets a side with fewer than three points:
    the tracker hands over 15 points per side, so whenever it returns, each
    side is fit from its own points, whatever the other side holds, and the
    frame returns the two fits and their sampled curves together with the
    bases and the average width of the tracker. *)
Theorem both_sides_fitted (polyfit : list Z -> list Z -> Q * Q * Q)
    (bw : ndarray) (ll lr : option Z) (px : lane_pixels) :
  find_lane_pixels bw ll lr = OK px ->
  length (left_points px) = 15%nat /\
  length (right_points px) = 15%nat /\
  exists f,
    fit_polynomial polyfit bw ll lr = OK f /\
    left_fit f = polyfit (map snd (left_points px)) (map fst (left_points px)) /\
    right_fit f
      = polyfit (map snd (right_points px)) (map fst (right_points px)) /\
    left_fitx f = sample (left_fit f) (range (shape0 bw)) /\
    right_fitx f = sample (right_fit f) (range (shape0 bw)) /\
    fit_leftx_base f = leftx_base px /\
    fit_rightx_base f = rightx_base px /\
    fit_avg_lane_dist f = avg_lane_dist px.
Proof.
  intro Hpx.
  destruct (TrackerFacts.find_lane_pixels_points _ _ _ _ Hpx)
    as (Hl & Hr & _ & _).
  split; [exact Hl |]. split; [exact Hr |].
  eexists. split.
  - unfold fit_polynomial. rewrite Hpx. cbn [bind].
    apply fit_points_enough; lia.
  - cbn. repeat split; reflexivity.
Qed.

Lemma both_sides_fitted_witness :
  let bw := band_mask 180 400 [50; 300] 255 in
  let ys := [174; 162; 150; 138; 126; 114; 102; 90; 78; 66; 54; 42; 30; 18; 6] in
  let px := {| left_points := map (fun y => (50, y)) ys;
               right_points := map (fun y => (300, y)) ys;
               avg_lane_dist := average (repeat 250 16);
               leftx_base := 50;
               rightx_base := 300 |} in
  let polyfit := fun (_ xs : list Z) => (0%Q, 0%Q, inject_Z (hd 0 xs)) in
  length (left_points px) = 15%nat /\
  length (right_points px) = 15%nat /\
  exists f,
    fit_polynomial polyfit bw None None = OK f /\
    left_fit f = polyfit (map snd (left_points px)) (map fst (left_points px)) /\
    right_fit f
      = polyfit (map snd (right_points px)) (map fst (right_points px)) /\
    left_fitx f = sample (left_fit f) (range (shape0 bw)) /\
    right_fitx f = sample (right_fit f) (range (shape0 bw)) /\
    fit_leftx_base f = leftx_base px /\
    fit_rightx_base f = rightx_base px /\
    fit_avg_lane_dist f = avg_lane_dist px.
Proof.
  cbv zeta.
  apply (both_sides_fitted
           (fun (_ xs : list Z) => (0%Q, 0%Q, inject_Z (hd 0 xs)))
           (band_mask 180 400 [50; 300] 255) None None).
  vm_compute. reflexivity.
Defined.

(** No frame ends in an [UnboundLocalError]: no mask and no previous bases
    bring the fit to the branch that leaves a side's coefficients
    unassigned. *)
Lemma fit_polynomial_never_unbound (polyfit : list Z -> list Z -> Q * Q * Q)
    (bw : ndarray) (ll lr : option Z) :
  fit_polynomial polyfit bw ll lr <> Raise UnboundLocalError.
Proof.
  destruct (find_lane_pixels bw ll lr) as [px | e] eqn:E.
  - destruct (both_sides_fitted polyfit _ _ _ _ E) as (_ & _ & f & -> & _).
    discriminate.
  - unfold fit_polynomial. rewrite E. cbn [bind].
    destruct (find_lane_pixels_errors _ _ _ _ E) as [-> | ->]; discriminate.
Qed.

(** The statements after the call of the tracker, taken alone and given two
    points on the left and three on the right, do not return an unfit left
    side next to a fitted right side: they raise an [UnboundLocalError],
    which the handler for [TypeError] does not catch, whatever the solver
    is. No frame reaches them in that state. *)
Lemma short_side_raises :
  let px := {| left_points := [(50, 2); (50, 1)];
               right_points := [(300, 2); (300, 1); (300, 0)];
               avg_lane_dist := 250;
               leftx_base := 50;
               rightx_base := 300 |} in
  (length (left_points px) < 3)%nat /\
  (3 <= length (right_points px))%nat /\
  forall polyfit, fit_points polyfit 3 px = Raise UnboundLocalError.
Proof.
  cbv zeta. split; [simpl; lia |]. split; [simpl; lia |].
  intro polyfit. reflexivity.
Qed.

End FitFacts.

(** * Further properties of the code *)

(** ** Bands and windows *)

Module BandFacts.
Import Np NpFacts Graph Spec Masks Conditions.

Lemma range_nth (n i : Z) (d : Z) :
  0 <= i < n -> nth (Z.to_nat i) (range n) d = i.
Proof.
  intro Hi. unfold range.
  rewrite (nth_indep _ d (Z.of_nat O)) by (rewrite length_map, length_seq; lia).
  rewrite (map_nth Z.of_nat), seq_nth by lia. simpl. lia.
Qed.

Lemma range_In (n i : Z) : In i (range n) <-> 0 <= i < n.
Proof.
  unfold range. rewrite in_map_iff. split.
  - intros (k & <- & Hk). apply in_seq in Hk. lia.
  - intro Hi. exists (Z.to_nat i). split; [lia |]. apply in_seq. lia.
Qed.

Lemma window_height_bounds (bw : ndarray) :
  0 <= window_height bw /\
  nwindows * window_height bw <= shape0 bw /\
  shape0 bw - nwindows * window_height bw = shape0 bw mod nwindows.
Proof.
  unfold window_height, nwindows, shape0.
  set (H := Z.of_nat (length (rows bw))).
  assert (0 <= H) by (unfold H; lia).
  pose proof (Z.div_mod H 15). pose proof (Z.mod_pos_bound H 15).
  pose proof (Z.div_pos H 15). lia.
Qed.

(** The rows of a band, without reference to the clamp. *)
Lemma band_rows (bw : ndarray) (window lc rc : Z) :
  0 <= window < nwindows ->
  let w := window_bounds bw window lc rc in
  win_y_low w = shape0 bw - (window + 1) * window_height bw /\
  win_y_high w = shape0 bw - window * window_height bw.
Proof.
  intro Hw. unfold window_bounds; cbn [win_y_low win_y_high].
  split; [| reflexivity].
  destruct (window_height_bounds bw) as (Hh & H15 & _). unfold nwindows in *.
  destruct (Z.ltb_spec (shape0 bw - (window + 1) * window_height bw) 0);
    [nia | reflexivity].
Qed.

Lemma band_mid_y_formula (bw : ndarray) (window : Z) :
  0 <= window < nwindows ->
  band_mid_y bw window
  = shape0 bw - window * window_height bw - (window_height bw + 1) / 2.
Proof.
  intro Hw. unfold band_mid_y.
  destruct (band_rows bw window 0 0 Hw) as [-> ->].
  destruct (window_height_bounds bw) as (Hh & H15 & _). unfold nwindows in *.
  unfold int_half. rewrite Z.quot_div_nonneg by nia.
  set (H := shape0 bw) in *. set (h := window_height bw) in *.
  replace (H - (window + 1) * h + (H - window * h))
    with (- h + (H - window * h) * 2) by ring.
  rewrite Z.div_add by lia.
  assert (- h / 2 = - ((h + 1) / 2)) as ->; [| lia].
  pose proof (Z.div_mod (- h) 2). pose proof (Z.mod_pos_bound (- h) 2).
  pose proof (Z.div_mod (h + 1) 2). pose proof (Z.mod_pos_bound (h + 1) 2).
  lia.
Qed.

(** X1. A frame that returns carries 15 points per side; the points of band
    [i] lie in row [H - i * h - (h + 1) / 2] on both sides, where [h = H // 15]
    is the band height. With [H >= 15] these rows are rows of the mask and
    go up from band to band. *)
Theorem frame_points_bottom_to_top (bw : ndarray) (ll lr : option Z)
    (px : lane_pixels) :
  find_lane_pixels bw ll lr = OK px ->
  let h := window_height bw in
  length (left_points px) = 15%nat /\
  length (right_points px) = 15%nat /\
  (forall i, 0 <= i < nwindows ->
     let y := shape0 bw - i * h - (h + 1) / 2 in
     nth (Z.to_nat i) (map snd (left_points px)) 0 = y /\
     nth (Z.to_nat i) (map snd (right_points px)) 0 = y /\
     (nwindows <= shape0 bw -> 0 < h /\ 0 <= y < shape0 bw)).
Proof.
  intros Hpx h.
  destruct (TrackerFacts.find_lane_pixels_points _ _ _ _ Hpx)
    as (Hl & Hr & Hyl & Hyr).
  split; [exact Hl |]. split; [exact Hr |].
  intros i Hi y.
  rewrite Hyl, Hyr.
  rewrite (nth_indep _ 0 (band_mid_y bw 0))
    by (rewrite length_map, TrackerFacts.range_length; unfold nwindows in *; lia).
  rewrite (map_nth (band_mid_y bw)), range_nth by exact Hi.
  rewrite band_mid_y_formula by exact Hi.
  split; [reflexivity |]. split; [reflexivity |].
  intro HH. destruct (window_height_bounds bw) as (Hh & H15 & _).
  assert (1 <= h) as Hh1.
  { unfold h, window_height. apply Z.div_le_lower_bound; unfold nwindows in *; lia. }
  split; [lia |].
  unfold y. fold h in H15. unfold nwindows in *.
  pose proof (Z.div_mod (h + 1) 2). pose proof (Z.mod_pos_bound (h + 1) 2).
  split; nia.
Qed.

Lemma frame_points_bottom_to_top_witness :
  let bw := band_mask 180 400 [50] 255 in
  let px := {| left_points :=
                 map (fun y => (50, y))
                   [174; 162; 150; 138; 126; 114; 102; 90; 78; 66; 54; 42; 30;
                    18; 6];
               right_points :=
                 map (fun y => (200, y))
                   [174; 162; 150; 138; 126; 114; 102; 90; 78; 66; 54; 42; 30;
                    18; 6];
               avg_lane_dist := average [150];
               leftx_base := 50;
               rightx_base := 200 |} in
  let h := window_height bw in
  length (left_points px) = 15%nat /\
  length (right_points px) = 15%nat /\
  (forall i, 0 <= i < nwindows ->
     let y := shape0 bw - i * h - (h + 1) / 2 in
     nth (Z.to_nat i) (map snd (left_points px)) 0 = y /\
     nth (Z.to_nat i) (map snd (right_points px)) 0 = y /\
     (nwindows <= shape0 bw -> 0 < h /\ 0 <= y < shape0 bw)).
Proof.
  cbv zeta.
  apply (frame_points_bottom_to_top (band_mask 180 400 [50] 255) None None).
  vm_compute. reflexivity.
Defined.

(** X3. The bands of the loop are contiguous and all [H // 15] rows high: band
    0 ends at the bottom row, every band ends where the band below it starts,
    and the clamp of [win_y_low] never applies. The [H mod 15] top rows of the
    mask lie in no band. *)
Theorem bands_tile_the_mask (bw : ndarray) (window lc rc : Z) :
  0 <= window < nwindows ->
  let w := window_bounds bw window lc rc in
  win_y_low w = shape0 bw - (window + 1) * window_height bw /\
  win_y_high w - win_y_low w = window_height bw /\
  shape0 bw mod nwindows <= win_y_low w /\
  win_y_high w <= shape0 bw /\
  (window = 0 -> win_y_high w = shape0 bw) /\
  (window = nwindows - 1 -> win_y_low w = shape0 bw mod nwindows) /\
  (window + 1 < nwindows ->
   win_y_high (window_bounds bw (window + 1) lc rc) = win_y_low w).
Proof.
  intros Hw w.
  destruct (band_rows bw window lc rc Hw) as [Hlow Hhigh]. fold w in Hlow, Hhigh.
  destruct (window_height_bounds bw) as (Hh & H15 & Hmod).
  rewrite Hlow, Hhigh. unfold nwindows in *.
  repeat split; nia.
Qed.

Lemma bands_tile_the_mask_witness :
  let bw := band_mask 187 400 [50] 255 in
  let w := window_bounds bw 14 50 200 in
  win_y_low w = shape0 bw - (14 + 1) * window_height bw /\
  win_y_high w - win_y_low w = window_height bw /\
  shape0 bw mod nwindows <= win_y_low w /\
  win_y_high w <= shape0 bw /\
  (14 = 0 -> win_y_high w = shape0 bw) /\
  (14 = nwindows - 1 -> win_y_low w = shape0 bw mod nwindows) /\
  (14 + 1 < nwindows ->
   win_y_high (window_bounds bw (14 + 1) 50 200) = win_y_low w).
Proof.
  apply (bands_tile_the_mask (band_mask 187 400 [50] 255) 14 50 200).
  unfold nwindows. lia.
Defined.

(** *** Search regions *)

Lemma area_hist_length (bw : ndarray) (y_low y_high x_low x_high : Z) :
  wf bw ->
  Z.of_nat (length (area_hist bw y_low y_high x_low x_high))
  = Z.max 0 (norm_bound (shape1 bw) x_high - norm_bound (shape1 bw) x_low).
Proof.
  intro Hwf. unfold area_hist.
  rewrite sum_axis0_length by (apply slice2_wf, Hwf).
  unfold slice2; cbn [ncols slice_start slice_stop]. lia.
Qed.

Lemma detect_no_columns (bw : ndarray) (y_low y_high x_low x_high low : Z) :
  wf bw ->
  norm_bound (shape1 bw) x_high <= norm_bound (shape1 bw) x_low ->
  detect (area_hist bw y_low y_high x_low x_high) low = Raise ValueError.
Proof.
  intros Hwf Hx.
  rewrite TrackerFacts.area_hist_no_columns by assumption. reflexivity.
Qed.

(** X2. On a rectangular mask at least [2 * margin] wide, a band raises a
    [ValueError] whenever one of its windows selects no column: the right
    window when the right position is in [-margin .. margin - 1] (its low edge
    is negative and wraps around) or at [W + margin] or beyond, the left
    window when the left position is [-margin] or at [W + margin] or beyond.
    A frame whose right base is in [-margin .. margin - 1] therefore raises
    in its first band. *)
Theorem window_without_columns_raises (bw : ndarray) :
  wf bw ->
  2 * margin <= shape1 bw ->
  (forall window st,
     - margin <= rightx_current st < margin \/
     shape1 bw + margin <= rightx_current st \/
     leftx_current st = - margin \/
     shape1 bw + margin <= leftx_current st ->
     window_step bw window st = Raise ValueError) /\
  (forall ll lr lb rb,
     locate_bases bw ll lr = OK (lb, rb) ->
     - margin <= rb < margin ->
     find_lane_pixels bw ll lr = Raise ValueError).
Proof.
  intros Hwf HW.
  assert (forall window st,
            - margin <= rightx_current st < margin \/
            shape1 bw + margin <= rightx_current st \/
            leftx_current st = - margin \/
            shape1 bw + margin <= leftx_current st ->
            window_step bw window st = Raise ValueError) as Hstep.
  { intros window st Hcase. unfold window_step, candidates.
    set (w := window_bounds bw window (leftx_current st) (rightx_current st)).
    assert (0 <= shape1 bw) as HW0 by (unfold shape1; lia).
    destruct Hcase as [Hr | [Hr | Hl]].
    - apply TrackerFacts.right_window_wraps_to_empty; assumption.
    - assert (detect (area_hist bw (win_y_low w) (win_y_high w)
                        (win_xright_low w) (win_xright_high w))
                (win_xright_low w) = Raise ValueError) as Hd.
      { apply detect_no_columns; [exact Hwf |].
        unfold w, window_bounds; cbn [win_xright_low win_xright_high].
        unfold norm_bound, margin in *.
        destruct (Z.ltb_spec (rightx_current st - 100) 0);
          destruct (Z.ltb_spec (rightx_current st + 100) 0); lia. }
      rewrite Hd.
      destruct (detect _ (win_xleft_low w)) as [l | e] eqn:E; cbn [bind].
      + reflexivity.
      + apply TrackerFacts.detect_raises in E. destruct E as [_ ->].
        reflexivity.
    - assert (detect (area_hist bw (win_y_low w) (win_y_high w)
                        (win_xleft_low w) (win_xleft_high w))
                (win_xleft_low w) = Raise ValueError) as Hd.
      { apply detect_no_columns; [exact Hwf |].
        unfold w, window_bounds; cbn [win_xleft_low win_xleft_high].
        unfold norm_bound, margin in *.
        destruct (Z.ltb_spec (leftx_current st - 100) 0);
          [destruct (Z.ltb_spec 0 0) | ];
          try destruct (Z.ltb_spec (leftx_current st - 100) 0);
          destruct (Z.ltb_spec (leftx_current st + 100) 0); lia. }
      rewrite Hd. reflexivity. }
  split; [exact Hstep |].
  intros ll lr lb rb Hloc Hrb.
  unfold find_lane_pixels. rewrite Hloc. cbn [bind].
  change (range nwindows) with (0 :: map Z.of_nat (seq 1 14)).
  cbn [run_windows]. rewrite Hstep; [reflexivity |].
  left. exact Hrb.
Qed.

Lemma window_without_columns_raises_witness :
  let bw := black 15 400 in
  (forall window st,
     - margin <= rightx_current st < margin \/
     shape1 bw + margin <= rightx_current st \/
     leftx_current st = - margin \/
     shape1 bw + margin <= leftx_current st ->
     window_step bw window st = Raise ValueError) /\
  (forall ll lr lb rb,
     locate_bases bw ll lr = OK (lb, rb) ->
     - margin <= rb < margin ->
     find_lane_pixels bw ll lr = Raise ValueError).
Proof.
  apply (window_without_columns_raises (black 15 400)).
  - apply TrackerFacts.band_mask_wf.
  - vm_compute. discriminate.
Defined.

(** X4. On a rectangular mask, a position that a band finds is a column of the
    mask that lies strictly inside the window it was searched in. So a found
    left position is less than [margin] away from the position the band was
    entered with when that position is at least [margin], and the same holds
    on the right. *)
Theorem found_inside_window (bw : ndarray) (window : Z) (st : tracker)
    (l r : option Z) :
  wf bw ->
  finds bw window st = OK (l, r) ->
  (forall x, l = Some x ->
     Z.max 0 (leftx_current st - margin) < x < shape1 bw /\
     (- margin <= leftx_current st -> x < leftx_current st + margin)) /\
  (forall x, r = Some x ->
     margin <= rightx_current st ->
     rightx_current st - margin < x < shape1 bw /\
     x < rightx_current st + margin).
Proof.
  intros Hwf Hf. unfold finds, candidates in Hf.
  set (w := window_bounds bw window (leftx_current st) (rightx_current st))
    in Hf.
  bind_inv Hf. bind_inv Hf.
  apply TrackerFacts.detect_accepted in E, E0.
  assert (reject_low v (win_xleft_low w) = l) as Hl by congruence.
  assert (reject_low v0 (win_xright_low w) = r) as Hr by congruence.
  rewrite Hl in E. rewrite Hr in E0. clear Hf Hl Hr.
  assert (0 <= shape1 bw) as HW0 by (unfold shape1; lia).
  split.
  - intros x Hx. rewrite Hx in E. destruct E as (i & Hi & -> & _ & Hne).
    apply argmax_spec in Hi. destruct Hi as (Hir & _).
    rewrite area_hist_length in Hir by exact Hwf.
    unfold w, window_bounds in Hir, Hne |- *;
      cbn [win_xleft_low win_xleft_high] in Hir, Hne |- *.
    unfold norm_bound, margin in *.
    destruct (Z.ltb_spec (leftx_current st - 100) 0);
      [destruct (Z.ltb_spec 0 0) | ];
      try destruct (Z.ltb_spec (leftx_current st - 100) 0);
      destruct (Z.ltb_spec (leftx_current st + 100) 0); lia.
  - intros x Hx Hrc. rewrite Hx in E0. destruct E0 as (i & Hi & -> & _ & Hne).
    apply argmax_spec in Hi. destruct Hi as (Hir & _).
    rewrite area_hist_length in Hir by exact Hwf.
    unfold w, window_bounds in Hir, Hne |- *;
      cbn [win_xright_low win_xright_high] in Hir, Hne |- *.
    unfold norm_bound, margin in *.
    destruct (Z.ltb_spec (rightx_current st - 100) 0);
      destruct (Z.ltb_spec (rightx_current st + 100) 0); lia.
Qed.

Lemma found_inside_window_witness :
  let bw := band_mask 165 400 [50; 300] 255 in
  let st := init_tracker 120 250 in
  (forall x, Some 50 = Some x ->
     Z.max 0 (leftx_current st - margin) < x < shape1 bw /\
     (- margin <= leftx_current st -> x < leftx_current st + margin)) /\
  (forall x, Some 300 = Some x ->
     margin <= rightx_current st ->
     rightx_current st - margin < x < shape1 bw /\
     x < rightx_current st + margin).
Proof.
  apply (found_inside_window (band_mask 165 400 [50; 300] 255) 0
           (init_tracker 120 250) (Some 50) (Some 300)).
  - apply TrackerFacts.band_mask_wf.
  - vm_compute. reflexivity.
Defined.

End BandFacts.

(** ** Whole frames *)

Module FrameFacts.
Import Np NpFacts Graph Spec Masks Conditions.

(** *** When the bases can be located *)

Lemma peaks_range (bw : ndarray) :
  wf bw -> 2 <= shape1 bw ->
  exists nl nr,
    peaks bw = OK (nl, nr) /\
    0 <= nl < shape1 bw / 2 /\ shape1 bw / 2 <= nr < shape1 bw.
Proof.
  intros Hwf HW.
  assert (Z.of_nat (length (histogram bw)) = shape1 bw) as Hlen.
  { rewrite HistogramFacts.histogram_length by exact Hwf. reflexivity. }
  assert (midpoint_of (histogram bw) = shape1 bw / 2) as Hmid.
  { unfold midpoint_of. rewrite Hlen. reflexivity. }
  set (mid := shape1 bw / 2) in *.
  assert (1 <= mid /\ mid < shape1 bw) as [Hm1 Hm2].
  { unfold mid. split.
    - apply Z.div_le_lower_bound; lia.
    - apply Z.div_lt_upper_bound; lia. }
  destruct (HistogramFacts.left_half_get (histogram bw) mid 0) as [HlenL _];
    [lia |].
  destruct (HistogramFacts.right_half_get (histogram bw) mid 0) as [HlenR _];
    [lia |].
  destruct (argmax_returns (slice None (Some mid) (histogram bw))) as [i Hi].
  { intro Hnil. rewrite Hnil in HlenL. simpl in HlenL. lia. }
  destruct (argmax_returns (slice (Some mid) None (histogram bw))) as [k Hk].
  { intro Hnil. rewrite Hnil in HlenR. simpl in HlenR. lia. }
  exists i, (k + mid). split.
  - unfold peaks. rewrite Hmid, Hi, Hk. reflexivity.
  - apply argmax_spec in Hi, Hk.
    destruct Hi as (Hir & _). destruct Hk as (Hkr & _). lia.
Qed.

Lemma peaks_narrow (bw : ndarray) :
  wf bw -> shape1 bw < 2 -> peaks bw = Raise ValueError.
Proof.
  intros Hwf HW. unfold peaks.
  assert (Z.of_nat (length (histogram bw)) = shape1 bw) as Hlen.
  { rewrite HistogramFacts.histogram_length by exact Hwf. reflexivity. }
  assert (midpoint_of (histogram bw) = 0) as ->.
  { unfold midpoint_of. rewrite Hlen. apply Z.div_small. unfold shape1 in *. lia. }
  rewrite (slice_empty None (Some 0)); [reflexivity |].
  cbn [slice_start slice_stop]. unfold norm_bound. simpl. lia.
Qed.

(** X5. A rectangular mask with fewer than two columns has an empty left
    half: the tracker and the fit raise a [ValueError] on it, whatever the
    previous bases are. *)
Theorem narrow_mask_raises (bw : ndarray) (ll lr : option Z)
    (polyfit : list Z -> list Z -> Q * Q * Q) :
  wf bw ->
  shape1 bw < 2 ->
  find_lane_pixels bw ll lr = Raise ValueError /\
  fit_polynomial polyfit bw ll lr = Raise ValueError.
Proof.
  intros Hwf HW.
  assert (find_lane_pixels bw ll lr = Raise ValueError) as H.
  { unfold find_lane_pixels, locate_bases.
    rewrite (peaks_narrow bw Hwf HW). reflexivity. }
  split; [exact H |].
  unfold fit_polynomial. rewrite H. reflexivity.
Qed.

Lemma narrow_mask_raises_witness :
  find_lane_pixels (band_mask 30 1 [0] 255) None None = Raise ValueError /\
  fit_polynomial (fun _ _ => (0, 0, 0)%Q) (band_mask 30 1 [0] 255) None None
  = Raise ValueError.
Proof.
  apply (narrow_mask_raises (band_mask 30 1 [0] 255) None None
           (fun _ _ => (0, 0, 0)%Q)).
  - apply TrackerFacts.band_mask_wf.
  - vm_compute. reflexivity.
Defined.

(** X6. The two previous bases are not treated alike. On a rectangular mask
    of two columns or more, a previous right base without a previous left
    base raises a [TypeError]; a previous left base without a previous right
    base is accepted, and the right base is then the new peak. *)
Theorem lone_previous_base (bw : ndarray) :
  wf bw ->
  2 <= shape1 bw ->
  (forall r,
     locate_bases bw None (Some r) = Raise TypeError /\
     find_lane_pixels bw None (Some r) = Raise TypeError) /\
  (forall l, exists nl nr,
     peaks bw = OK (nl, nr) /\
     locate_bases bw (Some l) None = OK (validate_left (Some l) nl, nr)).
Proof.
  intros Hwf HW.
  destruct (peaks_range bw Hwf HW) as (nl & nr & Hp & _).
  split.
  - intro r.
    assert (locate_bases bw None (Some r) = Raise TypeError) as H.
    { rewrite (BaseFacts.locate_bases_unfold _ _ _ _ _ Hp). reflexivity. }
    split; [exact H |].
    unfold find_lane_pixels. rewrite H. reflexivity.
  - intro l. exists nl, nr. split; [exact Hp |].
    rewrite (BaseFacts.locate_bases_unfold _ _ _ _ _ Hp). reflexivity.
Qed.

Lemma lone_previous_base_witness :
  let bw := band_mask 15 200 [40; 150] 255 in
  (forall r,
     locate_bases bw None (Some r) = Raise TypeError /\
     find_lane_pixels bw None (Some r) = Raise TypeError) /\
  (forall l, exists nl nr,
     peaks bw = OK (nl, nr) /\
     locate_bases bw (Some l) None = OK (validate_left (Some l) nl, nr)).
Proof.
  apply (lone_previous_base (band_mask 15 200 [40; 150] 255)).
  - apply TrackerFacts.band_mask_wf.
  - vm_compute. discriminate.
Defined.

(** *** Masks too dim for the threshold *)

Lemma bounded_pixels_decide (bw : ndarray) (v : Z) :
  bounded_pixelsb bw v = true -> bounded_pixels bw v.
Proof.
  unfold bounded_pixelsb, bounded_pixels. intro H.
  rewrite forallb_forall in H. apply Forall_forall. intros r Hr.
  specialize (H r Hr). rewrite forallb_forall in H.
  apply Forall_forall. intros p Hp. specialize (H p Hp). lia.
Qed.

Lemma nth_bounded (r : list Z) (v : Z) (j : nat) :
  0 <= v -> Forall (fun p => 0 <= p <= v) r -> 0 <= nth j r 0 <= v.
Proof.
  intros Hv Hr. destruct (nth_in_or_default j r 0) as [Hin | ->]; [| lia].
  rewrite Forall_forall in Hr. apply Hr, Hin.
Qed.

Lemma column_total_bounds (j : nat) (rs : list (list Z)) (v : Z) :
  0 <= v ->
  Forall (Forall (fun p => 0 <= p <= v)) rs ->
  0 <= column_total j rs <= v * Z.of_nat (length rs).
Proof.
  intros Hv. induction 1 as [| r rs Hr _ IH].
  - simpl. lia.
  - cbn [column_total fold_right length]. fold (column_total j rs).
    pose proof (nth_bounded r v j Hv Hr). lia.
Qed.

Lemma slice_Forall {A : Type} (P : A -> Prop) (lo hi : option Z)
    (l : list A) :
  Forall P l -> Forall P (slice lo hi l).
Proof.
  rewrite !Forall_forall. intros H x Hx. apply H. eapply In_slice, Hx.
Qed.

(** No column of a region sums to more than its number of rows times the
    largest pixel. *)
Lemma area_hist_entry_bound (bw : ndarray) (v y_low y_high x_low x_high : Z)
    (j : nat) :
  wf bw -> 0 <= v -> bounded_pixels bw v ->
  0 <= y_low <= y_high ->
  0 <= nth j (area_hist bw y_low y_high x_low x_high) 0 <= v * (y_high - y_low).
Proof.
  intros Hwf Hv Hb Hy. unfold area_hist.
  rewrite sum_axis0_nth by (apply slice2_wf, Hwf).
  unfold slice2; cbn [rows].
  set (rs := map (slice (Some x_low) (Some x_high))
               (slice (Some y_low) (Some y_high) (rows bw))).
  assert (Forall (Forall (fun p => 0 <= p <= v)) rs) as Hrs.
  { unfold rs. rewrite Forall_map. apply slice_Forall.
    eapply Forall_impl; [| exact Hb]. intros r Hr. apply slice_Forall, Hr. }
  pose proof (column_total_bounds j rs v Hv Hrs) as Hc.
  assert (Z.of_nat (length rs) <= y_high - y_low) as Hlen.
  { unfold rs. rewrite length_map, slice_length.
    cbn [slice_start slice_stop]. unfold norm_bound.
    destruct (Z.ltb_spec y_low 0); destruct (Z.ltb_spec y_high 0); lia. }
  nia.
Qed.

(** A band entered with both windows on the mask finds nothing when the
    pixels are too dim to pass the threshold. *)
Lemma quiet_band (bw : ndarray) (v window : Z) (st : tracker) :
  wf bw ->
  2 * margin <= shape1 bw ->
  0 <= v -> bounded_pixels bw v ->
  v * window_height bw <= min_pixels ->
  0 <= window < nwindows ->
  0 <= leftx_current st < shape1 bw + margin ->
  margin <= rightx_current st < shape1 bw + margin ->
  finds bw window st = OK (None, None).
Proof.
  intros Hwf HW Hv Hb Hdim Hw Hl Hr. unfold finds, candidates.
  set (w := window_bounds bw window (leftx_current st) (rightx_current st)).
  destruct (BandFacts.band_rows bw window (leftx_current st)
              (rightx_current st) Hw) as [Hlow Hhigh].
  fold w in Hlow, Hhigh.
  destruct (BandFacts.window_height_bounds bw) as (Hh & H15 & _).
  assert (0 <= win_y_low w <= win_y_high w) as Hy
    by (rewrite Hlow, Hhigh; unfold nwindows in *; nia).
  assert (win_y_high w - win_y_low w = window_height bw) as Hrows
    by (rewrite Hlow, Hhigh; ring).
  assert (forall x_low x_high low,
            0 < norm_bound (shape1 bw) x_high - norm_bound (shape1 bw) x_low ->
            detect (area_hist bw (win_y_low w) (win_y_high w) x_low x_high) low
            = OK None) as Hdetect.
  { intros x_low x_high low Hx. unfold detect.
    destruct (amax_returns (area_hist bw (win_y_low w) (win_y_high w)
                              x_low x_high)) as [m Hm].
    { intro Hnil.
      pose proof (BandFacts.area_hist_length bw (win_y_low w) (win_y_high w)
                    x_low x_high Hwf) as Hlen.
      rewrite Hnil in Hlen. simpl in Hlen. lia. }
    rewrite Hm. cbn [bind].
    destruct (amax_argmax _ _ Hm) as (i & _ & Hget).
    pose proof (area_hist_entry_bound bw v (win_y_low w) (win_y_high w)
                  x_low x_high (Z.to_nat i) Hwf Hv Hb Hy) as Hbound.
    unfold get in Hget. rewrite Hget, Hrows in Hbound.
    destruct (Z.ltb_spec min_pixels m); [lia | reflexivity]. }
  assert (0 <= shape1 bw) as HW0 by (unfold shape1; lia).
  rewrite !Hdetect; [reflexivity | |].
  - unfold w, window_bounds; cbn [win_xright_low win_xright_high].
    unfold norm_bound, margin in *.
    destruct (Z.ltb_spec (rightx_current st - 100) 0);
      destruct (Z.ltb_spec (rightx_current st + 100) 0); lia.
  - unfold w, window_bounds; cbn [win_xleft_low win_xleft_high].
    unfold norm_bound, margin in *.
    destruct (Z.ltb_spec (leftx_current st - 100) 0);
      [destruct (Z.ltb_spec 0 0) | ];
      try destruct (Z.ltb_spec (leftx_current st - 100) 0);
      destruct (Z.ltb_spec (leftx_current st + 100) 0); lia.
Qed.

(** Where a band that finds nothing puts the two positions. *)
Lemma recenter_nothing_found (w : window_box) (st : tracker) :
  let st' := recenter w None None st in
  leftx_current st' = int_half (win_xleft_low w + win_xleft_high w) /\
  rightx_current st' = int_half (win_xright_low w + win_xright_high w) /\
  prev_lane_dist st' = prev_lane_dist st /\
  lane_dist_hist st' = lane_dist_hist st /\
  left_lane_points st'
    = left_lane_points st
      ++ [(leftx_current st', int_half (win_y_low w + win_y_high w))] /\
  right_lane_points st'
    = right_lane_points st
      ++ [(rightx_current st', int_half (win_y_low w + win_y_high w))].
Proof. cbn. auto 6. Qed.

Lemma guess_positions (bw : ndarray) (window lc rc lb : Z) :
  0 <= lb <= lc -> lc <= Z.max lb (margin - 1) ->
  let w := window_bounds bw window lc rc in
  lb <= int_half (win_xleft_low w + win_xleft_high w) <= Z.max lb (margin - 1) /\
  (margin <= lc -> int_half (win_xleft_low w + win_xleft_high w) = lc) /\
  int_half (win_xright_low w + win_xright_high w) = rc.
Proof.
  intros Hlb Hlc. unfold window_bounds;
    cbn [win_xleft_low win_xleft_high win_xright_low win_xright_high].
  unfold int_half, margin in *.
  assert (rc - 100 + (rc + 100) = rc * 2) as -> by ring.
  rewrite Z.quot_mul by lia.
  destruct (Z.ltb_spec (lc - 100) 0).
  - rewrite Z.quot_div_nonneg by lia.
    pose proof (Z.div_mod (0 + (lc + 100)) 2).
    pose proof (Z.mod_pos_bound (0 + (lc + 100)) 2). lia.
  - assert (lc - 100 + (lc + 100) = lc * 2) as -> by ring.
    rewrite Z.quot_mul by lia. lia.
Qed.

Lemma quiet_run (bw : ndarray) (v lb : Z) :
  wf bw ->
  2 * margin <= shape1 bw ->
  0 <= v -> bounded_pixels bw v ->
  v * window_height bw <= min_pixels ->
  0 <= lb < shape1 bw + margin ->
  forall windows st,
    Forall (fun window => 0 <= window < nwindows) windows ->
    lb <= leftx_current st <= Z.max lb (margin - 1) ->
    margin <= rightx_current st < shape1 bw + margin ->
    exists st' newl newr,
      run_windows bw windows st = OK st' /\
      lane_dist_hist st' = lane_dist_hist st /\
      left_lane_points st' = left_lane_points st ++ newl /\
      right_lane_points st' = right_lane_points st ++ newr /\
      Forall (fun p => fst p = rightx_current st) newr /\
      Forall (fun p => lb <= fst p <= Z.max lb (margin - 1)) newl /\
      (margin <= leftx_current st ->
       Forall (fun p => fst p = leftx_current st) newl) /\
      (forall window s, In (window, s) (visited bw windows st) ->
         finds bw window s = OK (None, None)).
Proof.
  intros Hwf HW Hv Hb Hdim Hlb. induction windows as [| w rest IH];
    intros st Hws Hl Hr.
  - exists st, [], []. rewrite !app_nil_r. cbn [run_windows visited].
    repeat split; auto. intros window s [].
  - inversion Hws as [| ? ? Hw Hrest]; subst.
    assert (finds bw w st = OK (None, None)) as Hf.
    { apply (quiet_band bw v); try assumption. unfold margin in *. lia. }
    pose proof (TrackerFacts.finds_window_step _ _ _ _ _ Hf) as Hstep.
    set (box := window_bounds bw w (leftx_current st) (rightx_current st))
      in Hstep.
    set (st1 := recenter box None None st) in Hstep.
    destruct (recenter_nothing_found box st)
      as (Hl1 & Hr1 & _ & Hh1 & Hpl & Hpr).
    fold st1 in Hl1, Hr1, Hh1, Hpl, Hpr.
    destruct (guess_positions bw w (leftx_current st) (rightx_current st) lb)
      as (Hg1 & Hg2 & Hg3); [lia | lia |].
    fold box in Hg1, Hg2, Hg3. rewrite <- Hl1 in Hg1, Hg2. rewrite <- Hr1 in Hg3.
    destruct (IH st1 Hrest) as
      (st' & newl & newr & Hrun & Hh & Hnl & Hnr & Hfr & Hfl & Hfl' & Hvis).
    { exact Hg1. }
    { rewrite Hg3. exact Hr. }
    exists st', ((leftx_current st1, int_half (win_y_low box + win_y_high box))
                 :: newl),
      ((rightx_current st1, int_half (win_y_low box + win_y_high box)) :: newr).
    split.
    { cbn [run_windows]. rewrite Hstep. cbn [bind]. exact Hrun. }
    split; [congruence |].
    split; [rewrite Hnl, Hpl, <- app_assoc; reflexivity |].
    split; [rewrite Hnr, Hpr, <- app_assoc; reflexivity |].
    split.
    { constructor; [exact Hg3 |]. rewrite <- Hg3. exact Hfr. }
    split; [constructor; [exact Hg1 | exact Hfl] |].
    split.
    { intro Hm. specialize (Hg2 Hm). constructor; [exact Hg2 |].
      rewrite <- Hg2. apply Hfl'. lia. }
    intros window s Hin. cbn [visited] in Hin. rewrite Hstep in Hin.
    destruct Hin as [Heq | Hin].
    + injection Heq as <- <-. exact Hf.
    + apply Hvis, Hin.
Qed.

(** X7. On a first frame, a mask that meets the input contract and whose
    pixels are too dim for the threshold -- values in [0 .. v] with
    [v * (H // 15) <= 2550], as every 0/1 mask of fewer than 38265 rows --
    makes the tracker return, and no band finds anything: every right point
    stays in the column of the right base, every left point lies between the
    left base and column [margin - 1] (in the column of the left base when
    that is [margin] or more), and the average width is the width of the
    bases. *)
Theorem dim_mask_frame (bw : ndarray) (v : Z) :
  contract bw ->
  0 <= v ->
  bounded_pixels bw v ->
  v * window_height bw <= min_pixels ->
  exists px,
    find_lane_pixels bw None None = OK px /\
    0 <= leftx_base px < shape1 bw / 2 /\
    shape1 bw / 2 <= rightx_base px < shape1 bw /\
    Forall (fun p => fst p = rightx_base px) (right_points px) /\
    Forall (fun p => leftx_base px <= fst p
                     <= Z.max (leftx_base px) (margin - 1))
      (left_points px) /\
    (margin <= leftx_base px ->
     Forall (fun p => fst p = leftx_base px) (left_points px)) /\
    (avg_lane_dist px == inject_Z (rightx_base px - leftx_base px))%Q /\
    (forall window st,
       In (window, st)
          (visited bw (range nwindows)
             (init_tracker (leftx_base px) (rightx_base px))) ->
       finds bw window st = OK (None, None)).
Proof.
  intros (Hwf & HH & HW) Hv Hb Hdim.
  destruct (peaks_range bw Hwf) as (lb & rb & Hp & Hlb & Hrb);
    [unfold margin in HW; lia |].
  assert (100 <= shape1 bw / 2) as Hmid
    by (apply Z.div_le_lower_bound; unfold margin in HW; lia).
  destruct (quiet_run bw v lb Hwf HW Hv Hb Hdim) with
    (windows := range nwindows) (st := init_tracker lb rb)
    as (st' & newl & newr & Hrun & Hh & Hnl & Hnr & Hfr & Hfl & Hfl' & Hvis).
  - unfold margin. lia.
  - apply Forall_forall. intros w Hw. apply BandFacts.range_In, Hw.
  - cbn [init_tracker leftx_current]. lia.
  - cbn [init_tracker rightx_current]. unfold margin. lia.
  - cbn [init_tracker lane_dist_hist left_lane_points right_lane_points
           leftx_current rightx_current app] in *.
    eexists. split.
    { unfold find_lane_pixels.
      rewrite (BaseFacts.locate_bases_unfold _ _ _ _ _ Hp).
      cbn [validate_right validate_left bind]. rewrite Hrun. reflexivity. }
    cbn [leftx_base rightx_base left_points right_points avg_lane_dist].
    rewrite Hh, Hnl, Hnr.
    repeat split; try lia; try assumption.
    apply TrackerFacts.average_single.
Qed.

Lemma dim_mask_frame_witness :
  let bw := band_mask 15 200 [40; 150] 255 in
  exists px,
    find_lane_pixels bw None None = OK px /\
    0 <= leftx_base px < shape1 bw / 2 /\
    shape1 bw / 2 <= rightx_base px < shape1 bw /\
    Forall (fun p => fst p = rightx_base px) (right_points px) /\
    Forall (fun p => leftx_base px <= fst p
                     <= Z.max (leftx_base px) (margin - 1))
      (left_points px) /\
    (margin <= leftx_base px ->
     Forall (fun p => fst p = leftx_base px) (left_points px)) /\
    (avg_lane_dist px == inject_Z (rightx_base px - leftx_base px))%Q /\
    (forall window st,
       In (window, st)
          (visited bw (range nwindows)
             (init_tracker (leftx_base px) (rightx_base px))) ->
       finds bw window st = OK (None, None)).
Proof.
  apply (dim_mask_frame (band_mask 15 200 [40; 150] 255) 255).
  - apply TrackerFacts.band_mask_contract; lia.
  - lia.
  - apply bounded_pixels_decide. vm_compute. reflexivity.
  - vm_compute. discriminate.
Defined.

(** *** The fit on top of the tracker *)

Lemma sample_length (c : Q * Q * Q) (ys : list Z) :
  length (sample c ys) = length ys.
Proof. destruct c as [[c0 c1] c2]. apply length_map. Qed.

Lemma sample_nth (c0 c1 c2 : Q) (n y : Z) :
  0 <= y < n ->
  nth (Z.to_nat y) (sample (c0, c1, c2) (range n)) 0%Q
  = (c0 * (inject_Z y * inject_Z y) + c1 * inject_Z y + c2)%Q.
Proof.
  intro Hy. unfold sample.
  set (f := fun y0 : Z => (c0 * ((y0 # 1) * (y0 # 1)) + c1 * (y0 # 1) + c2)%Q).
  rewrite (nth_indep _ 0%Q (f 0))
    by (rewrite length_map, TrackerFacts.range_length; lia).
  rewrite (map_nth f), BandFacts.range_nth by exact Hy. reflexivity.
Qed.

(** X8. [fit_polynomial] adds no failure of its own: it raises exactly what
    the tracker raises, and when the tracker returns it returns too, with the
    rows [0 .. H-1] as [ploty] and, for each side, one sample per row, the
    value of the side's quadratic at that row. *)
Theorem fit_follows_tracker (polyfit : list Z -> list Z -> Q * Q * Q)
    (bw : ndarray) (ll lr : option Z) :
  (forall e,
     find_lane_pixels bw ll lr = Raise e ->
     fit_polynomial polyfit bw ll lr = Raise e) /\
  (forall px,
     find_lane_pixels bw ll lr = OK px ->
     exists f,
       fit_polynomial polyfit bw ll lr = OK f /\
       ploty f = range (shape0 bw) /\
       length (left_fitx f) = length (rows bw) /\
       length (right_fitx f) = length (rows bw) /\
       forall y, 0 <= y < shape0 bw ->
         let '(a, b, c) := left_fit f in
         let '(a', b', c') := right_fit f in
         nth (Z.to_nat y) (left_fitx f) 0%Q
           = (a * (inject_Z y * inject_Z y) + b * inject_Z y + c)%Q /\
         nth (Z.to_nat y) (right_fitx f) 0%Q
           = (a' * (inject_Z y * inject_Z y) + b' * inject_Z y + c')%Q).
Proof.
  split.
  - intros e He. unfold fit_polynomial. rewrite He. reflexivity.
  - intros px Hpx.
    destruct (TrackerFacts.find_lane_pixels_points _ _ _ _ Hpx)
      as (Hl & Hr & _ & _).
    eexists. split.
    { unfold fit_polynomial. rewrite Hpx. cbn [bind].
      apply FitFacts.fit_points_enough; lia. }
    cbn [ploty left_fitx right_fitx left_fit right_fit].
    split; [reflexivity |].
    rewrite !sample_length, TrackerFacts.range_length.
    unfold shape0. rewrite Nat2Z.id.
    split; [reflexivity |]. split; [reflexivity |].
    intros y Hy.
    destruct (polyfit (map snd (left_points px)) (map fst (left_points px)))
      as [[a b] c].
    destruct (polyfit (map snd (right_points px)) (map fst (right_points px)))
      as [[a' b'] c'].
    split; apply sample_nth; exact Hy.
Qed.

Lemma fit_follows_tracker_witness :
  let polyfit := fun (_ xs : list Z) => (0%Q, 0%Q, inject_Z (hd 0 xs)) in
  let bw := band_mask 180 200 [50] 255 in
  (forall e,
     find_lane_pixels bw None None = Raise e ->
     fit_polynomial polyfit bw None None = Raise e) /\
  (forall px,
     find_lane_pixels bw None None = OK px ->
     exists f,
       fit_polynomial polyfit bw None None = OK f /\
       ploty f = range (shape0 bw) /\
       length (left_fitx f) = length (rows bw) /\
       length (right_fitx f) = length (rows bw) /\
       forall y, 0 <= y < shape0 bw ->
         let '(a, b, c) := left_fit f in
         let '(a', b', c') := right_fit f in
         nth (Z.to_nat y) (left_fitx f) 0%Q
           = (a * (inject_Z y * inject_Z y) + b * inject_Z y + c)%Q /\
         nth (Z.to_nat y) (right_fitx f) 0%Q
           = (a' * (inject_Z y * inject_Z y) + b' * inject_Z y + c')%Q).
Proof.
  exact (fit_follows_tracker
           (fun (_ xs : list Z) => (0%Q, 0%Q, inject_Z (hd 0 xs)))
           (band_mask 180 200 [50] 255) None None).
Defined.

(** The frame of the single lit column: the tracker raises, and so does the
    fit. *)
Example fit_raises_with_tracker :
  fit_polynomial (fun _ _ => (0, 0, 0)%Q) (band_mask 180 200 [50] 255)
    None None
  = Raise ValueError.
Proof. vm_compute. reflexivity. Qed.

End FrameFacts.

(** ** The image helpers *)

Module ImgFacts.
Import Np NpFacts Graph Conditions Img.

(** *** Planes and thresholds *)

Lemma axis_index_inside (n : nat) (k : Z) :
  - Z.of_nat n <= k < Z.of_nat n ->
  axis_index n k = Done (Z.to_nat (k mod Z.of_nat n)).
Proof.
  intro Hk. unfold axis_index.
  destruct (Z.ltb_spec k (- Z.of_nat n)); [lia |].
  destruct (Z.leb_spec (Z.of_nat n) k); [lia |]. cbn [orb].
  do 2 f_equal.
  destruct (Z.ltb_spec k 0).
  - apply (Z.mod_unique_pos _ _ (-1)); lia.
  - symmetry. apply Z.mod_small. lia.
Qed.

Lemma axis_index_outside (n : nat) (k : Z) :
  k < - Z.of_nat n \/ Z.of_nat n <= k -> axis_index n k = Throw IndexError.
Proof.
  intro Hk. unfold axis_index.
  destruct (Z.ltb_spec k (- Z.of_nat n));
    destruct (Z.leb_spec (Z.of_nat n) k); cbn [orb]; try reflexivity; lia.
Qed.

Lemma nth_map_rows {A B : Type} (f : A -> B) (rs : list (list A)) (i : nat) :
  nth i (map (map f) rs) [] = map f (nth i rs []).
Proof. apply (map_nth (map f) rs []). Qed.

Lemma nth_map_in_range {A B : Type} (f : A -> B) (l : list A) (j : nat)
    (d : A) (d' : B) :
  (j < length l)%nat -> nth j (map f l) d' = f (nth j l d).
Proof.
  intro Hj. rewrite (nth_indep _ d' (f d)) by (rewrite length_map; exact Hj).
  apply map_nth.
Qed.

Lemma wf3_row (image : ndarray3) (i : nat) :
  wf3 image -> (i < length (rows3 image))%nat ->
  length (nth i (rows3 image) []) = ncols3 image.
Proof.
  intros Hwf Hi. unfold wf3 in Hwf. rewrite Forall_forall in Hwf.
  apply (Hwf (nth i (rows3 image) [])), nth_In, Hi.
Qed.

Lemma mark_binary (thresh : Z * Z) (p : Z) :
  (mark thresh p = 1 /\ fst thresh <= p <= snd thresh) \/
  (mark thresh p = 0 /\ ~ fst thresh <= p <= snd thresh).
Proof.
  unfold mark.
  destruct (Z.leb_spec (fst thresh) p); destruct (Z.leb_spec p (snd thresh));
    cbn [andb]; [left | right | right | right]; split; lia.
Qed.

(** X9. On an image with [C] channels, [to_rgb] with a channel index outside
    [-C .. C-1] raises an [IndexError]. With an index inside, negative ones
    counting from the last channel, it returns a mask of the size of the
    image whose pixel is 1 where the channel value lies in
    [thresh[0] .. thresh[1]] and 0 elsewhere. *)
Theorem to_rgb_mask (image : ndarray3) (color_numb : Z) (thresh : Z * Z) :
  wf3 image ->
  let C := Z.of_nat (nchan image) in
  (color_numb < - C \/ C <= color_numb ->
   to_rgb image color_numb thresh = Throw IndexError) /\
  (- C <= color_numb < C ->
   exists m,
     to_rgb image color_numb thresh = Done m /\
     to_rgb image (color_numb mod C) thresh = Done m /\
     wf m /\
     ncols m = ncols3 image /\
     length (rows m) = length (rows3 image) /\
     forall i j,
       (i < length (rows3 image))%nat -> (j < ncols3 image)%nat ->
       let value := pixel3 image i j (Z.to_nat (color_numb mod C)) in
       (pixel2 m i j = 1 /\ fst thresh <= value <= snd thresh) \/
       (pixel2 m i j = 0 /\ ~ fst thresh <= value <= snd thresh)).
Proof.
  intros Hwf C. split.
  - intro Hk. unfold to_rgb, take_channel.
    rewrite axis_index_outside by exact Hk. reflexivity.
  - intro Hk.
    assert (0 <= color_numb mod C < C) as Hmod
      by (apply Z.mod_pos_bound; lia).
    eexists. split.
    { unfold to_rgb, take_channel.
      rewrite axis_index_inside by exact Hk. reflexivity. }
    split.
    { unfold to_rgb, take_channel.
      rewrite axis_index_inside by (fold C; lia). fold C.
      rewrite Z.mod_mod by lia. reflexivity. }
    cbn [ncols rows]. fold C.
    split.
    { unfold wf; cbn [ncols rows]. rewrite !Forall_map.
      unfold wf3 in Hwf. eapply Forall_impl; [| exact Hwf].
      intros r [Hr _]. rewrite !length_map. exact Hr. }
    split; [reflexivity |].
    split; [rewrite !length_map; reflexivity |].
    intros i j Hi Hj. cbv zeta. unfold pixel2, pixel3; cbn [rows].
    rewrite !nth_map_rows.
    pose proof (wf3_row image i Hwf Hi) as Hrow.
    rewrite (nth_map_in_range (mark thresh) _ j 0 0)
      by (rewrite length_map, Hrow; exact Hj).
    rewrite (nth_map_in_range _ _ j [] 0) by (rewrite Hrow; exact Hj).
    apply mark_binary.
Qed.

Lemma to_rgb_mask_witness :
  let image := {| ncols3 := 2; nchan := 3;
                  rows3 := [[[10; 20; 230]; [0; 255; 90]]] |} in
  let C := Z.of_nat (nchan image) in
  (-1 < - C \/ C <= -1 -> to_rgb image (-1) (200, 255) = Throw IndexError) /\
  (- C <= -1 < C ->
   exists m,
     to_rgb image (-1) (200, 255) = Done m /\
     to_rgb image (-1 mod C) (200, 255) = Done m /\
     wf m /\
     ncols m = ncols3 image /\
     length (rows m) = length (rows3 image) /\
     forall i j,
       (i < length (rows3 image))%nat -> (j < ncols3 image)%nat ->
       let value := pixel3 image i j (Z.to_nat (-1 mod C)) in
       (pixel2 m i j = 1 /\ fst (200, 255) <= value <= snd (200, 255)) \/
       (pixel2 m i j = 0 /\ ~ fst (200, 255) <= value <= snd (200, 255))).
Proof.
  apply (to_rgb_mask
           {| ncols3 := 2; nchan := 3;
              rows3 := [[[10; 20; 230]; [0; 255; 90]]] |} (-1) (200, 255)).
  unfold wf3. simpl. repeat constructor.
Defined.

(** X10. [color_treshold] with a channel below [-1] raises an
    [UnboundLocalError] on every image. With a channel of 0 or more it is
    [to_rgb], failure included. With channel [-1] it thresholds every channel
    and returns an array with the channels of the image, where [to_rgb]
    thresholds the last channel. *)
Theorem color_treshold_channels (image : ndarray3) (channel : Z)
    (tresh : Z * Z) :
  (channel < -1 ->
   color_treshold image channel tresh = Throw (Builtin UnboundLocalError)) /\
  (-1 < channel ->
   color_treshold image channel tresh
   = match to_rgb image channel tresh with
     | Done m => Done (Mask2 m)
     | Throw e => Throw e
     end) /\
  (channel = -1 ->
   exists m3,
     color_treshold image channel tresh = Done (Mask3 m3) /\
     ncols3 m3 = ncols3 image /\
     nchan m3 = nchan image /\
     length (rows3 m3) = length (rows3 image) /\
     (wf3 image -> wf3 m3) /\
     (forall i j c,
        (i < length (rows3 image))%nat ->
        (j < length (nth i (rows3 image) []))%nat ->
        (c < length (nth j (nth i (rows3 image) []) []))%nat ->
        pixel3 m3 i j c = mark tresh (pixel3 image i j c)) /\
     (wf3 image -> (0 < nchan image)%nat ->
      exists m, to_rgb image channel tresh = Done m /\
        forall i j,
          (i < length (rows3 image))%nat -> (j < ncols3 image)%nat ->
          pixel2 m i j = pixel3 m3 i j (nchan image - 1))).
Proof.
  split; [| split].
  - intro Hc. unfold color_treshold.
    destruct (Z.ltb_spec (-1) channel); [lia |].
    destruct (Z.eqb_spec channel (-1)); [lia | reflexivity].
  - intro Hc. unfold color_treshold, to_rgb.
    destruct (Z.ltb_spec (-1) channel); [| lia].
    destruct (take_channel image channel); reflexivity.
  - intros ->. eexists. split; [reflexivity |].
    cbn [ncols3 nchan rows3].
    split; [reflexivity |]. split; [reflexivity |].
    split; [rewrite length_map; reflexivity |].
    assert (forall i j c,
              (i < length (rows3 image))%nat ->
              (j < length (nth i (rows3 image) []))%nat ->
              (c < length (nth j (nth i (rows3 image) []) []))%nat ->
              pixel3 {| ncols3 := ncols3 image; nchan := nchan image;
                        rows3 := map (map (map (mark tresh))) (rows3 image) |}
                i j c
              = mark tresh (pixel3 image i j c)) as Hpix.
    { intros i j c Hi Hj Hc. unfold pixel3; cbn [rows3].
      rewrite nth_map_rows, nth_map_rows.
      apply nth_map_in_range. exact Hc. }
    split.
    { unfold wf3; cbn [ncols3 nchan rows3]. intro Hwf.
      rewrite Forall_map. eapply Forall_impl; [| exact Hwf].
      intros r [Hr Hp]. rewrite length_map. split; [exact Hr |].
      rewrite Forall_map. eapply Forall_impl; [| exact Hp].
      intros px Hpx. rewrite length_map. exact Hpx. }
    split; [exact Hpix |].
    intros Hwf HC.
    assert (- Z.of_nat (nchan image) <= -1 < Z.of_nat (nchan image)) as Hk
      by lia.
    eexists. split.
    { unfold to_rgb, take_channel.
      rewrite axis_index_inside by exact Hk. reflexivity. }
    intros i j Hi Hj.
    pose proof (wf3_row image i Hwf Hi) as Hrow.
    assert (length (nth j (nth i (rows3 image) []) []) = nchan image) as Hpx.
    { unfold wf3 in Hwf. rewrite Forall_forall in Hwf.
      destruct (Hwf (nth i (rows3 image) []) (nth_In _ _ Hi)) as [_ Hp].
      rewrite Forall_forall in Hp. apply Hp, nth_In. lia. }
    rewrite Hpix by lia.
    unfold pixel2, pixel3; cbn [rows].
    rewrite !nth_map_rows.
    rewrite (nth_map_in_range (mark tresh) _ j 0 0)
      by (rewrite length_map, Hrow; exact Hj).
    rewrite (nth_map_in_range _ _ j [] 0) by (rewrite Hrow; exact Hj).
    do 2 f_equal.
    assert (-1 mod Z.of_nat (nchan image) = Z.of_nat (nchan image) - 1) as ->.
    { symmetry. apply (Z.mod_unique_pos _ _ (-1)); lia. }
    lia.
Qed.

Lemma color_treshold_channels_witness :
  let image := {| ncols3 := 2; nchan := 3;
                  rows3 := [[[10; 20; 230]; [0; 255; 90]]] |} in
  (-1 < -1 ->
   color_treshold image (-1) (200, 255) = Throw (Builtin UnboundLocalError)) /\
  (-1 < -1 ->
   color_treshold image (-1) (200, 255)
   = match to_rgb image (-1) (200, 255) with
     | Done m => Done (Mask2 m)
     | Throw e => Throw e
     end) /\
  (-1 = -1 ->
   exists m3,
     color_treshold image (-1) (200, 255) = Done (Mask3 m3) /\
     ncols3 m3 = ncols3 image /\
     nchan m3 = nchan image /\
     length (rows3 m3) = length (rows3 image) /\
     (wf3 image -> wf3 m3) /\
     (forall i j c,
        (i < length (rows3 image))%nat ->
        (j < length (nth i (rows3 image) []))%nat ->
        (c < length (nth j (nth i (rows3 image) []) []))%nat ->
        pixel3 m3 i j c = mark (200, 255) (pixel3 image i j c)) /\
     (wf3 image -> (0 < nchan image)%nat ->
      exists m, to_rgb image (-1) (200, 255) = Done m /\
        forall i j,
          (i < length (rows3 image))%nat -> (j < ncols3 image)%nat ->
          pixel2 m i j = pixel3 m3 i j (nchan image - 1))).
Proof.
  exact (color_treshold_channels
           {| ncols3 := 2; nchan := 3;
              rows3 := [[[10; 20; 230]; [0; 255; 90]]] |} (-1) (200, 255)).
Defined.

(** The three uses of the channel argument on one image. *)
Example color_treshold_on_a_pixel_row :
  let image := {| ncols3 := 2; nchan := 3;
                  rows3 := [[[10; 20; 230]; [0; 255; 90]]] |} in
  color_treshold image 1 (200, 255)
    = Done (Mask2 {| ncols := 2; rows := [[0; 1]] |}) /\
  color_treshold image (-1) (200, 255)
    = Done (Mask3 {| ncols3 := 2; nchan := 3;
                     rows3 := [[[0; 0; 1]; [0; 1; 0]]] |}) /\
  to_rgb image (-1) (200, 255) = Done {| ncols := 2; rows := [[1; 0]] |} /\
  color_treshold image 3 (200, 255) = Throw IndexError /\
  color_treshold image (-2) (200, 255) = Throw (Builtin UnboundLocalError).
Proof. cbv zeta. repeat split; reflexivity. Qed.

(** *** Thresholds that select everything or nothing *)

Lemma map_rows_constant (f : Z -> Z) (v : Z) (w : nat) (rs : list (list Z)) :
  Forall (fun r => length r = w /\ Forall (fun p => f p = v) r) rs ->
  map (map f) rs = repeat (repeat v w) (length rs).
Proof.
  induction 1 as [| r rs [Hlen Hr] _ IH]; [reflexivity |].
  cbn [map length repeat]. rewrite IH. f_equal.
  rewrite <- Hlen. clear Hlen. induction Hr as [| p r Hp _ IHr];
    [reflexivity |].
  cbn [map length repeat]. rewrite Hp, IHr. reflexivity.
Qed.

(** X11. On an 8-bit image, [to_rgb] with its default threshold [(0, 255)]
    selects every pixel: the mask is 1 everywhere, for every channel. With an
    empty range, [thresh[0] > thresh[1]], the mask is 0 everywhere, on every
    image. *)
Theorem to_rgb_all_or_nothing (image : ndarray3) (color_numb : Z)
    (thresh : Z * Z) :
  wf3 image ->
  - Z.of_nat (nchan image) <= color_numb < Z.of_nat (nchan image) ->
  (eight_bit image ->
   to_rgb image color_numb to_rgb_default_thresh
   = Done {| ncols := ncols3 image;
             rows := repeat (repeat 1 (ncols3 image))
                       (length (rows3 image)) |}) /\
  (snd thresh < fst thresh ->
   to_rgb image color_numb thresh
   = Done {| ncols := ncols3 image;
             rows := repeat (repeat 0 (ncols3 image))
                       (length (rows3 image)) |}).
Proof.
  intros Hwf Hk.
  assert (forall t v,
            Forall (fun r => Forall (fun p =>
               mark t (nth (Z.to_nat (color_numb mod Z.of_nat (nchan image)))
                         p 0) = v) r) (rows3 image) ->
            to_rgb image color_numb t
            = Done {| ncols := ncols3 image;
                      rows := repeat (repeat v (ncols3 image))
                                (length (rows3 image)) |}) as Hall.
  { intros t v Hv. unfold to_rgb, take_channel.
    rewrite axis_index_inside by exact Hk. cbn [ncols rows]. do 2 f_equal.
    rewrite (map_rows_constant (mark t) v (ncols3 image)).
    - rewrite length_map. reflexivity.
    - rewrite Forall_map. unfold wf3 in Hwf.
      rewrite Forall_forall in Hwf, Hv |- *. intros r Hr.
      destruct (Hwf r Hr) as [Hlen _]. rewrite length_map.
      split; [exact Hlen |]. rewrite Forall_map. apply Hv, Hr. }
  split.
  - intro H8. apply Hall. unfold eight_bit in H8.
    eapply Forall_impl; [| exact H8]. intros r Hr.
    eapply Forall_impl; [| exact Hr]. intros p Hp.
    set (c := Z.to_nat (color_numb mod Z.of_nat (nchan image))).
    assert (0 <= nth c p 0 <= 255) as Hc.
    { destruct (nth_in_or_default c p 0) as [Hin | ->]; [| lia].
      rewrite Forall_forall in Hp. apply Hp, Hin. }
    unfold mark, to_rgb_default_thresh; cbn [fst snd].
    destruct (Z.leb_spec 0 (nth c p 0)); [| lia].
    destruct (Z.leb_spec (nth c p 0) 255); [reflexivity | lia].
  - intro Hempty. apply Hall.
    apply Forall_forall. intros r _. apply Forall_forall. intros p _.
    unfold mark.
    destruct (Z.leb_spec (fst thresh) (nth (Z.to_nat
                (color_numb mod Z.of_nat (nchan image))) p 0));
      [| reflexivity].
    destruct (Z.leb_spec (nth (Z.to_nat
                (color_numb mod Z.of_nat (nchan image))) p 0) (snd thresh));
      [lia | reflexivity].
Qed.

Lemma to_rgb_all_or_nothing_witness :
  let image := {| ncols3 := 2; nchan := 3;
                  rows3 := [[[10; 20; 230]; [0; 255; 90]]] |} in
  (eight_bit image ->
   to_rgb image 0 to_rgb_default_thresh
   = Done {| ncols := ncols3 image;
             rows := repeat (repeat 1 (ncols3 image))
                       (length (rows3 image)) |}) /\
  (snd (200, 100) < fst (200, 100) ->
   to_rgb image 0 (200, 100)
   = Done {| ncols := ncols3 image;
             rows := repeat (repeat 0 (ncols3 image))
                       (length (rows3 image)) |}).
Proof.
  apply (to_rgb_all_or_nothing
           {| ncols3 := 2; nchan := 3;
              rows3 := [[[10; 20; 230]; [0; 255; 90]]] |} 0 (200, 100)).
  - unfold wf3. simpl. repeat constructor.
  - simpl. lia.
Defined.

(** *** Binary masks as three-channel images *)

Lemma times_255_wraps (p : Z) : uint8 (uint8 p * 255) = uint8 (- p).
Proof.
  unfold uint8. rewrite Z.mul_mod_idemp_l by lia.
  replace (p * 255) with (- p + p * 256) by ring.
  apply Z.mod_add. lia.
Qed.

(** X12. [to_3channel_binary] returns an image of the size of the mask with
    three equal channels. The product with 255 is taken in 8 bits, so a pixel
    [p] becomes [(-p) mod 256]: 0 stays 0 and 1 becomes 255, as intended for a
    0/1 mask, while 2 becomes 254 and, in general, a pixel between 1 and 255
    becomes [256 - p]. *)
Theorem to_3channel_binary_pixels (image : ndarray) :
  wf image ->
  let out := to_3channel_binary image in
  wf3 out /\
  nchan out = 3%nat /\
  ncols3 out = ncols image /\
  length (rows3 out) = length (rows image) /\
  forall i j c,
    (i < length (rows image))%nat -> (j < ncols image)%nat -> (c < 3)%nat ->
    let p := pixel2 image i j in
    pixel3 out i j c = (- p) mod 256 /\
    (p = 0 -> pixel3 out i j c = 0) /\
    (p = 1 -> pixel3 out i j c = 255) /\
    (1 <= p <= 255 -> pixel3 out i j c = 256 - p).
Proof.
  intros Hwf out.
  split.
  { unfold wf3, out, to_3channel_binary; cbn [ncols3 nchan rows3].
    rewrite Forall_map. eapply Forall_impl; [| exact Hwf].
    intros r Hr. cbn beta. rewrite length_map. split; [exact Hr |].
    rewrite Forall_map. apply Forall_forall. intros; reflexivity. }
  split; [reflexivity |]. split; [reflexivity |].
  split; [unfold out, to_3channel_binary; cbn [rows3]; apply length_map |].
  intros i j c Hi Hj Hc p.
  assert (pixel3 out i j c = (- p) mod 256) as Hpix.
  { unfold pixel3, out, to_3channel_binary; cbn [rows3].
    rewrite nth_map_rows.
    assert (length (nth i (rows image) []) = ncols image) as Hrow.
    { unfold wf in Hwf. rewrite Forall_forall in Hwf.
      apply Hwf, nth_In, Hi. }
    rewrite (nth_map_in_range _ _ j 0 []) by (rewrite Hrow; exact Hj).
    fold (pixel2 image i j). fold p. rewrite times_255_wraps.
    destruct c as [| [| [| c]]]; try reflexivity. lia. }
  split; [exact Hpix |].
  rewrite Hpix.
  split; [intros ->; reflexivity |].
  split; [intros ->; reflexivity |].
  intro Hp. symmetry. apply (Z.mod_unique_pos _ _ (-1)); lia.
Qed.

Lemma to_3channel_binary_pixels_witness :
  let image := {| ncols := 3; rows := [[0; 1; 2]; [1; 0; 255]] |} in
  let out := to_3channel_binary image in
  wf3 out /\
  nchan out = 3%nat /\
  ncols3 out = ncols image /\
  length (rows3 out) = length (rows image) /\
  forall i j c,
    (i < length (rows image))%nat -> (j < ncols image)%nat -> (c < 3)%nat ->
    let p := pixel2 image i j in
    pixel3 out i j c = (- p) mod 256 /\
    (p = 0 -> pixel3 out i j c = 0) /\
    (p = 1 -> pixel3 out i j c = 255) /\
    (1 <= p <= 255 -> pixel3 out i j c = 256 - p).
Proof.
  apply (to_3channel_binary_pixels
           {| ncols := 3; rows := [[0; 1; 2]; [1; 0; 255]] |}).
  unfold wf. simpl. repeat constructor.
Defined.

Example to_3channel_binary_of_a_row :
  rows3 (to_3channel_binary {| ncols := 3; rows := [[0; 1; 2]] |})
  = [[[0; 0; 0]; [255; 255; 255]; [254; 254; 254]]].
Proof. reflexivity. Qed.

(** *** Images side by side *)

Lemma widths_app (pre post : list ndarray) :
  widths (pre ++ post) = (widths pre + widths post)%nat.
Proof.
  induction pre as [| a pre IH]; [reflexivity |].
  cbn [app widths fold_right] in *. fold (widths (pre ++ post)).
  fold (widths pre). rewrite IH. lia.
Qed.

Lemma wf_row (a : ndarray) (i : nat) :
  wf a -> (i < length (rows a))%nat -> length (nth i (rows a) []) = ncols a.
Proof.
  intros Hwf Hi. unfold wf in Hwf. rewrite Forall_forall in Hwf.
  apply Hwf, nth_In, Hi.
Qed.

Lemma merged_row_length (images : list ndarray) (h i : nat) :
  Forall wf images ->
  Forall (fun a => length (rows a) = h) images ->
  (i < h)%nat ->
  length (concat (map (fun a => nth i (rows a) []) images)) = widths images.
Proof.
  intros Hwf Hh Hi. induction images as [| a images IH]; [reflexivity |].
  inversion Hwf; inversion Hh; subst.
  cbn [map concat widths fold_right]. fold (widths images).
  rewrite length_app, IH by assumption.
  rewrite wf_row by (assumption || lia). reflexivity.
Qed.

Lemma slice_middle {A : Type} (pre mid post : list A) :
  slice (Some (Z.of_nat (length pre)))
        (Some (Z.of_nat (length pre) + Z.of_nat (length mid)))
        (pre ++ mid ++ post)
  = mid.
Proof.
  unfold slice; cbn [slice_start slice_stop].
  rewrite !length_app.
  rewrite !norm_bound_inside by lia.
  rewrite Nat2Z.id.
  replace (Z.to_nat (Z.of_nat (length pre) + Z.of_nat (length mid)
                     - Z.of_nat (length pre))) with (length mid) by lia.
  rewrite skipn_app, skipn_all, Nat.sub_diag. cbn [skipn app].
  rewrite firstn_app, firstn_all, Nat.sub_diag. cbn [firstn].
  apply app_nil_r.
Qed.

Lemma rows_by_index (rs : list (list Z)) :
  map (fun i => nth i rs []) (seq 0 (length rs)) = rs.
Proof.
  apply nth_ext with (d := []) (d' := []).
  - rewrite length_map, length_seq. reflexivity.
  - intros i Hi. rewrite length_map, length_seq in Hi.
    rewrite (nth_indep _ [] (nth O rs []))
      by (rewrite length_map, length_seq; exact Hi).
    rewrite (map_nth (fun i => nth i rs [])), seq_nth by exact Hi.
    reflexivity.
Qed.

Lemma merge_images_same_height (first : ndarray) (others : list ndarray) :
  Forall (fun a => length (rows a) = length (rows first)) others ->
  merge_images (first :: others)
  = OK {| ncols := widths (first :: others);
          rows := map (fun i => concat (map (fun a => nth i (rows a) [])
                                            (first :: others)))
                      (seq 0 (length (rows first))) |}.
Proof.
  intro Hh. unfold merge_images.
  assert (forallb (fun a => Nat.eqb (length (rows a)) (length (rows first)))
            others = true) as ->; [| reflexivity].
  apply forallb_forall. intros a Ha. rewrite Forall_forall in Hh.
  apply Nat.eqb_eq, Hh, Ha.
Qed.

(** X13. Rectangular images of one height, put side by side by
    [merge_images], give a rectangular image of that height whose width is
    the sum of the widths; each image can be read back from it: the columns
    from the total width of the images before it, as many as it has, are the
    image itself. *)
Theorem merge_images_round_trip (pre post : list ndarray) (x : ndarray) :
  Forall wf (pre ++ x :: post) ->
  Forall (fun a => length (rows a) = length (rows x)) (pre ++ x :: post) ->
  exists m,
    merge_images (pre ++ x :: post) = OK m /\
    wf m /\
    length (rows m) = length (rows x) /\
    ncols m = widths (pre ++ x :: post) /\
    slice2 None None
      (Some (Z.of_nat (widths pre)))
      (Some (Z.of_nat (widths pre) + Z.of_nat (ncols x))) m
    = x.
Proof.
  intros Hwf Hh.
  set (images := pre ++ x :: post) in *.
  set (h := length (rows x)) in *.
  assert (exists first others, images = first :: others) as (first & others & Hi).
  { unfold images. destruct pre; eexists; eexists; reflexivity. }
  assert (length (rows first) = h) as Hfirst.
  { rewrite Forall_forall in Hh. apply Hh. rewrite Hi. now left. }
  eexists. split.
  { rewrite Hi. apply merge_images_same_height.
    rewrite Hfirst. rewrite Hi in Hh. inversion Hh; assumption. }
  rewrite <- Hi, Hfirst. cbn [ncols rows].
  split.
  { unfold wf; cbn [ncols rows]. rewrite Forall_map.
    apply Forall_forall. intros i Hin. apply in_seq in Hin.
    apply (merged_row_length images h); (assumption || lia). }
  split; [rewrite length_map, length_seq; reflexivity |].
  split; [reflexivity |].
  unfold slice2, shape1; cbn [ncols rows slice_start slice_stop].
  assert (widths images = (widths pre + (ncols x + widths post))%nat) as Hw.
  { unfold images. rewrite widths_app. reflexivity. }
  rewrite Hw, !norm_bound_inside by lia.
  replace (Z.to_nat (Z.of_nat (widths pre) + Z.of_nat (ncols x)
                     - Z.of_nat (widths pre))) with (ncols x) by lia.
  destruct x as [wx rx]. cbn [ncols rows] in *. f_equal.
  rewrite slice_all, map_map.
  transitivity (map (fun i => nth i rx []) (seq 0 h));
    [| apply rows_by_index].
  apply map_ext_in. intros i Hin. apply in_seq in Hin.
  assert (Forall wf pre /\ wf {| ncols := wx; rows := rx |} /\ Forall wf post)
    as (Hwpre & Hwx & _).
  { unfold images in Hwf. apply Forall_app in Hwf. destruct Hwf as [H1 H2].
    inversion H2; auto. }
  assert (Forall (fun a => length (rows a) = h) pre) as Hhpre.
  { unfold images in Hh. apply Forall_app in Hh. tauto. }
  unfold images. rewrite map_app, concat_app. cbn [map concat rows].
  pose proof (merged_row_length pre h i Hwpre Hhpre ltac:(lia)) as Hpre.
  pose proof (wf_row {| ncols := wx; rows := rx |} i Hwx ltac:(cbn; lia))
    as Hmid.
  cbn [ncols rows] in Hmid. rewrite <- Hpre, <- Hmid.
  apply slice_middle.
Qed.

Lemma merge_images_round_trip_witness :
  let a := {| ncols := 2; rows := [[1; 2]; [3; 4]] |} in
  let x := {| ncols := 1; rows := [[5]; [6]] |} in
  let b := {| ncols := 2; rows := [[7; 8]; [9; 0]] |} in
  exists m,
    merge_images ([a] ++ x :: [b]) = OK m /\
    wf m /\
    length (rows m) = length (rows x) /\
    ncols m = widths ([a] ++ x :: [b]) /\
    slice2 None None
      (Some (Z.of_nat (widths [a])))
      (Some (Z.of_nat (widths [a]) + Z.of_nat (ncols x))) m
    = x.
Proof.
  apply (merge_images_round_trip
           [{| ncols := 2; rows := [[1; 2]; [3; 4]] |}]
           [{| ncols := 2; rows := [[7; 8]; [9; 0]] |}]
           {| ncols := 1; rows := [[5]; [6]] |}).
  - unfold wf. simpl. repeat constructor.
  - simpl. repeat constructor.
Defined.

(** *** The histogram function *)

Lemma total_zip_add (r acc : list Z) :
  length r = length acc -> total (zip_add r acc) = total r + total acc.
Proof.
  revert acc; induction r as [| x r IH]; intros [| y acc]; simpl;
    try discriminate; [reflexivity |].
  intro H. unfold total in *. cbn [fold_right]. rewrite IH by lia. lia.
Qed.

Lemma total_repeat_zero (w : nat) : total (repeat 0 w) = 0.
Proof. induction w as [| w IH]; [reflexivity |]. unfold total in *. simpl. lia. Qed.

Lemma total_sum_rows (w : nat) (rs : list (list Z)) :
  Forall (fun r => length r = w) rs ->
  total (fold_right zip_add (repeat 0 w) rs) = total (map total rs).
Proof.
  induction 1 as [| r rs Hr Hrs IH]; cbn [fold_right map].
  - apply total_repeat_zero.
  - rewrite total_zip_add by (rewrite sum_rows_length; assumption).
    rewrite IH. reflexivity.
Qed.

(** X15. [Graph.histogram] computes the histogram that the tracker computes
    inline. On a rectangular image it has one entry per column; its entries
    add up to the sum of all pixels of the rows [H//2 .. H-1], and with
    pixels in [0 .. v] each entry lies between 0 and [v] times the number of
    those rows. *)
Theorem histogram_mass (image : ndarray) (v : Z) :
  wf image ->
  0 <= v ->
  bounded_pixels image v ->
  let bottom := skipn (length (rows image) / 2) (rows image) in
  Img.histogram image = Graph.histogram image /\
  length (Img.histogram image) = ncols image /\
  total (Img.histogram image) = total (map total bottom) /\
  length bottom = (length (rows image) - length (rows image) / 2)%nat /\
  forall j, 0 <= nth j (Img.histogram image) 0
            <= v * Z.of_nat (length bottom).
Proof.
  intros Hwf Hv Hb bottom.
  split; [reflexivity |].
  change (Img.histogram image) with (Graph.histogram image).
  split; [apply HistogramFacts.histogram_length, Hwf |].
  assert (Forall (fun r => length r = ncols image) bottom) as Hbottom.
  { apply Forall_forall. intros r Hr. apply In_skipn in Hr.
    unfold wf in Hwf. rewrite Forall_forall in Hwf. apply Hwf, Hr. }
  split.
  { unfold Graph.histogram, sum_axis0.
    rewrite HistogramFacts.histogram_rows. fold bottom.
    unfold slice2, shape1; cbn [ncols slice_start slice_stop].
    rewrite Z.sub_0_r, Nat2Z.id. apply total_sum_rows, Hbottom. }
  split; [unfold bottom; apply length_skipn |].
  intro j. unfold Graph.histogram.
  rewrite sum_axis0_nth by (apply slice2_wf, Hwf).
  rewrite HistogramFacts.histogram_rows. fold bottom.
  apply FrameFacts.column_total_bounds; [exact Hv |].
  apply Forall_forall. intros r Hr. apply In_skipn in Hr.
  unfold bounded_pixels in Hb. rewrite Forall_forall in Hb. apply Hb, Hr.
Qed.

Lemma histogram_mass_witness :
  let image := {| ncols := 3; rows := [[9; 9; 9]; [0; 1; 1]; [1; 0; 1]] |} in
  let bottom := skipn (length (rows image) / 2) (rows image) in
  Img.histogram image = Graph.histogram image /\
  length (Img.histogram image) = ncols image /\
  total (Img.histogram image) = total (map total bottom) /\
  length bottom = (length (rows image) - length (rows image) / 2)%nat /\
  forall j, 0 <= nth j (Img.histogram image) 0
            <= 9 * Z.of_nat (length bottom).
Proof.
  apply (histogram_mass
           {| ncols := 3; rows := [[9; 9; 9]; [0; 1; 1]; [1; 0; 1]] |} 9).
  - unfold wf. simpl. repeat constructor.
  - lia.
  - apply FrameFacts.bounded_pixels_decide. reflexivity.
Defined.

End ImgFacts.

(** ** The regions of the perspective transform *)

Module GeometryFacts.
Import Graph Spec Geometry.

(** The double-precision products, truncated, for every side up to
    [max_side], by evaluation. *)
Lemma scaled_table :
  forallb scaled_as_divisions (range (max_side + 1)) = true.
Proof. vm_compute. reflexivity. Qed.

Lemma scaled_values (n : Z) :
  0 <= n <= max_side ->
  scaled (left_coef DESTINATION_COEFFS) n = Some (n / 6) /\
  scaled (right_coef DESTINATION_COEFFS) n = Some (below 5 6 n) /\
  scaled Y_BOTTOM_COEF n = Some n /\
  scaled LEFT_X_BOTTOM_COEF n = Some (n / 7) /\
  scaled RIGHT_X_BOTTOM_COEF n = Some (below 6 7 n) /\
  scaled LEFT_X_TOP_COEF n = Some (n * 9 / 20) /\
  scaled RIGHT_X_TOP_COEF n = Some (n * 11 / 20) /\
  scaled Y_TOP_COEF n = Some (n * 9 / 14).
Proof.
  intro Hn. pose proof scaled_table as Ht.
  rewrite forallb_forall in Ht.
  assert (In n (range (max_side + 1))) as Hin
    by (apply BandFacts.range_In; lia).
  specialize (Ht n Hin). unfold scaled_as_divisions in Ht.
  destruct (scaled (left_coef DESTINATION_COEFFS) n); [| discriminate].
  destruct (scaled (right_coef DESTINATION_COEFFS) n); [| discriminate].
  destruct (scaled Y_BOTTOM_COEF n); [| discriminate].
  destruct (scaled LEFT_X_BOTTOM_COEF n); [| discriminate].
  destruct (scaled RIGHT_X_BOTTOM_COEF n); [| discriminate].
  destruct (scaled LEFT_X_TOP_COEF n); [| discriminate].
  destruct (scaled RIGHT_X_TOP_COEF n); [| discriminate].
  destruct (scaled Y_TOP_COEF n); [| discriminate].
  repeat (apply andb_prop in Ht; destruct Ht as [Ht ?]).
  repeat split; f_equal; lia.
Qed.

Lemma below_bounds (num den n : Z) :
  0 < num < den -> 0 <= n ->
  0 <= below num den n /\ (0 < n -> below num den n < n) /\
  n * num - den <= den * below num den n < n * num \/ n = 0 /\ below num den n = 0.
Proof.
  intros Hq Hn. unfold below.
  pose proof (Z.div_mod (n * num) den). pose proof (Z.mod_pos_bound (n * num) den).
  destruct (Z.ltb_spec 0 n); cbn [andb].
  - left. destruct (Z.eqb_spec (n * num mod den) 0); nia.
  - right. assert (n = 0) as -> by lia. simpl. auto.
Qed.

(** X16. For every image of up to 4096 by 4096 pixels, the destination region
    is the rectangle with the corners [(r, 0)], [(r, H)], [(l, H)], [(l, 0)],
    in that order, where [l = W // 6] and [r] is the largest integer below
    [5 * W / 6]: the products with the two decimal constants, truncated, are
    these integer divisions. The rectangle spans the whole height, down to
    row [H], and lies inside the width. *)
Theorem destination_rectangle (ysize xsize : Z) :
  0 <= ysize <= max_side ->
  0 <= xsize <= max_side ->
  let l := xsize / 6 in
  let r := below 5 6 xsize in
  destination_vertices (ysize, xsize)
    = Some [(r, 0); (r, ysize); (l, ysize); (l, 0)] /\
  0 <= l /\ 0 <= r <= xsize /\
  (2 <= xsize -> l < r < xsize) /\
  (0 < xsize -> 5 * xsize - 6 <= 6 * r < 5 * xsize).
Proof.
  intros Hy Hx l r.
  destruct (scaled_values xsize Hx) as (Hl & Hr & _).
  destruct (scaled_values ysize Hy) as (_ & _ & Hb & _).
  split.
  { unfold destination_vertices.
    change (bottom_line_coef DESTINATION_COEFFS) with Y_BOTTOM_COEF.
    rewrite Hl, Hr, Hb. reflexivity. }
  pose proof (Z.div_mod xsize 6). pose proof (Z.mod_pos_bound xsize 6).
  destruct (below_bounds 5 6 xsize) as [(Hb0 & Hb1 & Hb2) | [Hb1 Hb2]];
    [lia | lia | |]; fold r in Hb2; unfold l.
  - fold r in Hb0, Hb1. repeat split; lia.
  - subst xsize. rewrite Hb2. simpl. lia.
Qed.

Lemma destination_rectangle_witness :
  let l := 1280 / 6 in
  let r := below 5 6 1280 in
  destination_vertices (720, 1280)
    = Some [(r, 0); (r, 720); (l, 720); (l, 0)] /\
  0 <= l /\ 0 <= r <= 1280 /\
  (2 <= 1280 -> l < r < 1280) /\
  (0 < 1280 -> 5 * 1280 - 6 <= 6 * r < 5 * 1280).
Proof.
  apply (destination_rectangle 720 1280); unfold max_side; lia.
Defined.

(** X17. For every image of up to 4096 by 4096 pixels, the source region is
    the trapezoid with the corners [(rt, up)], [(r, H)], [(l, H)],
    [(lt, up)], in that order, where [l = W // 7], [lt = 9 * W // 20],
    [rt = 11 * W // 20], [up = 9 * H // 14] and [r] is the largest integer
    below [6 * W / 7]. Its top side is not above its bottom side, and its top
    corners lie between its bottom corners, inside the width. *)
Theorem source_trapezoid (ysize xsize : Z) :
  0 <= ysize <= max_side ->
  0 <= xsize <= max_side ->
  let l := xsize / 7 in
  let lt := xsize * 9 / 20 in
  let rt := xsize * 11 / 20 in
  let r := below 6 7 xsize in
  let up := ysize * 9 / 14 in
  vertices (ysize, xsize) None
    = Some [(rt, up); (r, ysize); (l, ysize); (lt, up)] /\
  vertices (ysize, xsize) (Some SOURCE_COEFFS) = vertices (ysize, xsize) None /\
  0 <= up <= ysize /\
  0 <= l <= lt /\ lt <= rt /\ rt <= xsize /\ r <= xsize /\
  (7 <= xsize -> rt <= r).
Proof.
  intros Hy Hx l lt rt r up.
  destruct (scaled_values xsize Hx) as (_ & _ & _ & Hl & Hr & Hlt & Hrt & _).
  destruct (scaled_values ysize Hy) as (_ & _ & Hb & _ & _ & _ & _ & Hup).
  assert (vertices (ysize, xsize) None
          = Some [(rt, up); (r, ysize); (l, ysize); (lt, up)]) as Hv.
  { unfold vertices.
    change (right_top_coef SOURCE_COEFFS) with RIGHT_X_TOP_COEF.
    change (up_line_coef SOURCE_COEFFS) with Y_TOP_COEF.
    change (right_coef SOURCE_COEFFS) with RIGHT_X_BOTTOM_COEF.
    change (bottom_line_coef SOURCE_COEFFS) with Y_BOTTOM_COEF.
    change (left_coef SOURCE_COEFFS) with LEFT_X_BOTTOM_COEF.
    change (left_top_coef SOURCE_COEFFS) with LEFT_X_TOP_COEF.
    rewrite Hl, Hr, Hlt, Hrt, Hb, Hup. reflexivity. }
  split; [exact Hv |]. split; [reflexivity |].
  pose proof (Z.div_mod (ysize * 9) 14). pose proof (Z.mod_pos_bound (ysize * 9) 14).
  pose proof (Z.div_mod xsize 7). pose proof (Z.mod_pos_bound xsize 7).
  pose proof (Z.div_mod (xsize * 9) 20). pose proof (Z.mod_pos_bound (xsize * 9) 20).
  pose proof (Z.div_mod (xsize * 11) 20). pose proof (Z.mod_pos_bound (xsize * 11) 20).
  unfold up, l, lt, rt.
  destruct (below_bounds 6 7 xsize) as [(Hb0 & Hb1 & Hb2) | [Hb1 Hb2]];
    [lia | lia | |]; fold r in Hb2.
  - fold r in Hb0, Hb1. repeat split; lia.
  - rewrite Hb2. repeat split; lia.
Qed.

Lemma source_trapezoid_witness :
  let l := 1280 / 7 in
  let lt := 1280 * 9 / 20 in
  let rt := 1280 * 11 / 20 in
  let r := below 6 7 1280 in
  let up := 720 * 9 / 14 in
  vertices (720, 1280) None
    = Some [(rt, up); (r, 720); (l, 720); (lt, up)] /\
  vertices (720, 1280) (Some SOURCE_COEFFS) = vertices (720, 1280) None /\
  0 <= up <= 720 /\
  0 <= l <= lt /\ lt <= rt /\ rt <= 1280 /\ r <= 1280 /\
  (7 <= 1280 -> rt <= r).
Proof.
  apply (source_trapezoid 720 1280); unfold max_side; lia.
Defined.

(** The regions of a 1280 by 720 frame. *)
Example regions_of_a_frame :
  vertices (720, 1280) None
    = Some [(704, 462); (1097, 720); (182, 720); (576, 462)] /\
  destination_vertices (720, 1280)
    = Some [(1066, 0); (1066, 720); (213, 720); (213, 0)].
Proof. vm_compute. split; reflexivity. Qed.

End GeometryFacts.

(** ** Frames of a static scene *)

Module SceneFacts.
Import Np NpFacts Graph Spec Masks Conditions.

(** X18. Tracking a mask again with the bases that its first-frame run
    located changes nothing: the validation keeps both bases, and the frame
    gives the result of the first run, a raised exception included. *)
Theorem same_mask_same_frame (bw : ndarray) (lb rb : Z) :
  locate_bases bw None None = OK (lb, rb) ->
  locate_bases bw (Some lb) (Some rb) = OK (lb, rb) /\
  find_lane_pixels bw (Some lb) (Some rb) = find_lane_pixels bw None None.
Proof.
  intro Hloc.
  assert (peaks bw = OK (lb, rb)) as Hp.
  { unfold locate_bases in Hloc. destruct (peaks bw) as [[nl nr] |];
      [exact Hloc | discriminate]. }
  assert (locate_bases bw (Some lb) (Some rb) = OK (lb, rb)) as Hagain.
  { rewrite (BaseFacts.locate_bases_unfold _ _ _ _ _ Hp).
    cbn [validate_right validate_left bind].
    destruct (drifted lb rb); destruct (drifted lb lb); reflexivity. }
  split; [exact Hagain |].
  unfold find_lane_pixels. rewrite Hagain, Hloc. reflexivity.
Qed.

Lemma same_mask_same_frame_witness :
  locate_bases (band_mask 180 400 [50] 255) (Some 50) (Some 200)
    = OK (50, 200) /\
  find_lane_pixels (band_mask 180 400 [50] 255) (Some 50) (Some 200)
    = find_lane_pixels (band_mask 180 400 [50] 255) None None.
Proof.
  apply (same_mask_same_frame (band_mask 180 400 [50] 255) 50 200).
  vm_compute. reflexivity.
Defined.

(** *** Two bright bands *)

Lemma column_total_const (k : nat) (rs : list (list Z)) (c : Z) :
  (forall r, In r rs -> nth k r 0 = c) ->
  column_total k rs = c * Z.of_nat (length rs).
Proof.
  induction rs as [| r rs IH]; intro H.
  - simpl. lia.
  - cbn [column_total fold_right length]. fold (column_total k rs).
    rewrite IH by (intros; apply H; now right).
    rewrite (H r) by now left. lia.
Qed.

Lemma banded_row (bw : ndarray) (cols : list Z) (v : Z) (r : list Z) (j : Z) :
  banded bw cols v -> In r (rows bw) -> 0 <= j < shape1 bw ->
  get r j = if existsb (Z.eqb j) cols then v else 0.
Proof.
  intros Hb Hr Hj. unfold banded in Hb. rewrite Forall_forall in Hb.
  apply (Hb r Hr j Hj).
Qed.

(** The column sums of a region of a banded mask. *)
Lemma area_hist_banded (bw : ndarray) (cols : list Z)
    (v y_low y_high x_low x_high j : Z) :
  wf bw -> banded bw cols v ->
  0 <= y_low <= y_high -> y_high <= shape0 bw ->
  0 <= x_low ->
  0 <= j < Z.of_nat (length (area_hist bw y_low y_high x_low x_high)) ->
  get (area_hist bw y_low y_high x_low x_high) j
  = (if existsb (Z.eqb (x_low + j)) cols then v else 0) * (y_high - y_low).
Proof.
  intros Hwf Hb Hy HyH Hx Hj.
  pose proof Hj as Hlen. rewrite BandFacts.area_hist_length in Hlen by exact Hwf.
  assert (0 <= shape1 bw) as HW0 by (unfold shape1; lia).
  assert (x_low + j < shape1 bw /\ norm_bound (shape1 bw) x_low = x_low)
    as [HjW Hstart].
  { pose proof (norm_bound_range (shape1 bw) x_high HW0).
    unfold norm_bound in *. destruct (Z.ltb_spec x_low 0); lia. }
  unfold get, area_hist.
  rewrite sum_axis0_nth by (apply slice2_wf, Hwf).
  unfold slice2; cbn [rows].
  rewrite (column_total_const _ _
             (if existsb (Z.eqb (x_low + j)) cols then v else 0)).
  - rewrite length_map, slice_length. cbn [slice_start slice_stop].
    fold (shape0 bw). rewrite !norm_bound_inside by lia. f_equal. lia.
  - intros r' Hr'. apply in_map_iff in Hr'. destruct Hr' as (r & <- & Hr).
    apply In_slice in Hr.
    assert (length r = ncols bw) as Hrow.
    { unfold wf in Hwf. rewrite Forall_forall in Hwf. apply Hwf, Hr. }
    rewrite slice_nth.
    + cbn [slice_start]. rewrite Hrow. fold (shape1 bw). rewrite Hstart.
      rewrite <- Z2Nat.inj_add by lia.
      apply (banded_row bw cols v r (x_low + j) Hb Hr). lia.
    + rewrite slice_length, Hrow. cbn [slice_start slice_stop].
      fold (shape1 bw). lia.
Qed.

Lemma detect_single_column (hist : list Z) (low c : Z) :
  0 < c < Z.of_nat (length hist) ->
  (forall j, 0 <= j < Z.of_nat (length hist) -> j <> c ->
             get hist j < get hist c) ->
  min_pixels < get hist c ->
  x_index <- detect hist low ;; OK (reject_low x_index low)
  = OK (Some (c + low)).
Proof.
  intros Hc Hpeak Hmass.
  assert (argmax hist = OK c) as Ha by (apply argmax_unique_peak; [lia | exact Hpeak]).
  pose proof (argmax_spec _ _ Ha) as (_ & Hm & _).
  unfold detect. rewrite Hm. cbn [bind].
  destruct (Z.ltb_spec min_pixels (get hist c)); [| lia].
  rewrite Ha. cbn [bind reject_low].
  destruct (Z.eqb_spec (c + low) low); [lia | reflexivity].
Qed.

Section TwoBands.

Variables (bw : ndarray) (v cl cr : Z).
Hypothesis Hwf : wf bw.
Hypothesis HW : 2 * margin <= shape1 bw.
Hypothesis Hbands : banded bw [cl; cr] v.
Hypothesis Hmass : min_pixels < v * window_height bw.
Hypothesis Hcl : 1 <= cl < shape1 bw / 2.
Hypothesis Hcr : shape1 bw / 2 <= cr < shape1 bw.
Hypothesis Hapart : margin < cr - cl.

Lemma lit_columns (x : Z) :
  existsb (Z.eqb x) [cl; cr] = (x =? cl) || (x =? cr).
Proof. cbn [existsb]. rewrite orb_false_r. reflexivity. Qed.

Lemma two_bands_found (window : Z) (st : tracker) :
  0 <= window < nwindows ->
  leftx_current st = cl -> rightx_current st = cr ->
  finds bw window st = OK (Some cl, Some cr).
Proof.
  intros Hw Hl Hr. unfold finds, candidates. rewrite Hl, Hr.
  set (w := window_bounds bw window cl cr).
  destruct (BandFacts.band_rows bw window cl cr Hw) as [Hlow Hhigh].
  fold w in Hlow, Hhigh.
  destruct (BandFacts.window_height_bounds bw) as (Hh & H15 & _).
  assert (0 <= win_y_low w <= win_y_high w /\ win_y_high w <= shape0 bw
          /\ win_y_high w - win_y_low w = window_height bw) as (Hy & HyH & Hrows)
    by (rewrite Hlow, Hhigh; unfold nwindows in *; nia).
  assert (0 <= shape1 bw) as HW0 by (unfold shape1; lia).
  assert (100 <= shape1 bw / 2) as Hmid
    by (apply Z.div_le_lower_bound; unfold margin in HW; lia).
  assert (0 < v) as Hv by (unfold min_pixels in Hmass; nia).
  assert (forall x_low x_high c,
            0 <= x_low -> x_low < c -> c < x_high -> c < shape1 bw ->
            (c = cl \/ c = cr) ->
            (forall x, x_low <= x < x_high -> x <> c -> x <> cl /\ x <> cr) ->
            x_index <- detect (area_hist bw (win_y_low w) (win_y_high w)
                                 x_low x_high) x_low ;;
            OK (reject_low x_index x_low)
            = OK (Some c)) as Hside.
  { intros x_low x_high c Hx0 Hxc Hcx HcW Hlit Hother.
    set (hist := area_hist bw (win_y_low w) (win_y_high w) x_low x_high).
    assert (Z.of_nat (length hist)
            = Z.min x_high (shape1 bw) - x_low) as Hlen.
    { unfold hist. rewrite BandFacts.area_hist_length by exact Hwf.
      unfold norm_bound.
      destruct (Z.ltb_spec x_low 0); destruct (Z.ltb_spec x_high 0); lia. }
    assert (forall j, 0 <= j < Z.of_nat (length hist) ->
              get hist j
              = (if existsb (Z.eqb (x_low + j)) [cl; cr] then v else 0)
                * window_height bw) as Hget.
    { intros j Hj. unfold hist. rewrite <- Hrows.
      apply area_hist_banded; assumption. }
    replace (Some c) with (Some (c - x_low + x_low)) by (f_equal; ring).
    apply detect_single_column.
    - lia.
    - intros j Hj Hjc. rewrite !Hget by lia. rewrite !lit_columns.
      replace (x_low + (c - x_low)) with c by ring.
      destruct (Hother (x_low + j)) as [H1 H2]; [lia | lia |].
      destruct (Z.eqb_spec (x_low + j) cl); [contradiction |].
      destruct (Z.eqb_spec (x_low + j) cr); [contradiction |].
      assert ((c =? cl) || (c =? cr) = true) as ->.
      { destruct Hlit as [-> | ->]; rewrite Z.eqb_refl;
          [reflexivity | apply orb_true_r]. }
      cbn [orb]. unfold min_pixels in Hmass. nia.
    - rewrite Hget by lia. rewrite lit_columns.
      replace (x_low + (c - x_low)) with c by ring.
      assert ((c =? cl) || (c =? cr) = true) as ->.
      { destruct Hlit as [-> | ->]; rewrite Z.eqb_refl;
          [reflexivity | apply orb_true_r]. }
      exact Hmass. }
  assert (x_index <- detect (area_hist bw (win_y_low w) (win_y_high w)
                               (win_xleft_low w) (win_xleft_high w))
                       (win_xleft_low w) ;;
          OK (reject_low x_index (win_xleft_low w)) = OK (Some cl)) as HL.
  { apply Hside; unfold w, window_bounds, margin in *;
      cbn [win_xleft_low win_xleft_high];
      destruct (Z.ltb_spec (cl - 100) 0); try lia; auto;
      intros x Hx Hne; lia. }
  assert (x_index <- detect (area_hist bw (win_y_low w) (win_y_high w)
                               (win_xright_low w) (win_xright_high w))
                       (win_xright_low w) ;;
          OK (reject_low x_index (win_xright_low w)) = OK (Some cr)) as HR.
  { apply Hside; unfold w, window_bounds, margin in *;
      cbn [win_xright_low win_xright_high]; try lia; auto;
      intros x Hx Hne; lia. }
  destruct (detect _ (win_xleft_low w)) as [l |]; [| discriminate HL].
  destruct (detect _ (win_xright_low w)) as [r |]; [| discriminate HR].
  cbn [bind] in *.
  assert (reject_low l (win_xleft_low w) = Some cl) as -> by congruence.
  assert (reject_low r (win_xright_low w) = Some cr) as -> by congruence.
  reflexivity.
Qed.

Lemma two_bands_run (windows : list Z) :
  Forall (fun window => 0 <= window < nwindows) windows ->
  forall st,
    leftx_current st = cl -> rightx_current st = cr ->
    exists st',
      run_windows bw windows st = OK st' /\
      lane_dist_hist st'
        = lane_dist_hist st ++ repeat (cr - cl) (length windows) /\
      left_lane_points st'
        = left_lane_points st
          ++ map (fun window => (cl, band_mid_y bw window)) windows /\
      right_lane_points st'
        = right_lane_points st
          ++ map (fun window => (cr, band_mid_y bw window)) windows /\
      (forall window s, In (window, s) (visited bw windows st) ->
         finds bw window s = OK (Some cl, Some cr)).
Proof.
  induction 1 as [| w rest Hw _ IH]; intros st Hl Hr.
  - exists st. cbn. rewrite !app_nil_r. repeat split. intros window s [].
  - pose proof (two_bands_found w st Hw Hl Hr) as Hf.
    pose proof (TrackerFacts.finds_window_step _ _ _ _ _ Hf) as Hstep.
    set (st1 := recenter (window_bounds bw w (leftx_current st)
                            (rightx_current st)) (Some cl) (Some cr) st)
      in Hstep.
    destruct (IH st1) as (st' & Hrun & Hh & Hpl & Hpr & Hvis);
      [reflexivity .. |].
    exists st'. split.
    { cbn [run_windows]. rewrite Hstep. exact Hrun. }
    rewrite Hh, Hpl, Hpr. unfold st1 at 1 2 3. cbn.
    rewrite <- !app_assoc. repeat split.
    intros window s Hin. rewrite Hstep in Hin.
    destruct Hin as [Heq | Hin].
    + injection Heq as <- <-. exact Hf.
    + apply Hvis, Hin.
Qed.

Lemma two_bands_histogram (j : Z) :
  rows bw <> [] ->
  0 <= j < shape1 bw ->
  get (histogram bw) j
  = (if (j =? cl) || (j =? cr) then v else 0)
    * Z.of_nat (length (rows bw) - length (rows bw) / 2) /\
  (0 < length (rows bw) - length (rows bw) / 2)%nat.
Proof.
  intros Hne Hj. split.
  - unfold get, histogram.
    rewrite sum_axis0_nth by (apply slice2_wf, Hwf).
    rewrite HistogramFacts.histogram_rows.
    rewrite (column_total_const _ _ (if (j =? cl) || (j =? cr) then v else 0)).
    + rewrite length_skipn. reflexivity.
    + intros r Hr. apply In_skipn in Hr. rewrite <- lit_columns.
      apply (banded_row bw [cl; cr] v r j Hbands Hr Hj).
  - destruct (rows bw) as [| r rs]; [congruence |].
    pose proof (Nat.div_lt (length (r :: rs)) 2). cbn [length] in *. lia.
Qed.

Lemma two_bands_peaks : rows bw <> [] -> peaks bw = OK (cl, cr).
Proof.
  intro Hne.
  assert (0 < v) as Hv.
  { destruct (BandFacts.window_height_bounds bw) as (Hh & _).
    unfold min_pixels in Hmass. nia. }
  assert (Z.of_nat (length (histogram bw)) = shape1 bw) as Hlen.
  { rewrite HistogramFacts.histogram_length by exact Hwf. reflexivity. }
  assert (midpoint_of (histogram bw) = shape1 bw / 2) as Hmid.
  { unfold midpoint_of. rewrite Hlen. reflexivity. }
  set (mid := shape1 bw / 2) in *.
  assert (forall j, 0 <= j < shape1 bw -> j <> cl -> j <> cr ->
            get (histogram bw) j = 0) as Hdark.
  { intros j Hj H1 H2. destruct (two_bands_histogram j Hne Hj) as [-> _].
    destruct (Z.eqb_spec j cl); [contradiction |].
    destruct (Z.eqb_spec j cr); [contradiction |]. reflexivity. }
  assert (forall c, c = cl \/ c = cr -> 0 < get (histogram bw) c) as Hlit.
  { intros c Hc.
    destruct (two_bands_histogram c Hne) as [-> Hpos];
      [destruct Hc as [-> | ->]; lia |].
    assert ((c =? cl) || (c =? cr) = true) as ->.
    { destruct Hc as [-> | ->]; rewrite Z.eqb_refl;
        [reflexivity | apply orb_true_r]. }
    nia. }
  destruct (HistogramFacts.left_half_get (histogram bw) mid 0) as [HlenL _];
    [lia |].
  destruct (HistogramFacts.right_half_get (histogram bw) mid 0) as [HlenR _];
    [lia |].
  unfold peaks. rewrite Hmid.
  rewrite (argmax_unique_peak _ cl).
  - rewrite (argmax_unique_peak _ (cr - mid)).
    + cbn [bind]. do 2 f_equal. ring.
    + rewrite HlenR, Hlen. unfold mid in *. lia.
    + intros j Hj Hjc. rewrite HlenR in Hj.
      destruct (HistogramFacts.right_half_get (histogram bw) mid j) as [_ ->];
        [lia | | lia].
      destruct (HistogramFacts.right_half_get (histogram bw) mid (cr - mid))
        as [_ ->]; [lia | | lia].
      replace (cr - mid + mid) with cr by ring.
      rewrite Hdark by lia. apply Hlit. now right.
  - rewrite HlenL. unfold mid in *. lia.
  - intros j Hj Hjc. rewrite HlenL in Hj.
    destruct (HistogramFacts.left_half_get (histogram bw) mid j) as [_ ->];
      [lia | | lia].
    destruct (HistogramFacts.left_half_get (histogram bw) mid cl) as [_ ->];
      [lia | | lia].
    rewrite Hdark by lia. apply Hlit. now left.
Qed.

End TwoBands.

Lemma average_repeat (x : Z) (n : nat) :
  (average (repeat x (S n)) == inject_Z x)%Q.
Proof.
  unfold average. rewrite repeat_length.
  assert (total (repeat x (S n)) = x * Z.of_nat (S n)) as ->.
  { generalize (S n) as k. induction k as [| k IH]; [simpl; lia |].
    unfold total in *. cbn [repeat fold_right]. rewrite IH. lia. }
  change (x * Z.of_nat (S n) # 1) with (inject_Z (x * Z.of_nat (S n))).
  change (Z.of_nat (S n) # 1) with (inject_Z (Z.of_nat (S n))).
  rewrite inject_Z_mult. apply Qdiv_mult_l.
  unfold Qeq, inject_Z; cbn [Qnum Qden]. lia.
Qed.

(** X19. A mask that meets the input contract and holds two full-height
    bands of value [v], one in a column [cl >= 1] of the left half and one in
    a column [cr] of the right half, more than [margin] columns apart and
    bright enough for a band ([v * (H // 15) > 2550]), is tracked exactly on
    a first frame: the bases are [cl] and [cr], every band finds both
    columns, the 15 points of each side lie in its column at the middle rows
    of the bands, and the average width is [cr - cl]. *)
Theorem two_bands_tracked (bw : ndarray) (v cl cr : Z) :
  contract bw ->
  banded bw [cl; cr] v ->
  min_pixels < v * window_height bw ->
  1 <= cl < shape1 bw / 2 ->
  shape1 bw / 2 <= cr < shape1 bw ->
  margin < cr - cl ->
  exists px,
    find_lane_pixels bw None None = OK px /\
    leftx_base px = cl /\
    rightx_base px = cr /\
    left_points px
      = map (fun window => (cl, band_mid_y bw window)) (range nwindows) /\
    right_points px
      = map (fun window => (cr, band_mid_y bw window)) (range nwindows) /\
    (avg_lane_dist px == inject_Z (cr - cl))%Q /\
    (forall window st,
       In (window, st) (visited bw (range nwindows) (init_tracker cl cr)) ->
       finds bw window st = OK (Some cl, Some cr)).
Proof.
  intros (Hwf & HH & HW) Hb Hmass Hcl Hcr Hapart.
  assert (rows bw <> []) as Hne.
  { unfold shape0, nwindows in HH. destruct (rows bw); [simpl in HH; lia |].
    discriminate. }
  pose proof (two_bands_peaks bw v cl cr Hwf Hb Hmass Hcl Hcr Hne) as Hp.
  destruct (two_bands_run bw v cl cr Hwf HW Hb Hmass Hcl Hcr Hapart
              (range nwindows)) with (st := init_tracker cl cr)
    as (st' & Hrun & Hh & Hpl & Hpr & Hvis); try reflexivity.
  { apply Forall_forall. intros w Hw. apply BandFacts.range_In, Hw. }
  eexists. split.
  { unfold find_lane_pixels.
    rewrite (BaseFacts.locate_bases_unfold _ _ _ _ _ Hp).
    cbn [validate_right validate_left bind]. rewrite Hrun. reflexivity. }
  cbn [leftx_base rightx_base left_points right_points avg_lane_dist].
  split; [reflexivity |]. split; [reflexivity |].
  split; [exact Hpl |]. split; [exact Hpr |].
  split.
  { rewrite Hh. cbn [init_tracker lane_dist_hist].
    change ([cr - cl] ++ repeat (cr - cl) (length (range nwindows)))
      with (repeat (cr - cl) 16).
    apply average_repeat. }
  exact Hvis.
Qed.

Lemma band_row_get (width : nat) (cols : list Z) (v j : Z) :
  0 <= j < Z.of_nat width ->
  get (band_row width cols v) j = if existsb (Z.eqb j) cols then v else 0.
Proof.
  intro Hj. unfold get, band_row.
  set (f := fun x : Z => if existsb (Z.eqb x) cols then v else 0).
  rewrite (nth_indep _ 0 (f 0))
    by (rewrite length_map, TrackerFacts.range_length; lia).
  rewrite (map_nth f), BandFacts.range_nth by exact Hj. reflexivity.
Qed.

Lemma band_mask_banded (height width : nat) (cols : list Z) (v : Z) :
  banded (band_mask height width cols v) cols v.
Proof.
  unfold banded, band_mask, shape1; cbn [rows ncols].
  apply Forall_forall. intros r Hr. apply repeat_spec in Hr. subst r.
  intros j Hj. apply band_row_get, Hj.
Qed.

Lemma two_bands_tracked_witness :
  let bw := band_mask 180 400 [50; 300] 255 in
  exists px,
    find_lane_pixels bw None None = OK px /\
    leftx_base px = 50 /\
    rightx_base px = 300 /\
    left_points px
      = map (fun window => (50, band_mid_y bw window)) (range nwindows) /\
    right_points px
      = map (fun window => (300, band_mid_y bw window)) (range nwindows) /\
    (avg_lane_dist px == inject_Z (300 - 50))%Q /\
    (forall window st,
       In (window, st) (visited bw (range nwindows) (init_tracker 50 300)) ->
       finds bw window st = OK (Some 50, Some 300)).
Proof.
  apply (two_bands_tracked (band_mask 180 400 [50; 300] 255) 255 50 300).
  - apply TrackerFacts.band_mask_contract; lia.
  - apply band_mask_banded.
  - vm_compute. reflexivity.
  - vm_compute. split; [discriminate | reflexivity].
  - vm_compute. split; [discriminate | reflexivity].
  - vm_compute. reflexivity.
Defined.

(** *** One bright band and an empty right half *)

(** A window without a lit column finds nothing. *)
Lemma detect_dark (hist : list Z) (low : Z) :
  hist <> [] ->
  (forall j, 0 <= j < Z.of_nat (length hist) -> get hist j = 0) ->
  detect hist low = OK None.
Proof.
  intros Hne Hdark. unfold detect.
  destruct (amax_returns hist Hne) as [m Hm]. rewrite Hm. cbn [bind].
  destruct (amax_argmax _ _ Hm) as (i & Hi & Hget).
  apply argmax_spec in Hi. destruct Hi as (Hir & _).
  rewrite Hdark in Hget by exact Hir. subst m. reflexivity.
Qed.

Section LeftBand.

Variables (bw : ndarray) (v cl : Z).
Hypothesis Hwf : wf bw.
Hypothesis HW : 2 * margin <= shape1 bw.
Hypothesis Hband : banded bw [cl] v.
Hypothesis Hmass : min_pixels < v * window_height bw.
Hypothesis Hcl : 1 <= cl.
Hypothesis Hfar : cl + margin < shape1 bw / 2.

Let mid : Z := shape1 bw / 2.

Lemma left_band_found (window : Z) (st : tracker) :
  0 <= window < nwindows ->
  leftx_current st = cl -> rightx_current st = mid ->
  finds bw window st = OK (Some cl, None).
Proof.
  intros Hw Hl Hr. unfold finds, candidates. rewrite Hl, Hr.
  set (w := window_bounds bw window cl mid).
  destruct (BandFacts.band_rows bw window cl mid Hw) as [Hlow Hhigh].
  fold w in Hlow, Hhigh.
  destruct (BandFacts.window_height_bounds bw) as (Hh & H15 & _).
  assert (0 <= win_y_low w <= win_y_high w /\ win_y_high w <= shape0 bw
          /\ win_y_high w - win_y_low w = window_height bw) as (Hy & HyH & Hrows)
    by (rewrite Hlow, Hhigh; unfold nwindows in *; nia).
  assert (0 <= shape1 bw) as HW0 by (unfold shape1; lia).
  assert (100 <= mid /\ mid < shape1 bw) as [Hmid1 Hmid2].
  { unfold mid, margin in *. split.
    - apply Z.div_le_lower_bound; lia.
    - apply Z.div_lt_upper_bound; lia. }
  assert (0 < v) as Hv by (unfold min_pixels in Hmass; nia).
  assert (forall x_low x_high,
            0 <= x_low <= x_high ->
            Z.of_nat (length (area_hist bw (win_y_low w) (win_y_high w)
                                x_low x_high))
            = Z.max 0 (Z.min x_high (shape1 bw) - Z.min x_low (shape1 bw)))
    as Hlen.
  { intros x_low x_high Hx. rewrite BandFacts.area_hist_length by exact Hwf.
    unfold norm_bound.
    destruct (Z.ltb_spec x_low 0); destruct (Z.ltb_spec x_high 0); lia. }
  assert (forall x_low x_high j,
            0 <= x_low ->
            0 <= j < Z.of_nat (length (area_hist bw (win_y_low w)
                                         (win_y_high w) x_low x_high)) ->
            get (area_hist bw (win_y_low w) (win_y_high w) x_low x_high) j
            = (if x_low + j =? cl then v else 0) * window_height bw) as Hget.
  { intros x_low x_high j Hx Hj. rewrite <- Hrows.
    rewrite (area_hist_banded bw [cl] v) by assumption.
    cbn [existsb]. rewrite orb_false_r. reflexivity. }
  assert (detect (area_hist bw (win_y_low w) (win_y_high w)
                    (win_xright_low w) (win_xright_high w))
            (win_xright_low w) = OK None) as ->.
  { unfold w, window_bounds, margin in *;
      cbn [win_xright_low win_xright_high].
    apply detect_dark.
    - intro Hnil. pose proof (Hlen (mid - 100) (mid + 100) ltac:(lia)) as Hl0.
      rewrite Hnil in Hl0. simpl in Hl0. lia.
    - intros j Hj. rewrite Hget by lia.
      rewrite Hlen in Hj by lia.
      destruct (Z.eqb_spec (mid - 100 + j) cl); [lia | reflexivity]. }
  set (x_low := win_xleft_low w).
  assert (x_low = Z.max 0 (cl - 100) /\ win_xleft_high w = cl + 100)
    as [Hxl Hxh].
  { unfold x_low, w, window_bounds, margin;
      cbn [win_xleft_low win_xleft_high].
    destruct (Z.ltb_spec (cl - 100) 0); lia. }
  rewrite Hxh.
  assert (x_index <- detect (area_hist bw (win_y_low w) (win_y_high w)
                               x_low (cl + 100)) x_low ;;
          OK (reject_low x_index x_low) = OK (Some cl)) as HL.
  { replace (Some cl) with (Some (cl - x_low + x_low)) by (f_equal; ring).
    unfold margin in *.
    pose proof (Hlen x_low (cl + 100) ltac:(lia)) as Hl1.
    apply detect_single_column.
    - rewrite Hl1. lia.
    - intros j Hj Hjc. rewrite Hl1 in Hj.
      rewrite !Hget by (rewrite ?Hl1; lia).
      replace (x_low + (cl - x_low)) with cl by ring. rewrite Z.eqb_refl.
      destruct (Z.eqb_spec (x_low + j) cl); [lia |].
      unfold min_pixels in Hmass. nia.
    - rewrite Hget by (rewrite ?Hl1; lia).
      replace (x_low + (cl - x_low)) with cl by ring. rewrite Z.eqb_refl.
      exact Hmass. }
  destruct (detect _ x_low) as [l |]; [| discriminate HL].
  cbn [bind reject_low] in *.
  assert (reject_low l x_low = Some cl) as -> by congruence.
  reflexivity.
Qed.

Lemma left_band_run (windows : list Z) :
  Forall (fun window => 0 <= window < nwindows) windows ->
  forall st,
    leftx_current st = cl -> rightx_current st = mid ->
    prev_lane_dist st = mid - cl ->
    exists st',
      run_windows bw windows st = OK st' /\
      lane_dist_hist st' = lane_dist_hist st /\
      left_lane_points st'
        = left_lane_points st
          ++ map (fun window => (cl, band_mid_y bw window)) windows /\
      right_lane_points st'
        = right_lane_points st
          ++ map (fun window => (mid, band_mid_y bw window)) windows /\
      (forall window s, In (window, s) (visited bw windows st) ->
         finds bw window s = OK (Some cl, None)).
Proof.
  induction 1 as [| w rest Hw _ IH]; intros st Hl Hr Hp.
  - exists st. cbn. rewrite !app_nil_r. repeat split. intros window s [].
  - pose proof (left_band_found w st Hw Hl Hr) as Hf.
    pose proof (TrackerFacts.finds_window_step _ _ _ _ _ Hf) as Hstep.
    set (st1 := recenter (window_bounds bw w (leftx_current st)
                            (rightx_current st)) (Some cl) None st)
      in Hstep.
    destruct (IH st1) as (st' & Hrun & Hh & Hpl & Hpr & Hvis).
    { reflexivity. }
    { unfold st1. cbn. lia. }
    { unfold st1. cbn. exact Hp. }
    exists st'. split.
    { cbn [run_windows]. rewrite Hstep. exact Hrun. }
    rewrite Hh, Hpl, Hpr. unfold st1 at 1 2 3. cbn.
    rewrite <- !app_assoc. rewrite Hp.
    replace (cl + (mid - cl)) with mid by ring.
    repeat split.
    intros window s Hin. rewrite Hstep in Hin.
    destruct Hin as [Heq | Hin].
    + injection Heq as <- <-. exact Hf.
    + apply Hvis, Hin.
Qed.

Lemma left_band_peaks : rows bw <> [] -> peaks bw = OK (cl, mid).
Proof.
  intro Hne.
  assert (cl + 100 < mid) as Hfar' by exact Hfar.
  assert (0 < v) as Hv.
  { destruct (BandFacts.window_height_bounds bw) as (Hh & _).
    unfold min_pixels in Hmass. nia. }
  assert (0 <= shape1 bw) as HW0 by (unfold shape1; lia).
  assert (100 <= mid /\ mid < shape1 bw) as [Hmid1 Hmid2].
  { unfold mid, margin in *. split.
    - apply Z.div_le_lower_bound; lia.
    - apply Z.div_lt_upper_bound; lia. }
  assert (Z.of_nat (length (histogram bw)) = shape1 bw) as Hlen.
  { rewrite HistogramFacts.histogram_length by exact Hwf. reflexivity. }
  assert (midpoint_of (histogram bw) = mid) as Hmid.
  { unfold midpoint_of, mid. rewrite Hlen. reflexivity. }
  assert (forall j, 0 <= j < shape1 bw ->
            get (histogram bw) j
            = (if j =? cl then v else 0)
              * Z.of_nat (length (rows bw) - length (rows bw) / 2)) as Hget.
  { intros j Hj. unfold get, histogram.
    rewrite sum_axis0_nth by (apply slice2_wf, Hwf).
    rewrite HistogramFacts.histogram_rows.
    rewrite (column_total_const _ _ (if j =? cl then v else 0)).
    - rewrite length_skipn. reflexivity.
    - intros r Hr. apply In_skipn in Hr.
      change (nth (Z.to_nat j) r 0) with (get r j).
      rewrite (banded_row bw [cl] v r j Hband Hr Hj).
      cbn [existsb]. rewrite orb_false_r. reflexivity. }
  assert (0 < length (rows bw) - length (rows bw) / 2)%nat as Hpos.
  { destruct (rows bw) as [| r rs]; [congruence |].
    pose proof (Nat.div_lt (length (r :: rs)) 2). cbn [length] in *. lia. }
  destruct (HistogramFacts.left_half_get (histogram bw) mid 0) as [HlenL _];
    [lia |].
  destruct (HistogramFacts.right_half_get (histogram bw) mid 0) as [HlenR _];
    [lia |].
  unfold peaks. rewrite Hmid.
  rewrite (argmax_unique_peak _ cl).
  - assert (argmax (slice (Some mid) None (histogram bw)) = OK 0) as ->.
    { destruct (argmax_returns (slice (Some mid) None (histogram bw)))
        as [k Hk].
      { intro Hnil. rewrite Hnil in HlenR. simpl in HlenR. lia. }
      rewrite Hk. f_equal.
      apply argmax_spec in Hk. destruct Hk as (Hkr & _ & _ & Hfirst).
      destruct (Z.eq_dec k 0) as [-> | Hk0]; [reflexivity | exfalso].
      specialize (Hfirst 0 ltac:(lia)).
      rewrite HlenR in Hkr.
      destruct (HistogramFacts.right_half_get (histogram bw) mid 0)
        as [_ Hg0]; [lia |].
      destruct (HistogramFacts.right_half_get (histogram bw) mid k)
        as [_ Hgk]; [lia |].
      rewrite Hg0, Hgk in Hfirst by lia.
      rewrite !Hget in Hfirst by lia.
      destruct (Z.eqb_spec (0 + mid) cl); [lia |].
      destruct (Z.eqb_spec (k + mid) cl); [lia |]. lia. }
    cbn [bind]. reflexivity.
  - rewrite HlenL. lia.
  - intros j Hj Hjc. rewrite HlenL in Hj.
    destruct (HistogramFacts.left_half_get (histogram bw) mid j) as [_ ->];
      [lia | | lia].
    destruct (HistogramFacts.left_half_get (histogram bw) mid cl) as [_ ->];
      [lia | | lia].
    rewrite !Hget by lia. rewrite Z.eqb_refl.
    destruct (Z.eqb_spec j cl); [contradiction |]. nia.
Qed.

End LeftBand.

(** X20. A mask that meets the input contract and holds one full-height band
    of value [v], bright enough for a band ([v * (H // 15) > 2550]), in a
    column [cl >= 1] more than [margin] columns left of the search range of
    the middle ([cl + margin < W // 2]), and nothing else, is tracked on a
    first frame by filling the gap: the bases are [cl] and [W // 2], every
    band finds the left side only, the left points lie in column [cl], the
    right points in column [W // 2], the width of the bases away, and the
    average width is that width. *)
Theorem left_band_gap_filled (bw : ndarray) (v cl : Z) :
  contract bw ->
  banded bw [cl] v ->
  min_pixels < v * window_height bw ->
  1 <= cl ->
  cl + margin < shape1 bw / 2 ->
  let mid := shape1 bw / 2 in
  exists px,
    find_lane_pixels bw None None = OK px /\
    leftx_base px = cl /\
    rightx_base px = mid /\
    left_points px
      = map (fun window => (cl, band_mid_y bw window)) (range nwindows) /\
    right_points px
      = map (fun window => (mid, band_mid_y bw window)) (range nwindows) /\
    (avg_lane_dist px == inject_Z (mid - cl))%Q /\
    (forall window st,
       In (window, st) (visited bw (range nwindows) (init_tracker cl mid)) ->
       finds bw window st = OK (Some cl, None)).
Proof.
  intros (Hwf & HH & HW) Hb Hmass Hcl Hfar mid.
  assert (rows bw <> []) as Hne.
  { unfold shape0, nwindows in HH. destruct (rows bw); [simpl in HH; lia |].
    discriminate. }
  pose proof (left_band_peaks bw v cl Hwf HW Hb Hmass Hcl Hfar Hne) as Hp.
  fold mid in Hp.
  destruct (left_band_run bw v cl Hwf HW Hb Hmass Hcl Hfar (range nwindows))
    with (st := init_tracker cl mid)
    as (st' & Hrun & Hh & Hpl & Hpr & Hvis); try reflexivity.
  { apply Forall_forall. intros w Hw. apply BandFacts.range_In, Hw. }
  eexists. split.
  { unfold find_lane_pixels.
    rewrite (BaseFacts.locate_bases_unfold _ _ _ _ _ Hp).
    cbn [validate_right validate_left bind]. rewrite Hrun. reflexivity. }
  cbn [leftx_base rightx_base left_points right_points avg_lane_dist].
  split; [reflexivity |]. split; [reflexivity |].
  split; [exact Hpl |]. split; [exact Hpr |].
  split; [| exact Hvis].
  rewrite Hh. cbn [init_tracker lane_dist_hist].
  apply TrackerFacts.average_single.
Qed.

Lemma left_band_gap_filled_witness :
  let bw := band_mask 180 400 [50] 255 in
  let mid := shape1 bw / 2 in
  exists px,
    find_lane_pixels bw None None = OK px /\
    leftx_base px = 50 /\
    rightx_base px = mid /\
    left_points px
      = map (fun window => (50, band_mid_y bw window)) (range nwindows) /\
    right_points px
      = map (fun window => (mid, band_mid_y bw window)) (range nwindows) /\
    (avg_lane_dist px == inject_Z (mid - 50))%Q /\
    (forall window st,
       In (window, st) (visited bw (range nwindows) (init_tracker 50 mid)) ->
       finds bw window st = OK (Some 50, None)).
Proof.
  apply (left_band_gap_filled (band_mask 180 400 [50] 255) 255 50).
  - apply TrackerFacts.band_mask_contract; lia.
  - apply band_mask_banded.
  - vm_compute. reflexivity.
  - lia.
  - vm_compute. reflexivity.
Defined.

End SceneFacts.
